(** * go-digikey: rate limiter, credential manager and request orchestrator

    A shallow embedding of the request pipeline of the Digi-Key client
    (the rate limiter, auth.go, client.go and the product operations)
    together with the properties its specification states about it.

    Conventions.
    - A Go [int] / [int64] is a [Z] whose arithmetic is wrapped to 64 bits
      ([wrap]) wherever the source computes with it.
    - A [time.Time] is an instant, counted in nanoseconds as a [Z];
      [time.Now()] is an explicit argument (pure component functions) or the
      [clock] of the threaded [World]. [Time.Add] is addition of instants.
    - A [time.Duration] is an int64 count of nanoseconds.
    - Code of the standard library (JSON, HTTP, time formatting) and code of
      the repository whose source is not part of this development (the
      retry policy and the response cache, of which only the tests are)
      enters through the class [Externals] or is modelled from the
      specification, and is marked so. *)

From Stdlib Require Import ZArith Lia Bool Ascii String.
From stdpp Require Import base option list strings pretty gmap.

Open Scope Z_scope.

(** ** Machine integers, instants and durations *)

Definition int_min : Z := - 2 ^ 63.
Definition int_max : Z := 2 ^ 63 - 1.

(** Two's-complement wrap-around of a 64-bit signed integer. *)
Definition wrap (z : Z) : Z := (z + 2 ^ 63) mod 2 ^ 64 - 2 ^ 63.

Definition int_add (a b : Z) : Z := wrap (a + b).
Definition int_sub (a b : Z) : Z := wrap (a - b).
Definition int_mul (a b : Z) : Z := wrap (a * b).

Definition Time := Z.
Definition Duration := Z.

Definition Second : Duration := 1000000000.
Definition Minute : Duration := 60 * Second.
Definition Hour : Duration := 60 * Minute.

(** [time.Duration(n) * time.Second] *)
Definition Seconds (n : Z) : Duration := int_mul n Second.

(** [t.Add(d)], [t.After(u)], [t.Before(u)] *)
Definition time_Add (t : Time) (d : Duration) : Time := t + d.
Definition time_After (t u : Time) : bool := u <? t.
Definition time_Before (t u : Time) : bool := t <? u.

(** [time.Time{}], the zero instant (January 1, year 1, UTC), as an offset
    from the Unix epoch. *)
Definition zeroTime : Time := -62135596800 * Second.

(** ** Errors (errors.go) *)

Record APIError := mkAPIError {
  StatusCode : Z;
  Message : string;
  Details : string;
  RequestID : string
}.

Record AuthError := mkAuthError {
  Err : string;
  Description : string
}.

Record RateLimitError := mkRateLimitError {
  Limit : Z;
  Remaining : Z;
  ResetAt : string;
  Type_ : string   (* the field Type: "minute" or "day" *)
}.

Inductive sentinel :=
  | ErrUnauthorized | ErrForbidden | ErrNotFound
  | ErrRateLimitExceeded | ErrInvalidRequest | ErrServerError.

(** A transport error as [net/http] reports it: what its [Timeout()] and
    [Temporary()] methods answer. *)
Record netError := mkNetError {
  net_Timeout : bool;
  net_Temporary : bool
}.

Inductive ctxError := Canceled | DeadlineExceeded.

Inductive error :=
  | EAPI (e : APIError)
  | EAuth (e : AuthError)
  | ERateLimit (e : RateLimitError)
  | ESentinel (s : sentinel)
  | ENet (e : netError)
  | ECtx (e : ctxError)
  | EJSON                                  (* an encoding/json error *)
  | EIO                                    (* an io.ReadAll error *)
  | ENewRequest                            (* http.NewRequestWithContext *)
  | EWrap (msg : string) (cause : error).  (* fmt.Errorf("msg: %w", cause) *)

(** [APIError.Unwrap] *)
Definition APIError_Unwrap (e : APIError) : option sentinel :=
  if StatusCode e =? 401 then Some ErrUnauthorized
  else if StatusCode e =? 403 then Some ErrForbidden
  else if StatusCode e =? 404 then Some ErrNotFound
  else if StatusCode e =? 429 then Some ErrRateLimitExceeded
  else if StatusCode e =? 400 then Some ErrInvalidRequest
  else if 500 <=? StatusCode e then Some ErrServerError
  else None.

(** ** Values the pipeline passes around *)

(** [tokenResponse] of auth.go *)
Record tokenResponse := mkTokenResponse {
  AccessToken : string;
  TokenType : string;
  ExpiresIn : Z
}.

Record Locale := mkLocale {
  Site : string;
  Language : string;
  Currency : string
}.

(** The fields of [SearchRequest] that [KeywordSearch] and the search
    builder read and write; [Limit_] is its field [Limit]. *)
Record SearchRequest := mkSearchRequest {
  Keywords : string;
  Limit_ : Z;
  Offset : Z
}.

(** [RetryConfig]. Its floating-point fields [Multiplier] and [Jitter] are
    read by [calculateBackoff] alone, which is external. *)
Record RetryConfig := mkRetryConfig {
  MaxRetries : Z;
  InitialBackoff : Duration;
  MaxBackoff : Duration
}.

(** ** Code outside this development *)

Class Externals := {
  (** [t.Format(time.RFC3339)] *)
  time_Format_RFC3339 : Time -> string;
  (** [http.StatusText] *)
  http_StatusText : Z -> string;
  (** whether [http.NewRequestWithContext(ctx, method, url, _)] succeeds *)
  http_NewRequest_ok : string -> string -> bool;
  (** [json.Unmarshal] of an error body into [{message, details}] *)
  json_Unmarshal_errResp : string -> option (string * string);
  (** [json.Unmarshal] of a token-endpoint body into [AuthError] *)
  json_Unmarshal_AuthError : string -> option AuthError;
  (** [json.Unmarshal] of a token-endpoint body into [tokenResponse] *)
  json_Unmarshal_tokenResponse : string -> option tokenResponse;
  (** [parseRetryAfter] of the retry policy: the Retry-After header as
      seconds *)
  parseRetryAfter : string -> Z;
  (** [RetryConfig.calculateBackoff] of the retry policy. It draws a random
      jitter: the first argument counts the draws made before this one. *)
  calculateBackoff : RetryConfig -> nat -> Z -> Duration;
  (** [cacheKeyForSearch] and [cacheKeyForDetails] of the response cache *)
  cacheKeyForSearch : Locale -> SearchRequest -> string;
  cacheKeyForDetails : Locale -> string -> string;
  (** [url.PathEscape] *)
  url_PathEscape : string -> string;
  (** the response types of the domain schema and their JSON codecs *)
  SearchResponse : Type;
  SearchResponse_zero : SearchResponse;
  json_Marshal_SearchRequest : SearchRequest -> option string;
  json_Marshal_SearchResponse : SearchResponse -> option string;
  json_Unmarshal_SearchResponse : string -> option SearchResponse;
  ProductDetailsResponse : Type;
  ProductDetailsResponse_zero : ProductDetailsResponse;
  json_Marshal_ProductDetailsResponse : ProductDetailsResponse -> option string;
  json_Unmarshal_ProductDetailsResponse : string -> option ProductDetailsResponse
}.

(** ** RateLimiter *)

Record RateLimiter := mkRateLimiter {
  minuteCount : Z;
  minuteResetTime : Time;
  dayCount : Z;
  dayResetTime : Time;
  minuteLimit : Z;
  dayLimit : Z
}.

Record RateLimitStats := mkRateLimitStats {
  MinuteLimit : Z;
  MinuteUsed : Z;
  MinuteRemaining : Z;
  MinuteResetAt : Time;
  DayLimit : Z;
  DayUsed : Z;
  DayRemaining : Z;
  DayResetAt : Time
}.

Definition NewRateLimiterWithLimits (minuteLimit dayLimit : Z) (now : Time)
  : RateLimiter :=
  {| minuteCount := 0;
     minuteResetTime := time_Add now Minute;
     dayCount := 0;
     dayResetTime := time_Add now (24 * Hour);
     minuteLimit := minuteLimit;
     dayLimit := dayLimit |}.

Definition NewRateLimiter (now : Time) : RateLimiter :=
  NewRateLimiterWithLimits 120 1000 now.

Definition resetMinute (r : RateLimiter) (now : Time) : RateLimiter :=
  if time_After now (minuteResetTime r) then
    {| minuteCount := 0;
       minuteResetTime := time_Add now Minute;
       dayCount := dayCount r;
       dayResetTime := dayResetTime r;
       minuteLimit := minuteLimit r;
       dayLimit := dayLimit r |}
  else r.

Definition resetDay (r : RateLimiter) (now : Time) : RateLimiter :=
  if time_After now (dayResetTime r) then
    {| minuteCount := minuteCount r;
       minuteResetTime := minuteResetTime r;
       dayCount := 0;
       dayResetTime := time_Add now (24 * Hour);
       minuteLimit := minuteLimit r;
       dayLimit := dayLimit r |}
  else r.

(** The two lazy window resets at the head of [Allow]. *)
Definition resetWindows (r : RateLimiter) (now : Time) : RateLimiter :=
  resetDay (resetMinute r now) now.

Section RateLimiterOps.
Context `{!Externals}.

(** [RateLimiter.Allow]; [now] is the value of its [time.Now()]. *)
Definition Allow (r : RateLimiter) (now : Time)
  : option RateLimitError * RateLimiter :=
  let r := resetWindows r now in
  if minuteLimit r <=? minuteCount r then
    (Some {| Limit := minuteLimit r;
             Remaining := 0;
             ResetAt := time_Format_RFC3339 (minuteResetTime r);
             Type_ := "minute" |}, r)
  else if dayLimit r <=? dayCount r then
    (Some {| Limit := dayLimit r;
             Remaining := 0;
             ResetAt := time_Format_RFC3339 (dayResetTime r);
             Type_ := "day" |}, r)
  else
    (None,
     {| minuteCount := int_add (minuteCount r) 1;
        minuteResetTime := minuteResetTime r;
        dayCount := int_add (dayCount r) 1;
        dayResetTime := dayResetTime r;
        minuteLimit := minuteLimit r;
        dayLimit := dayLimit r |}).

End RateLimiterOps.

(** [RateLimiter.Stats]: the snapshot, and the limiter as the call leaves
    it. *)
Definition Stats (r : RateLimiter) (now : Time)
  : RateLimitStats * RateLimiter :=
  let minuteCount' :=
    if time_After now (minuteResetTime r) then 0 else minuteCount r in
  let dayCount' :=
    if time_After now (dayResetTime r) then 0 else dayCount r in
  ({| MinuteLimit := minuteLimit r;
      MinuteUsed := minuteCount';
      MinuteRemaining := int_sub (minuteLimit r) minuteCount';
      MinuteResetAt := minuteResetTime r;
      DayLimit := dayLimit r;
      DayUsed := dayCount';
      DayRemaining := int_sub (dayLimit r) dayCount';
      DayResetAt := dayResetTime r |}, r).

(** [RateLimiter.UpdateFromResponse]; [now] is read only when the
    argument is positive. *)
Definition UpdateFromResponse (r : RateLimiter) (retryAfterSeconds : Z)
  (now : Time) : RateLimiter :=
  if retryAfterSeconds <=? 0 then r
  else
    {| minuteCount := minuteLimit r;
       minuteResetTime := time_Add now (Seconds retryAfterSeconds);
       dayCount := dayCount r;
       dayResetTime := dayResetTime r;
       minuteLimit := minuteLimit r;
       dayLimit := dayLimit r |}.

(** Consecutive [Allow] calls, one per instant of [ts]; the errors they
    return, in order, and the limiter after the last one. *)
Fixpoint allowMany `{!Externals} (r : RateLimiter) (ts : list Time)
  : list (option RateLimitError) * RateLimiter :=
  match ts with
  | [] => ([], r)
  | t :: ts' =>
      let '(e, r1) := Allow r t in
      let '(es, r2) := allowMany r1 ts' in
      (e :: es, r2)
  end.

(** ** The environment of a call

    What the network answers and when the caller's context ends. *)

Record Response := mkResponse {
  resp_StatusCode : Z;
  resp_Body : string;
  resp_RetryAfter : string;    (* the Retry-After header, empty when absent *)
  resp_RequestId : string;     (* the X-Request-Id header *)
  resp_ReadFails : bool        (* io.ReadAll(resp.Body) returns an error *)
}.

Inductive httpReply :=
  | DoError (e : error)        (* httpClient.Do returned an error *)
  | DoResponse (resp : Response).

(** A data request as [doOnce] sends it, headers of [setHeaders] included. *)
Record HTTPRequest := mkHTTPRequest {
  hr_method : string;
  hr_url : string;
  hr_body : string;
  hr_Authorization : string;
  hr_ClientId : string;
  hr_Locale : Locale
}.

Record Env := mkEnv {
  (** when the caller's context is done, and with which error *)
  ctx_done : option (Time * ctxError);
  (** the [k]-th token exchange: the answer and the time it takes *)
  tokenEndpoint : nat -> httpReply * Duration;
  (** the [k]-th data request: the answer and the time it takes *)
  apiEndpoint : nat -> HTTPRequest -> httpReply * Duration
}.

(** ** RetryPolicy *)

(** Modelled from the spec: [isTimeoutError] and [isTemporaryNetworkError]
    of the retry policy, whether "the transport error signals a
    timeout/temporary condition", looked for through [%w] wrappers. *)
Fixpoint isTimeoutError (e : error) : bool :=
  match e with
  | ENet n => net_Timeout n
  | EWrap _ c => isTimeoutError c
  | _ => false
  end.

Fixpoint isTemporaryNetworkError (e : error) : bool :=
  match e with
  | ENet n => net_Temporary n
  | EWrap _ c => isTemporaryNetworkError c
  | _ => false
  end.

(** Modelled from the spec: [shouldRetry] of the retry policy, "true when
    statusCode is one of 429, 500, 502, 503, 504 or the transport error
    signals a timeout/temporary condition; false for all other 4xx codes
    and non-transient transport errors". *)
Definition shouldRetry (err : option error) (statusCode : Z) : bool :=
  match err with
  | Some e => isTimeoutError e || isTemporaryNetworkError e
  | None => false
  end
  || (statusCode =? 429) || (statusCode =? 500) || (statusCode =? 502)
  || (statusCode =? 503) || (statusCode =? 504).

(** Modelled from the spec: [sleep] of the retry policy, "waits up to
    duration, returning immediately with a cancellation/deadline error if
    the signal fires first or was already fired at call time". Returns the
    error, if any, and the instant at which the call returns. *)
Definition sleep (env : Env) (now : Time) (d : Duration)
  : option error * Time :=
  match ctx_done env with
  | Some (tc, e) =>
      if tc <=? now then (Some (ECtx e), now)
      else if tc <? time_Add now d then (Some (ECtx e), tc)
      else (None, time_Add now (Z.max 0 d))
  | None => (None, time_Add now (Z.max 0 d))
  end.

(** ** CredentialManager (auth.go) *)

Definition defaultTokenURL : string := "https://api.digikey.com/v1/oauth2/token".
Definition tokenExpiryBuffer : Duration := 60 * Second.

Record tokenManager := mkTokenManager {
  tm_clientID : string;
  tm_clientSecret : string;
  tokenURL : string;
  accessToken : string;
  tokenExpiry : Time
}.

Definition newTokenManager (clientID clientSecret tokenURL : string)
  : tokenManager :=
  {| tm_clientID := clientID;
     tm_clientSecret := clientSecret;
     tokenURL := if String.eqb tokenURL "" then defaultTokenURL else tokenURL;
     accessToken := "";
     tokenExpiry := zeroTime |}.

(** The freshness test of [getToken] and [refreshToken]:
    [token != "" && time.Now().Before(expiry.Add(-tokenExpiryBuffer))]. *)
Definition tokenFresh (token : string) (expiry now : Time) : bool :=
  negb (String.eqb token "")
  && time_Before now (time_Add expiry (- tokenExpiryBuffer)).

Definition setToken (tm : tokenManager) (token : string) (expiry : Time)
  : tokenManager :=
  {| tm_clientID := tm_clientID tm;
     tm_clientSecret := tm_clientSecret tm;
     tokenURL := tokenURL tm;
     accessToken := token;
     tokenExpiry := expiry |}.

(** [tokenManager.invalidate] *)
Definition invalidate (tm : tokenManager) : tokenManager :=
  setToken tm "" zeroTime.

Section Credential.
Context `{!Externals}.

(** [refreshToken] from the return of [httpClient.Do] on: [reply] is what
    the token endpoint answered and [now] the [time.Now()] read when the
    token is stored. *)
Definition refreshToken_finish (tm : tokenManager) (reply : httpReply)
  (now : Time) : (string + error) * tokenManager :=
  match reply with
  | DoError e => (inr (EWrap "digikey: token request failed" e), tm)
  | DoResponse resp =>
      if resp_ReadFails resp then
        (inr (EWrap "digikey: failed to read token response" EIO), tm)
      else if negb (resp_StatusCode resp =? 200) then
        let apiErr :=
          EAPI {| StatusCode := resp_StatusCode resp;
                  Message := "token request failed";
                  Details := resp_Body resp;
                  RequestID := "" |} in
        match json_Unmarshal_AuthError (resp_Body resp) with
        | Some authErr =>
            if negb (String.eqb (Err authErr) "") then (inr (EAuth authErr), tm)
            else (inr apiErr, tm)
        | None => (inr apiErr, tm)
        end
      else
        match json_Unmarshal_tokenResponse (resp_Body resp) with
        | None =>
            (inr (EWrap "digikey: failed to parse token response" EJSON), tm)
        | Some tokenResp =>
            (inl (AccessToken tokenResp),
             setToken tm (AccessToken tokenResp)
               (time_Add now (Seconds (ExpiresIn tokenResp))))
        end
  end.

End Credential.

(** ** ResponseCache *)

Record cacheEntry := mkCacheEntry {
  ce_value : string;
  ce_expiresAt : Time
}.

(** Modelled from the spec: [MemoryCache.Get], "treats an entry
    whose expiresAt <= now as a miss and removes it (lazy expiry)". *)
Definition cache_Get (m : gmap string cacheEntry) (key : string) (now : Time)
  : option string * gmap string cacheEntry :=
  match m !! key with
  | Some e =>
      if ce_expiresAt e <=? now then (None, delete key m)
      else (Some (ce_value e), m)
  | None => (None, m)
  end.

(** Modelled from the spec: [MemoryCache.Set], which stores the
    value under the key with [expiresAt = now + ttl]. *)
Definition cache_Set (m : gmap string cacheEntry) (key value : string)
  (ttl : Duration) (now : Time) : gmap string cacheEntry :=
  <[key := {| ce_value := value; ce_expiresAt := time_Add now ttl |}]> m.

(** ** Client (client.go) *)

Record CacheConfig := mkCacheConfig {
  Enabled : bool;
  SearchTTL : Duration;
  DetailsTTL : Duration
}.

(** The fields of [Client] that a call only reads. *)
Record Client := mkClient {
  baseURL : string;
  clientID : string;
  retryConfig : RetryConfig;
  cacheConfig : CacheConfig;
  locale : Locale
}.

(** The components a call mutates ([rateLimiter], [tokenManager], [cache],
    the last one [None] when the field is nil), the clock, and what the
    environment has been asked so far. The clock moves across a backoff
    sleep and across a network exchange, by the time the exchange takes. *)
Record World := mkWorld {
  clock : Time;
  rateLimiter : RateLimiter;
  tokenMgr : tokenManager;
  cache : option (gmap string cacheEntry);
  allowCalls : nat;     (* calls of RateLimiter.Allow *)
  exchanges : nat;      (* requests sent to the token endpoint *)
  sends : nat;          (* data requests sent *)
  draws : nat           (* backoffs computed *)
}.

Definition set_clock (w : World) (t : Time) : World :=
  mkWorld t (rateLimiter w) (tokenMgr w) (cache w)
          (allowCalls w) (exchanges w) (sends w) (draws w).
Definition set_rateLimiter (w : World) (r : RateLimiter) : World :=
  mkWorld (clock w) r (tokenMgr w) (cache w)
          (allowCalls w) (exchanges w) (sends w) (draws w).
Definition set_tokenMgr (w : World) (tm : tokenManager) : World :=
  mkWorld (clock w) (rateLimiter w) tm (cache w)
          (allowCalls w) (exchanges w) (sends w) (draws w).
Definition set_cache (w : World) (c : option (gmap string cacheEntry))
  : World :=
  mkWorld (clock w) (rateLimiter w) (tokenMgr w) c
          (allowCalls w) (exchanges w) (sends w) (draws w).
Definition tick_allowCalls (w : World) : World :=
  mkWorld (clock w) (rateLimiter w) (tokenMgr w) (cache w)
          (S (allowCalls w)) (exchanges w) (sends w) (draws w).
Definition tick_exchanges (w : World) : World :=
  mkWorld (clock w) (rateLimiter w) (tokenMgr w) (cache w)
          (allowCalls w) (S (exchanges w)) (sends w) (draws w).
Definition tick_sends (w : World) : World :=
  mkWorld (clock w) (rateLimiter w) (tokenMgr w) (cache w)
          (allowCalls w) (exchanges w) (S (sends w)) (draws w).
Definition tick_draws (w : World) : World :=
  mkWorld (clock w) (rateLimiter w) (tokenMgr w) (cache w)
          (allowCalls w) (exchanges w) (sends w) (S (draws w)).

(** The arguments [method], [path], [body] of [do]. [rq_body] is [None] for
    a nil body and otherwise what [json.Marshal(body)] returns, [None] on
    failure. *)
Record Request := mkRequest {
  rq_method : string;
  rq_path : string;
  rq_body : option (option string)
}.

(** What [doOnce] returns, and the value it parsed into [result]. *)
Record Outcome (R : Type) := mkOutcome {
  out_statusCode : Z;
  out_shouldRetry : bool;
  out_err : option error;
  out_value : option R
}.
Arguments mkOutcome {R}.
Arguments out_statusCode {R}.
Arguments out_shouldRetry {R}.
Arguments out_err {R}.
Arguments out_value {R}.

(** What the retry loop did, in order. *)
Inductive LoopEvent :=
  | Attempt (attempt : Z) (statusCode : Z) (retry : bool) (err : option error)
  | SleepCancelled (attempt : Z)
  | Restart.          (* the credential was invalidated and the call restarted *)

Section ClientOps.
Context `{!Externals}.
Variable c : Client.
Variable env : Env.

(** [tokenManager.refreshToken] *)
Definition refreshToken (w : World) : (string + error) * World :=
  let tm := tokenMgr w in
  if tokenFresh (accessToken tm) (tokenExpiry tm) (clock w) then
    (inl (accessToken tm), w)
  else if negb (http_NewRequest_ok "POST" (tokenURL tm)) then
    (inr (EWrap "digikey: failed to create token request" ENewRequest), w)
  else
    let '(reply, latency) := tokenEndpoint env (exchanges w) in
    let w := set_clock (tick_exchanges w) (time_Add (clock w) latency) in
    let '(res, tm') := refreshToken_finish tm reply (clock w) in
    (res, set_tokenMgr w tm').

(** [tokenManager.getToken] *)
Definition getToken (w : World) : (string + error) * World :=
  let token := accessToken (tokenMgr w) in
  let expiry := tokenExpiry (tokenMgr w) in
  if tokenFresh token expiry (clock w) then (inl token, w)
  else refreshToken w.

(** [Client.handleErrorResponse] *)
Definition handleErrorResponse (statusCode : Z) (body requestId : string)
  : error :=
  match json_Unmarshal_errResp body with
  | Some (message, details) =>
      EAPI {| StatusCode := statusCode; Message := message;
              Details := details; RequestID := requestId |}
  | None =>
      EAPI {| StatusCode := statusCode; Message := http_StatusText statusCode;
              Details := body; RequestID := requestId |}
  end.

(** [Client.doOnce] from the return of [io.ReadAll] on: what it makes of
    the response. [result] is [None] for a nil [result] and otherwise how
    [json.Unmarshal] decodes a body into it. *)
Definition classify {R : Type} (result : option (string -> option R))
  (resp : Response) (w : World) : Outcome R * World :=
  let statusCode := resp_StatusCode resp in
  if resp_ReadFails resp then
    (mkOutcome statusCode false
       (Some (EWrap "digikey: failed to read response" EIO)) None, w)
  else if statusCode =? 429 then
    let retryAfter := parseRetryAfter (resp_RetryAfter resp) in
    let w' :=
      set_rateLimiter w
        (UpdateFromResponse (rateLimiter w) retryAfter (clock w)) in
    (mkOutcome statusCode true
       (Some (handleErrorResponse statusCode (resp_Body resp)
                (resp_RequestId resp))) None, w')
  else if statusCode =? 401 then
    (mkOutcome statusCode false
       (Some (EAPI {| StatusCode := statusCode; Message := "unauthorized";
                      Details := resp_Body resp;
                      RequestID := resp_RequestId resp |})) None, w)
  else if (statusCode <? 200) || (300 <=? statusCode) then
    (mkOutcome statusCode (shouldRetry None statusCode)
       (Some (handleErrorResponse statusCode (resp_Body resp)
                (resp_RequestId resp))) None, w)
  else
    match result with
    | Some unmarshal =>
        if 0 <? Z.of_nat (String.length (resp_Body resp)) then
          match unmarshal (resp_Body resp) with
          | None =>
              (mkOutcome statusCode false
                 (Some (EWrap "digikey: failed to parse response" EJSON))
                 None, w)
          | Some v => (mkOutcome statusCode false None (Some v), w)
          end
        else (mkOutcome statusCode false None None, w)
    | None => (mkOutcome statusCode false None None, w)
    end.

(** [Client.doOnce] *)
Definition doOnce {R : Type} (req : Request)
  (result : option (string -> option R)) (w : World) : Outcome R * World :=
  let '(allowErr, rl) := Allow (rateLimiter w) (clock w) in
  let w := set_rateLimiter (tick_allowCalls w) rl in
  match allowErr with
  | Some e => (mkOutcome 0 false (Some (ERateLimit e)) None, w)
  | None =>
  let '(tok, w) := getToken w in
  match tok with
  | inr err => (mkOutcome 0 (shouldRetry (Some err) 0) (Some err) None, w)
  | inl token =>
  match rq_body req with
  | Some None =>
      (mkOutcome 0 false
         (Some (EWrap "digikey: failed to marshal request body" EJSON)) None, w)
  | bodyBytes =>
  if negb (http_NewRequest_ok (rq_method req) (baseURL c +:+ rq_path req)) then
    (mkOutcome 0 false
       (Some (EWrap "digikey: failed to create request" ENewRequest)) None, w)
  else
  let httpReq :=
    {| hr_method := rq_method req;
       hr_url := baseURL c +:+ rq_path req;
       hr_body := default "" (default None bodyBytes);
       hr_Authorization := "Bearer " +:+ token;
       hr_ClientId := clientID c;
       hr_Locale := locale c |} in
  let '(reply, latency) := apiEndpoint env (sends w) httpReq in
  let w := set_clock (tick_sends w) (time_Add (clock w) latency) in
  match reply with
  | DoError err =>
      (mkOutcome 0 (shouldRetry (Some err) 0)
         (Some (EWrap "digikey: request failed" err)) None, w)
  | DoResponse resp => classify result resp w
  end
  end
  end
  end.

(** What [doWithRetry] returns: the error, the value parsed into [result],
    the world it leaves and the events of its loop. *)
Definition Result (R : Type) : Type :=
  (option error * option R * World * list LoopEvent)%type.

Definition logged {R : Type} (evs : list LoopEvent) (r : Result R)
  : Result R :=
  let '(e, v, w, l) := r in (e, v, w, evs ++ l).

(** [maxAttempts := c.retryConfig.MaxRetries + 1] *)
Definition maxAttempts : Z := int_add (MaxRetries (retryConfig c)) 1.

(** The head of an iteration: [if attempt > 0 { backoff; sleep }]. Returns
    the error of a cancelled sleep, if any. *)
Definition backoffSleep (attempt : Z) (w : World) : option error * World :=
  if 0 <? attempt then
    let backoff :=
      calculateBackoff (retryConfig c) (draws w) (int_sub attempt 1) in
    let '(e, t) := sleep env (clock w) backoff in
    (e, set_clock (tick_draws w) t)
  else (None, w).

(** The [for] loop of [doWithRetry], entered at index [attempt] with [n]
    iterations left before [attempt < maxAttempts] fails; [recur] is the
    call [c.doWithRetry(ctx, method, path, body, result, true)]. *)
Fixpoint retryLoop {R : Type} (req : Request)
  (result : option (string -> option R)) (isRetryAfter401 : bool)
  (recur : World -> Result R) (n : nat) (attempt : Z)
  (lastErr : option error) (w : World) : Result R :=
  match n with
  | O => (lastErr, None, w, [])
  | S n' =>
      let '(sleepErr, w) := backoffSleep attempt w in
      match sleepErr with
      | Some err => (Some err, None, w, [SleepCancelled attempt])
      | None =>
          let '(o, w) := doOnce req result w in
          let ev :=
            Attempt attempt (out_statusCode o) (out_shouldRetry o) (out_err o) in
          match out_err o with
          | None => (None, out_value o, w, [ev])
          | Some err =>
              if (out_statusCode o =? 401) && negb isRetryAfter401 then
                logged [ev; Restart]
                  (recur (set_tokenMgr w (invalidate (tokenMgr w))))
              else if negb (out_shouldRetry o) then (Some err, None, w, [ev])
              else if int_sub maxAttempts 1 <=? attempt then
                (Some err, None, w, [ev])
              else
                logged [ev]
                  (retryLoop req result isRetryAfter401 recur n'
                     (int_add attempt 1) (Some err) w)
          end
      end
  end.

(** [Client.doWithRetry]. The call with [isRetryAfter401 = true] never
    recurs, so its [recur] is never reached. *)
Definition doWithRetry {R : Type} (req : Request)
  (result : option (string -> option R)) (isRetryAfter401 : bool) (w : World)
  : Result R :=
  let after401 :=
    retryLoop req result true (fun w => (None, None, w, []))
      (Z.to_nat maxAttempts) 0 None in
  if isRetryAfter401 then after401 w
  else retryLoop req result false after401 (Z.to_nat maxAttempts) 0 None w.

(** [Client.do] *)
Definition do {R : Type} (req : Request)
  (result : option (string -> option R)) (w : World) : Result R :=
  doWithRetry req result false w.

End ClientOps.

(** Reading a [Result]. *)
Definition res_err {R : Type} (r : Result R) : option error := r.1.1.1.
Definition res_value {R : Type} (r : Result R) : option R := r.1.1.2.
Definition res_world {R : Type} (r : Result R) : World := r.1.2.
Definition res_events {R : Type} (r : Result R) : list LoopEvent := r.2.

Definition attemptIndex (ev : LoopEvent) : option Z :=
  match ev with
  | Attempt a _ _ _ => Some a
  | _ => None
  end.

(** An attempt that failed with a retryable outcome other than a 401. *)
Definition retryableFailure (ev : LoopEvent) : bool :=
  match ev with
  | Attempt _ statusCode true (Some _) => negb (statusCode =? 401)
  | _ => false
  end.

(** An attempt that failed with status 401. *)
Definition unauthorized (ev : LoopEvent) : bool :=
  match ev with
  | Attempt _ statusCode _ (Some _) => statusCode =? 401
  | _ => false
  end.

Definition isRestart (ev : LoopEvent) : bool :=
  match ev with
  | Restart => true
  | _ => false
  end.

(** The ways one iteration of the loop of [doWithRetry] can go, with what
    the loop returns in each. *)
Inductive iteration `{!Externals} (c : Client) (env : Env) {R : Type}
  (req : Request) (result : option (string -> option R))
  (isRetryAfter401 : bool) (recur : World -> Result R) (n : nat)
  (attempt : Z) (w : World) : Result R -> Prop :=
  | IterCancelled (err : error) (w1 : World) :
      backoffSleep c env attempt w = (Some err, w1) ->
      iteration c env req result isRetryAfter401 recur n attempt w
        (Some err, None, w1, [SleepCancelled attempt])
  | IterSuccess (w1 w2 : World) (o : Outcome R) :
      backoffSleep c env attempt w = (None, w1) ->
      doOnce c env req result w1 = (o, w2) ->
      out_err o = None ->
      iteration c env req result isRetryAfter401 recur n attempt w
        (None, out_value o, w2,
         [Attempt attempt (out_statusCode o) (out_shouldRetry o) None])
  | IterRestart (w1 w2 : World) (o : Outcome R) (err : error) :
      backoffSleep c env attempt w = (None, w1) ->
      doOnce c env req result w1 = (o, w2) ->
      out_err o = Some err ->
      out_statusCode o = 401 -> isRetryAfter401 = false ->
      iteration c env req result isRetryAfter401 recur n attempt w
        (logged [Attempt attempt 401 (out_shouldRetry o) (Some err); Restart]
           (recur (set_tokenMgr w2 (invalidate (tokenMgr w2)))))
  | IterTerminal (w1 w2 : World) (o : Outcome R) (err : error) :
      backoffSleep c env attempt w = (None, w1) ->
      doOnce c env req result w1 = (o, w2) ->
      out_err o = Some err ->
      out_statusCode o <> 401 \/ isRetryAfter401 = true ->
      out_shouldRetry o = false ->
      iteration c env req result isRetryAfter401 recur n attempt w
        (Some err, None, w2,
         [Attempt attempt (out_statusCode o) false (Some err)])
  | IterExhausted (w1 w2 : World) (o : Outcome R) (err : error) :
      backoffSleep c env attempt w = (None, w1) ->
      doOnce c env req result w1 = (o, w2) ->
      out_err o = Some err ->
      out_statusCode o <> 401 \/ isRetryAfter401 = true ->
      out_shouldRetry o = true ->
      int_sub (maxAttempts c) 1 <= attempt ->
      iteration c env req result isRetryAfter401 recur n attempt w
        (Some err, None, w2,
         [Attempt attempt (out_statusCode o) true (Some err)])
  | IterContinue (w1 w2 : World) (o : Outcome R) (err : error) :
      backoffSleep c env attempt w = (None, w1) ->
      doOnce c env req result w1 = (o, w2) ->
      out_err o = Some err ->
      out_statusCode o <> 401 \/ isRetryAfter401 = true ->
      out_shouldRetry o = true ->
      attempt < int_sub (maxAttempts c) 1 ->
      iteration c env req result isRetryAfter401 recur n attempt w
        (logged [Attempt attempt (out_statusCode o) true (Some err)]
           (retryLoop c env req result isRetryAfter401 recur n
              (int_add attempt 1) (Some err) w2)).

(** The limiter has room for [k] more requests in both windows. *)
Definition headroom (k : Z) (r : RateLimiter) : Prop :=
  0 <= minuteCount r /\ 0 <= dayCount r
  /\ minuteCount r + k <= minuteLimit r /\ dayCount r + k <= dayLimit r
  /\ minuteLimit r <= int_max /\ dayLimit r <= int_max.

(** The token endpoint answers every exchange with a decodable 200. *)
Definition tokenEndpointGrants `{!Externals} (env : Env) : Prop :=
  forall k, exists resp latency tokenResp,
    tokenEndpoint env k = (DoResponse resp, latency)
    /\ resp_ReadFails resp = false /\ resp_StatusCode resp = 200
    /\ json_Unmarshal_tokenResponse (resp_Body resp) = Some tokenResp.

(** The server answers every data request with the given status and a
    readable body. *)
Definition apiAlwaysAnswers (env : Env) (statusCode : Z) : Prop :=
  forall k hr, exists resp latency,
    apiEndpoint env k hr = (DoResponse resp, latency)
    /\ resp_ReadFails resp = false /\ resp_StatusCode resp = statusCode.

(** The request can be built: its body, if any, marshals and
    [http.NewRequestWithContext] accepts its method and URL. *)
Definition requestBuilds `{!Externals} (c : Client) (req : Request) : Prop :=
  rq_body req <> Some None
  /\ http_NewRequest_ok (rq_method req) (baseURL c +:+ rq_path req) = true.

(** An attempt answered with a 503 and reported as retryable. *)
Definition serverError503 (ev : LoopEvent) : Prop :=
  exists a e, ev = Attempt a 503 true (Some (EAPI e)) /\ StatusCode e = 503.

(** An event that is neither a failed 401 attempt nor a restart. *)
Definition uneventful (ev : LoopEvent) : Prop :=
  isRestart ev = false /\ unauthorized ev = false.

(** In the events [evs] of a call that ends with [err], a failed 401 attempt
    is the last event and its error is the one returned. *)
Definition unauthorizedIsTerminal (evs : list LoopEvent) (err : option error)
  : Prop :=
  forall pre ev post,
    evs = pre ++ ev :: post -> unauthorized ev = true ->
    post = [] /\ exists a rt e, ev = Attempt a 401 rt (Some e) /\ err = Some e.

(** ** Product operations *)

Definition searchBasePath : string := "/products/v4/search".

Section Products.
Context `{!Externals}.
Variable c : Client.
Variable env : Env.

(** The cache look-up at the head of [KeywordSearch] and [ProductDetails]:
    the decoded entry on a hit, and the world the look-up leaves. *)
Definition cacheLookup {A : Type} (unmarshal : string -> option A)
  (cacheKey : string) (w : World) : option A * World :=
  match cache w with
  | Some m =>
      if Enabled (cacheConfig c) then
        let '(cached, m') := cache_Get m cacheKey (clock w) in
        let w := set_cache w (Some m') in
        match cached with
        | Some data => (unmarshal data, w)
        | None => (None, w)
        end
      else (None, w)
  | None => (None, w)
  end.

(** The cache store at the tail of the same operations. *)
Definition cacheStore (marshalled : option string) (cacheKey : string)
  (ttl : Duration) (w : World) : World :=
  match cache w with
  | Some m =>
      if Enabled (cacheConfig c) then
        match marshalled with
        | Some data => set_cache w (Some (cache_Set m cacheKey data ttl (clock w)))
        | None => w
        end
      else w
  | None => w
  end.

(** The copy of the request that [KeywordSearch] works on, its [Limit]
    brought into 1..50 (10 when not positive). *)
Definition clampLimit (req : SearchRequest) : SearchRequest :=
  let limit1 := if Limit_ req <=? 0 then 10 else Limit_ req in
  let limit2 := if 50 <? limit1 then 50 else limit1 in
  {| Keywords := Keywords req; Limit_ := limit2; Offset := Offset req |}.

(** [Client.KeywordSearch]; [req] is [None] for a nil request. *)
Definition KeywordSearch (req : option SearchRequest) (w : World)
  : (SearchResponse + error) * World * list LoopEvent :=
  match req with
  | None => (inr (ESentinel ErrInvalidRequest), w, [])
  | Some req =>
      if String.eqb (Keywords req) "" then
        (inr (EWrap "keywords are required" (ESentinel ErrInvalidRequest)),
         w, [])
      else
        let searchReq := clampLimit req in
        let cacheKey := cacheKeyForSearch (locale c) searchReq in
        let '(hit, w) :=
          cacheLookup json_Unmarshal_SearchResponse cacheKey w in
        match hit with
        | Some resp => (inl resp, w, [])
        | None =>
            let '(err, v, w, evs) :=
              do c env
                {| rq_method := "POST";
                   rq_path := searchBasePath +:+ "/keyword";
                   rq_body := Some (json_Marshal_SearchRequest searchReq) |}
                (Some json_Unmarshal_SearchResponse) w in
            match err with
            | Some e => (inr e, w, evs)
            | None =>
                let resp := default SearchResponse_zero v in
                (inl resp,
                 cacheStore (json_Marshal_SearchResponse resp) cacheKey
                   (SearchTTL (cacheConfig c)) w,
                 evs)
            end
        end
  end.

(** [Client.ProductDetails] *)
Definition ProductDetails (productNumber : string) (w : World)
  : (ProductDetailsResponse + error) * World * list LoopEvent :=
  if String.eqb productNumber "" then
    (inr (EWrap "product number is required" (ESentinel ErrInvalidRequest)),
     w, [])
  else
    let cacheKey := cacheKeyForDetails (locale c) productNumber in
    let '(hit, w) :=
      cacheLookup json_Unmarshal_ProductDetailsResponse cacheKey w in
    match hit with
    | Some resp => (inl resp, w, [])
    | None =>
        let path :=
          searchBasePath +:+ "/" +:+ url_PathEscape productNumber
          +:+ "/productdetails" in
        let '(err, v, w, evs) :=
          do c env
            {| rq_method := "GET"; rq_path := path; rq_body := None |}
            (Some json_Unmarshal_ProductDetailsResponse) w in
        match err with
        | Some e => (inr e, w, evs)
        | None =>
            let resp := default ProductDetailsResponse_zero v in
            (inl resp,
             cacheStore (json_Marshal_ProductDetailsResponse resp) cacheKey
               (DetailsTTL (cacheConfig c)) w,
             evs)
        end
    end.

End Products.

(** ** Concurrent callers of [getToken]

    Each caller is a thread at one of the points below; a schedule picks
    which thread moves next or lets time pass. The read section of
    [getToken] (RLock, two field reads, RUnlock) is one step, enabled while
    no writer holds [mu]; [refreshToken] holds [mu] from [Lock] to its
    return, across the network exchange. *)

Inductive pc :=
  | PStart                                  (* about to enter getToken *)
  | PSnapshot (token : string) (expiry : Time)  (* token and expiry read *)
  | PWaitLock                               (* in refreshToken, at mu.Lock() *)
  | PLocked                                 (* holds mu, before the re-check *)
  | PExchanging (k : nat)                   (* holds mu, in httpClient.Do *)
  | PDone (res : string + error).           (* returned *)

Record Sys := mkSys {
  sys_clock : Time;
  sys_tm : tokenManager;
  sys_locked : bool;           (* a writer holds tm.mu *)
  sys_threads : list pc;
  sys_exchanges : nat          (* requests sent to the token endpoint *)
}.

Inductive action :=
  | Run (i : nat)              (* thread [i] takes its next step *)
  | Tick (d : Duration).       (* time passes *)

Section Concurrent.
Context `{!Externals}.
Variable env : Env.

Definition set_thread (s : Sys) (i : nat) (p : pc) : Sys :=
  mkSys (sys_clock s) (sys_tm s) (sys_locked s)
        (<[i := p]> (sys_threads s)) (sys_exchanges s).

(** One step of thread [i]; [None] when it is blocked, has returned or does
    not exist. *)
Definition step_thread (i : nat) (s : Sys) : option Sys :=
  let tm := sys_tm s in
  match sys_threads s !! i with
  | Some PStart =>
      if sys_locked s then None
      else Some (set_thread s i (PSnapshot (accessToken tm) (tokenExpiry tm)))
  | Some (PSnapshot token expiry) =>
      if tokenFresh token expiry (sys_clock s) then
        Some (set_thread s i (PDone (inl token)))
      else Some (set_thread s i PWaitLock)
  | Some PWaitLock =>
      if sys_locked s then None
      else
        Some (mkSys (sys_clock s) tm true
                    (<[i := PLocked]> (sys_threads s)) (sys_exchanges s))
  | Some PLocked =>
      if tokenFresh (accessToken tm) (tokenExpiry tm) (sys_clock s) then
        Some (mkSys (sys_clock s) tm false
                    (<[i := PDone (inl (accessToken tm))]> (sys_threads s))
                    (sys_exchanges s))
      else if negb (http_NewRequest_ok "POST" (tokenURL tm)) then
        Some (mkSys (sys_clock s) tm false
                    (<[i := PDone (inr (EWrap
                                          "digikey: failed to create token request"
                                          ENewRequest))]> (sys_threads s))
                    (sys_exchanges s))
      else
        Some (mkSys (sys_clock s) tm true
                    (<[i := PExchanging (sys_exchanges s)]> (sys_threads s))
                    (S (sys_exchanges s)))
  | Some (PExchanging k) =>
      let '(res, tm') :=
        refreshToken_finish tm (fst (tokenEndpoint env k)) (sys_clock s) in
      Some (mkSys (sys_clock s) tm' false
                  (<[i := PDone res]> (sys_threads s)) (sys_exchanges s))
  | Some (PDone _) => None
  | None => None
  end.

Definition step (a : action) (s : Sys) : option Sys :=
  match a with
  | Run i => step_thread i s
  | Tick d =>
      if d <? 0 then None
      else
        Some (mkSys (time_Add (sys_clock s) d) (sys_tm s) (sys_locked s)
                    (sys_threads s) (sys_exchanges s))
  end.

Fixpoint run (acts : list action) (s : Sys) : option Sys :=
  match acts with
  | [] => Some s
  | a :: acts' =>
      match step a s with
      | Some s' => run acts' s'
      | None => None
      end
  end.

End Concurrent.

(** [n] callers about to enter [getToken] at instant [now]. *)
Definition initSys (n : nat) (tm : tokenManager) (now : Time) : Sys :=
  mkSys now tm false (replicate n PStart) 0.

Definition isDone (p : pc) : bool :=
  match p with PDone _ => true | _ => false end.

(** [Stats] called once per instant of [ts]; the limiter afterwards. *)
Definition statsMany (r : RateLimiter) (ts : list Time) : RateLimiter :=
  fold_left (fun r t => snd (Stats r t)) ts r.

(** A thread that holds [tm.mu] as a writer. *)
Definition holder (p : pc) : bool :=
  match p with
  | PLocked | PExchanging _ => true
  | _ => false
  end.

(** [tm.mu] is exclusive: with the lock free no thread holds it, and no two
    threads hold it. *)
Definition lockDiscipline (s : Sys) : Prop :=
  (sys_locked s = false ->
   forall i p, sys_threads s !! i = Some p -> holder p = false)
  /\ (forall i j p q,
        sys_threads s !! i = Some p -> sys_threads s !! j = Some q ->
        holder p = true -> holder q = true -> i = j).

(** Where a thread can be before any exchange, while the one exchange is in
    flight, and once its token is stored; [tm0] is the credential the
    callers found and [tm] the one stored. *)
Definition pcBefore (tm0 : tokenManager) (p : pc) : Prop :=
  p = PStart \/ p = PSnapshot (accessToken tm0) (tokenExpiry tm0)
  \/ p = PWaitLock \/ p = PLocked.

Definition pcDuring (tm0 : tokenManager) (p : pc) : Prop :=
  p = PStart \/ p = PSnapshot (accessToken tm0) (tokenExpiry tm0)
  \/ p = PWaitLock \/ p = PExchanging 0.

Definition pcAfter (tm0 tm : tokenManager) (p : pc) : Prop :=
  p = PStart \/ p = PSnapshot (accessToken tm0) (tokenExpiry tm0)
  \/ p = PSnapshot (accessToken tm) (tokenExpiry tm)
  \/ p = PWaitLock \/ p = PLocked \/ p = PDone (inl (accessToken tm)).

(** The invariant of a run in which the first exchange yields [tokenResp]:
    callers that started at [t0] on the stale credential [tm0]. *)
Definition singleFlight (tm0 : tokenManager) (t0 : Time)
  (tokenResp : tokenResponse) (s : Sys) : Prop :=
  t0 <= sys_clock s
  /\ tokenURL (sys_tm s) = tokenURL tm0
  /\ lockDiscipline s
  /\ ((sys_exchanges s = 0%nat /\ sys_tm s = tm0
       /\ Forall (pcBefore tm0) (sys_threads s))
      \/ (sys_exchanges s = 1%nat /\ sys_tm s = tm0
          /\ (exists j, sys_threads s !! j = Some (PExchanging 0))
          /\ Forall (pcDuring tm0) (sys_threads s))
      \/ (sys_exchanges s = 1%nat
          /\ accessToken (sys_tm s) = AccessToken tokenResp
          /\ (exists ts, t0 <= ts
                /\ tokenExpiry (sys_tm s)
                   = time_Add ts (Seconds (ExpiresIn tokenResp)))
          /\ Forall (pcAfter tm0 (sys_tm s)) (sys_threads s))).

(** The instant until which a token of [tokenResp] stored at [t0] or later
    stays fresh. *)
Definition freshUntil (t0 : Time) (tokenResp : tokenResponse) : Time :=
  t0 + Seconds (ExpiresIn tokenResp) - tokenExpiryBuffer.

(** The claim that concurrent callers that find no fresh credential cause
    exactly one token exchange, as the specification words it: whatever the
    token endpoint answers. *)
Definition exactlyOneExchange : Prop :=
  forall (E : Externals) (env : Env) (n : nat) (tm : tokenManager)
         (now : Time) (acts : list action) (s : Sys),
    (0 < n)%nat ->
    tokenFresh (accessToken tm) (tokenExpiry tm) now = false ->
    run env acts (initSys n tm now) = Some s ->
    Forall (fun p => isDone p = true) (sys_threads s) ->
    sys_exchanges s = 1%nat.

(** ** A concrete runtime, used to run the model on examples *)

Fixpoint parseDigits (s : string) (acc : Z) : option Z :=
  match s with
  | EmptyString => Some acc
  | String a s' =>
      let d := Z.of_N (Ascii.N_of_ascii a) - 48 in
      if (0 <=? d) && (d <=? 9) then parseDigits s' (10 * acc + d) else None
  end.

(** A body is taken to decode when it opens a JSON object. *)
Definition decodesAsObject (body : string) : option string :=
  match body with
  | String "{"%char _ => Some body
  | _ => None
  end.

Definition exampleExternals : Externals :=
  {| time_Format_RFC3339 := fun t => pretty t;
     http_StatusText := fun code => pretty code;
     http_NewRequest_ok := fun method url => negb (String.eqb method "");
     json_Unmarshal_errResp := fun body => None;
     json_Unmarshal_AuthError := fun body =>
       if String.eqb body "{invalid_client}"
       then Some (mkAuthError "invalid_client" "Invalid credentials")
       else None;
     json_Unmarshal_tokenResponse := fun body =>
       match body with
       | String "{"%char token => Some (mkTokenResponse token "Bearer" 3600)
       | _ => None
       end;
     parseRetryAfter := fun header =>
       match header with
       | EmptyString => 0
       | _ => default 0 (parseDigits header 0)
       end;
     calculateBackoff := fun cfg _ attempt =>
       Z.min (MaxBackoff cfg) (InitialBackoff cfg * 2 ^ attempt);
     cacheKeyForSearch := fun l r =>
       "search:" +:+ Site l +:+ ":" +:+ Language l +:+ ":" +:+ Currency l
       +:+ ":" +:+ Keywords r +:+ ":" +:+ pretty (Limit_ r)
       +:+ ":" +:+ pretty (Offset r);
     cacheKeyForDetails := fun l n =>
       "details:" +:+ Site l +:+ ":" +:+ Language l +:+ ":" +:+ Currency l
       +:+ ":" +:+ n;
     url_PathEscape := fun s => s;
     SearchResponse := string;
     SearchResponse_zero := "";
     json_Marshal_SearchRequest := fun r => Some ("{" +:+ Keywords r +:+ "}");
     json_Marshal_SearchResponse := fun r => Some r;
     json_Unmarshal_SearchResponse := decodesAsObject;
     ProductDetailsResponse := string;
     ProductDetailsResponse_zero := "";
     json_Marshal_ProductDetailsResponse := fun r => Some r;
     json_Unmarshal_ProductDetailsResponse := decodesAsObject |}.

Definition exampleClient : Client :=
  {| baseURL := "https://api.digikey.com";
     clientID := "test-id";
     retryConfig :=
       {| MaxRetries := 3; InitialBackoff := 500000000;
          MaxBackoff := 30 * Second |};
     cacheConfig :=
       {| Enabled := true; SearchTTL := 5 * Minute; DetailsTTL := 5 * Minute |};
     locale := {| Site := "US"; Language := "en"; Currency := "USD" |} |}.

(** A client just built at instant [now]: fresh limiter, no credential,
    empty cache. *)
Definition freshWorld (now : Time) : World :=
  {| clock := now;
     rateLimiter := NewRateLimiter now;
     tokenMgr := newTokenManager "test-id" "test-secret" "";
     cache := Some ∅;
     allowCalls := 0; exchanges := 0; sends := 0; draws := 0 |}.

Definition tokenGranted : httpReply * Duration :=
  (DoResponse
     {| resp_StatusCode := 200; resp_Body := "{test-token";
        resp_RetryAfter := ""; resp_RequestId := ""; resp_ReadFails := false |},
   10000000).

Definition tokenDenied : httpReply * Duration :=
  (DoResponse
     {| resp_StatusCode := 401; resp_Body := "{invalid_client}";
        resp_RetryAfter := ""; resp_RequestId := ""; resp_ReadFails := false |},
   10000000).

(** A server that answers every data request alike, 20 ms later. *)
Definition serverAnswering (statusCode : Z) (body retryAfter : string) : Env :=
  {| ctx_done := None;
     tokenEndpoint := fun _ => tokenGranted;
     apiEndpoint := fun _ _ =>
       (DoResponse
          {| resp_StatusCode := statusCode; resp_Body := body;
             resp_RetryAfter := retryAfter; resp_RequestId := "req-1";
             resp_ReadFails := false |},
        20000000) |}.

Definition exampleRequest : Request :=
  {| rq_method := "GET";
     rq_path := "/products/v4/search/497-15360-ND/productdetails";
     rq_body := None |}.

(** A server that answers the first data request with a 401 and the later
    ones with a 200 and a decodable body. *)
Definition serverRejectingOnce : Env :=
  {| ctx_done := None;
     tokenEndpoint := fun _ => tokenGranted;
     apiEndpoint := fun k _ =>
       (DoResponse
          {| resp_StatusCode := if (k =? 0)%nat then 401 else 200;
             resp_Body := "{part}";
             resp_RetryAfter := ""; resp_RequestId := "req-1";
             resp_ReadFails := false |},
        20000000) |}.

(** A server that always answers 503, and a caller whose context ends
    2 s after the start of the call. *)
Definition unavailableWithDeadline : Env :=
  {| ctx_done := Some (2 * Second, DeadlineExceeded);
     tokenEndpoint := fun _ => tokenGranted;
     apiEndpoint := fun _ _ =>
       (DoResponse
          {| resp_StatusCode := 503; resp_Body := "";
             resp_RetryAfter := ""; resp_RequestId := "req-1";
             resp_ReadFails := false |},
        20000000) |}.

(** An environment whose token endpoint refuses every exchange. *)
Definition credentialsRefused : Env :=
  {| ctx_done := None;
     tokenEndpoint := fun _ => tokenDenied;
     apiEndpoint := fun _ _ => (DoError EIO, 0) |}.

(** Two callers of [getToken], interleaved: both read the credential, the
    first takes the lock and exchanges while the second waits for it, then
    the second takes its turn. *)
Definition twoCallers : list action :=
  [Run 0%nat; Run 1%nat; Run 0%nat; Run 1%nat; Run 0%nat; Run 0%nat;
   Tick 10000000; Run 0%nat; Run 1%nat; Run 1%nat; Tick 10000000; Run 1%nat].

(** The same two callers when the exchange is granted: the second finds
    the stored token at its re-check and returns one step earlier. *)
Definition twoCallersServed : list action :=
  [Run 0%nat; Run 1%nat; Run 0%nat; Run 1%nat; Run 0%nat; Run 0%nat;
   Tick 10000000; Run 0%nat; Run 1%nat; Run 1%nat].

(** A world whose cache holds, until instant 100, a decodable entry for the
    search "STM32F4" and one for the product "497-15360-ND". *)
Definition cachedWorld : World :=
  {| clock := 50;
     rateLimiter := NewRateLimiter 0;
     tokenMgr := newTokenManager "test-id" "test-secret" "";
     cache :=
       Some (cache_Set
               (cache_Set ∅ "search:US:en:USD:STM32F4:10:0" "{found}" 100 0)
               "details:US:en:USD:497-15360-ND" "{part}" 100 0);
     allowCalls := 0; exchanges := 0; sends := 0; draws := 0 |}.

(** ** More of the same files

    The functions of the files above that the properties of the
    specification do not reach, and what is needed to state how they
    behave. *)

(** [t.Sub(u)]: the difference of two instants as a [Duration], saturated
    at the ends of int64. *)
Definition time_Sub (t u : Time) : Duration :=
  Z.max int_min (Z.min int_max (t - u)).

(** [RateLimiter.WaitTime]; [now] is the value of its [time.Now()]. *)
Definition WaitTime (r : RateLimiter) (now : Time) : Duration :=
  let minuteCount' :=
    if time_After now (minuteResetTime r) then 0 else minuteCount r in
  let dayCount' :=
    if time_After now (dayResetTime r) then 0 else dayCount r in
  if (minuteCount' <? minuteLimit r) && (dayCount' <? dayLimit r) then 0
  else
    let wait :=
      if (minuteLimit r <=? minuteCount')
         && time_Before now (minuteResetTime r)
      then time_Sub (minuteResetTime r) now
      else 0 in
    if (dayLimit r <=? dayCount') && time_Before now (dayResetTime r) then
      let dayWait := time_Sub (dayResetTime r) now in
      if wait <? dayWait then dayWait else wait
    else wait.

(** A call of one of the methods of a [RateLimiter], with the instant its
    [time.Now()] reads. The limiter's mutex makes each call atomic, so
    whatever the callers, a limiter sees a sequence of such calls. *)
Inductive limiterCall :=
  | CallAllow (now : Time)
  | CallStats (now : Time)
  | CallWaitTime (now : Time)
  | CallUpdateFromResponse (retryAfterSeconds : Z) (now : Time).

Definition limiterStep `{!Externals} (r : RateLimiter) (call : limiterCall)
  : RateLimiter :=
  match call with
  | CallAllow now => snd (Allow r now)
  | CallStats now => snd (Stats r now)
  | CallWaitTime now => r
  | CallUpdateFromResponse n now => UpdateFromResponse r n now
  end.

Definition limiterRun `{!Externals} (r : RateLimiter)
  (calls : list limiterCall) : RateLimiter :=
  fold_left limiterStep calls r.

(** The counters of a limiter lie between zero and their limits. *)
Definition withinLimits (r : RateLimiter) : Prop :=
  0 <= minuteCount r <= minuteLimit r /\ 0 <= dayCount r <= dayLimit r
  /\ minuteLimit r <= int_max /\ dayLimit r <= int_max.

(** The count [Stats] and [WaitTime] work with: zero once the window has
    passed. *)
Definition effectiveCount (count : Z) (resetTime now : Time) : Z :=
  if time_After now resetTime then 0 else count.

(** ** Matching errors against the sentinels (errors.go) *)

#[global] Instance sentinel_eq_dec : EqDecision sentinel.
Proof. solve_decision. Defined.

(** [AuthError.Unwrap] and [RateLimitError.Unwrap] *)
Definition AuthError_Unwrap (e : AuthError) : sentinel := ErrUnauthorized.
Definition RateLimitError_Unwrap (e : RateLimitError) : sentinel :=
  ErrRateLimitExceeded.

(** [errors.Is(err, target)] for a sentinel [target]: [err] is the target,
    or what its [Unwrap] method returns is, and so on down the chain. The
    errors of the standard library that the pipeline passes on (transport,
    context, JSON and I/O errors) neither are nor wrap a sentinel of this
    package. *)
Fixpoint errors_Is (err : error) (target : sentinel) : bool :=
  match err with
  | ESentinel s => bool_decide (s = target)
  | EAPI e =>
      match APIError_Unwrap e with
      | Some s => bool_decide (s = target)
      | None => false
      end
  | EAuth e => bool_decide (AuthError_Unwrap e = target)
  | ERateLimit e => bool_decide (RateLimitError_Unwrap e = target)
  | EWrap _ cause => errors_Is cause target
  | ENet _ | ECtx _ | EJSON | EIO | ENewRequest => false
  end.

(** ** The loop's events, counted *)

Definition isAttempt (ev : LoopEvent) : bool :=
  match ev with
  | Attempt _ _ _ _ => true
  | _ => false
  end.

Definition countAttempts (evs : list LoopEvent) : nat :=
  length (List.filter isAttempt evs).

(** ** The other product operations *)

Section MoreProducts.
Context `{!Externals}.
Variable c : Client.
Variable env : Env.

(** [Client.ProductDetailsNoCache] *)
Definition ProductDetailsNoCache (productNumber : string) (w : World)
  : (ProductDetailsResponse + error) * World * list LoopEvent :=
  if String.eqb productNumber "" then
    (inr (EWrap "product number is required" (ESentinel ErrInvalidRequest)),
     w, [])
  else
    let path :=
      searchBasePath +:+ "/" +:+ url_PathEscape productNumber
      +:+ "/productdetails" in
    let '(err, v, w, evs) :=
      do c env
        {| rq_method := "GET"; rq_path := path; rq_body := None |}
        (Some json_Unmarshal_ProductDetailsResponse) w in
    match err with
    | Some e => (inr e, w, evs)
    | None =>
        let resp := default ProductDetailsResponse_zero v in
        let cacheKey := cacheKeyForDetails (locale c) productNumber in
        (inl resp,
         cacheStore c (json_Marshal_ProductDetailsResponse resp) cacheKey
           (DetailsTTL (cacheConfig c)) w,
         evs)
    end.

End MoreProducts.

(** ** The search builder *)

(** [SearchOptions]: the request under construction. *)
Record SearchOptions := mkSearchOptions {
  request : SearchRequest
}.

(** [NewSearch] *)
Definition NewSearch (keywords : string) : SearchOptions :=
  {| request := {| Keywords := keywords; Limit_ := 10; Offset := 0 |} |}.

(** [SearchOptions.Limit]. Each builder method updates the builder in place
    and returns it: here, the builder after the call. *)
Definition SearchOptions_Limit (s : SearchOptions) (count : Z)
  : SearchOptions :=
  let count := if count <? 1 then 1 else count in
  let count := if 50 <? count then 50 else count in
  {| request :=
       {| Keywords := Keywords (request s); Limit_ := count;
          Offset := Offset (request s) |} |}.

(** [SearchOptions.Offset] *)
Definition SearchOptions_Offset (s : SearchOptions) (position : Z)
  : SearchOptions :=
  let position := if position <? 0 then 0 else position in
  {| request :=
       {| Keywords := Keywords (request s); Limit_ := Limit_ (request s);
          Offset := position |} |}.

(** [SearchOptions.Build] *)
Definition Build (s : SearchOptions) : SearchRequest := request s.

(** [SearchOptions.Execute] *)
Definition Execute `{!Externals} (s : SearchOptions) (c : Client) (env : Env)
  (w : World) : (SearchResponse + error) * World * list LoopEvent :=
  KeywordSearch c env (Some (request s)) w.

(** A chain of builder calls, [NewSearch(k).Limit(..).Offset(..)...]. *)
Inductive builderCall :=
  | CallLimit (count : Z)
  | CallOffset (position : Z).

Definition builderStep (s : SearchOptions) (call : builderCall)
  : SearchOptions :=
  match call with
  | CallLimit count => SearchOptions_Limit s count
  | CallOffset position => SearchOptions_Offset s position
  end.

Definition builderChain (keywords : string) (calls : list builderCall)
  : SearchOptions :=
  fold_left builderStep calls (NewSearch keywords).

(** ** What a stretch of the pipeline may change

    From world [w] to world [w'] with [k] attempts in between: the limiter
    was asked [k] times, at most [k] requests were sent and at most [k]
    token exchanges made; the cache, the limits of the limiter and the token
    URL are what they were; counters that were within their limits still
    are. *)
Definition advances (k : nat) (w w' : World) : Prop :=
  allowCalls w' = (allowCalls w + k)%nat
  /\ (sends w <= sends w' <= sends w + k)%nat
  /\ (exchanges w <= exchanges w' <= exchanges w + k)%nat
  /\ cache w' = cache w
  /\ minuteLimit (rateLimiter w') = minuteLimit (rateLimiter w)
  /\ dayLimit (rateLimiter w') = dayLimit (rateLimiter w)
  /\ tokenURL (tokenMgr w') = tokenURL (tokenMgr w)
  /\ (withinLimits (rateLimiter w) -> withinLimits (rateLimiter w')).

(** Two worlds that differ at most in the cache. *)
Definition sameButCache (w1 w2 : World) : Prop :=
  clock w1 = clock w2 /\ rateLimiter w1 = rateLimiter w2
  /\ tokenMgr w1 = tokenMgr w2 /\ allowCalls w1 = allowCalls w2
  /\ exchanges w1 = exchanges w2 /\ sends w1 = sends w2
  /\ draws w1 = draws w2.

(** A caller that has been through the critical section of [refreshToken]
    or has returned. *)
Definition pastLock (p : pc) : bool :=
  match p with
  | PExchanging _ | PDone _ => true
  | _ => false
  end.

(** ** Building a client (client.go) *)

Definition defaultBaseURL : string := "https://api.digikey.com".
Definition defaultTimeout : Duration := 30 * Second.

(** [DefaultLocale] *)
Definition DefaultLocale : Locale :=
  {| Site := "US"; Language := "en"; Currency := "USD" |}.

(** An [*http.Client] and a [Cache], which [NewClient] and the options
    handle by reference: the ones [NewClient] makes, or one the caller
    passes, told apart by a name. The fields that hold them are [None] when
    nil. *)
Inductive httpClient :=
  | MadeHTTPClient (timeout : Duration)      (* &http.Client{Timeout: timeout} *)
  | GivenHTTPClient (name : nat).

Inductive cacheRef :=
  | MadeMemoryCache (defaultTTL : Duration)  (* NewMemoryCache(defaultTTL) *)
  | GivenCache (name : nat).

(** The [Client] struct, all fields but the mutex. The token manager is
    held with the HTTP client [newTokenManager] was given. *)
Record ClientStruct := mkClientStruct {
  cs_httpClient : option httpClient;
  cs_baseURL : string;
  cs_clientID : string;
  cs_tokenManager : option (option httpClient * tokenManager);
  cs_rateLimiter : option RateLimiter;
  cs_retryConfig : RetryConfig;
  cs_cache : option cacheRef;
  cs_cacheConfig : CacheConfig;
  cs_locale : Locale
}.

(** A [ClientOption], by the function that made it. *)
Inductive ClientOption :=
  | WithHTTPClient (h : option httpClient)
  | WithBaseURL (baseURL : string)
  | WithLocale (locale : Locale)
  | WithRateLimiter (rateLimiter : option RateLimiter)
  | WithTokenURL (tokenURL : string)
  | WithRetryConfig (config : RetryConfig)
  | WithCache (cache : option cacheRef)
  | WithCacheConfig (config : CacheConfig)
  | WithoutCache
  | WithoutRetry.

Section NewClient.
(** What [DefaultCacheConfig()], [DefaultRetryConfig()] and [NoRetry()]
    return; the functions belong to the response cache and the retry
    policy. *)
Variable DefaultCacheConfig : CacheConfig.
Variable DefaultRetryConfig : RetryConfig.
Variable NoRetry : RetryConfig.

(** Applying an option to the client: [opt(c)]. *)
Definition applyOption (c : ClientStruct) (opt : ClientOption) : ClientStruct :=
  match opt with
  | WithHTTPClient h =>
      mkClientStruct h (cs_baseURL c) (cs_clientID c) (cs_tokenManager c)
        (cs_rateLimiter c) (cs_retryConfig c) (cs_cache c) (cs_cacheConfig c)
        (cs_locale c)
  | WithBaseURL baseURL =>
      mkClientStruct (cs_httpClient c) baseURL (cs_clientID c)
        (cs_tokenManager c) (cs_rateLimiter c) (cs_retryConfig c) (cs_cache c)
        (cs_cacheConfig c) (cs_locale c)
  | WithLocale locale =>
      mkClientStruct (cs_httpClient c) (cs_baseURL c) (cs_clientID c)
        (cs_tokenManager c) (cs_rateLimiter c) (cs_retryConfig c) (cs_cache c)
        (cs_cacheConfig c) locale
  | WithRateLimiter rateLimiter =>
      mkClientStruct (cs_httpClient c) (cs_baseURL c) (cs_clientID c)
        (cs_tokenManager c) rateLimiter (cs_retryConfig c) (cs_cache c)
        (cs_cacheConfig c) (cs_locale c)
  | WithTokenURL tokenURL =>
      match cs_tokenManager c with
      | Some (h, tm) =>
          mkClientStruct (cs_httpClient c) (cs_baseURL c) (cs_clientID c)
            (Some (h, mkTokenManager (tm_clientID tm) (tm_clientSecret tm)
                        tokenURL (accessToken tm) (tokenExpiry tm)))
            (cs_rateLimiter c) (cs_retryConfig c) (cs_cache c)
            (cs_cacheConfig c) (cs_locale c)
      | None => c
      end
  | WithRetryConfig config =>
      mkClientStruct (cs_httpClient c) (cs_baseURL c) (cs_clientID c)
        (cs_tokenManager c) (cs_rateLimiter c) config (cs_cache c)
        (cs_cacheConfig c) (cs_locale c)
  | WithCache cache =>
      mkClientStruct (cs_httpClient c) (cs_baseURL c) (cs_clientID c)
        (cs_tokenManager c) (cs_rateLimiter c) (cs_retryConfig c) cache
        (cs_cacheConfig c) (cs_locale c)
  | WithCacheConfig config =>
      mkClientStruct (cs_httpClient c) (cs_baseURL c) (cs_clientID c)
        (cs_tokenManager c) (cs_rateLimiter c) (cs_retryConfig c) (cs_cache c)
        config (cs_locale c)
  | WithoutCache =>
      mkClientStruct (cs_httpClient c) (cs_baseURL c) (cs_clientID c)
        (cs_tokenManager c) (cs_rateLimiter c) (cs_retryConfig c) (cs_cache c)
        (mkCacheConfig false (SearchTTL (cs_cacheConfig c))
           (DetailsTTL (cs_cacheConfig c)))
        (cs_locale c)
  | WithoutRetry =>
      mkClientStruct (cs_httpClient c) (cs_baseURL c) (cs_clientID c)
        (cs_tokenManager c) (cs_rateLimiter c) NoRetry (cs_cache c)
        (cs_cacheConfig c) (cs_locale c)
  end.

(** [for _, opt := range opts { opt(c) }] *)
Definition applyOptions (c : ClientStruct) (opts : list ClientOption)
  : ClientStruct :=
  fold_left applyOption opts c.

(** The struct [NewClient] starts from; [now] is the [time.Now()] of its
    [NewRateLimiter()]. *)
Definition clientDefaults (clientID : string) (now : Time) : ClientStruct :=
  {| cs_httpClient := Some (MadeHTTPClient defaultTimeout);
     cs_baseURL := defaultBaseURL;
     cs_clientID := clientID;
     cs_tokenManager := None;
     cs_rateLimiter := Some (NewRateLimiter now);
     cs_retryConfig := DefaultRetryConfig;
     cs_cache := None;
     cs_cacheConfig := DefaultCacheConfig;
     cs_locale := DefaultLocale |}.

(** [NewClient] *)
Definition NewClient (clientID clientSecret : string)
  (opts : list ClientOption) (now : Time) : ClientStruct :=
  let c := applyOptions (clientDefaults clientID now) opts in
  let c :=
    mkClientStruct (cs_httpClient c) (cs_baseURL c) (cs_clientID c)
      (Some (cs_httpClient c, newTokenManager clientID clientSecret ""))
      (cs_rateLimiter c) (cs_retryConfig c) (cs_cache c) (cs_cacheConfig c)
      (cs_locale c) in
  let c :=
    match cs_cache c with
    | None =>
        if Enabled (cs_cacheConfig c) then
          mkClientStruct (cs_httpClient c) (cs_baseURL c) (cs_clientID c)
            (cs_tokenManager c) (cs_rateLimiter c) (cs_retryConfig c)
            (Some (MadeMemoryCache (DetailsTTL (cs_cacheConfig c))))
            (cs_cacheConfig c) (cs_locale c)
        else c
    | Some _ => c
    end in
  applyOptions c opts.

End NewClient.

(** The argument of the last option of a kind in [opts], or [d] when there
    is none; [pick] tells the kind. *)
Definition lastOption {A : Type} (pick : ClientOption -> option A)
  (opts : list ClientOption) (d : A) : A :=
  fold_left (fun acc opt => default acc (pick opt)) opts d.

Definition pickHTTPClient (opt : ClientOption) : option (option httpClient) :=
  match opt with WithHTTPClient h => Some h | _ => None end.
Definition pickBaseURL (opt : ClientOption) : option string :=
  match opt with WithBaseURL u => Some u | _ => None end.
Definition pickLocale (opt : ClientOption) : option Locale :=
  match opt with WithLocale l => Some l | _ => None end.
Definition pickRateLimiter (opt : ClientOption) : option (option RateLimiter) :=
  match opt with WithRateLimiter r => Some r | _ => None end.
Definition pickTokenURL (opt : ClientOption) : option string :=
  match opt with WithTokenURL u => Some u | _ => None end.
Definition pickCache (opt : ClientOption) : option (option cacheRef) :=
  match opt with WithCache x => Some x | _ => None end.

(** [WithRetryConfig] and [WithoutRetry] both set the retry configuration. *)
Definition pickRetryConfig (NoRetry : RetryConfig) (opt : ClientOption)
  : option RetryConfig :=
  match opt with
  | WithRetryConfig config => Some config
  | WithoutRetry => Some NoRetry
  | _ => None
  end.

(** What an option does to the cache configuration: [WithCacheConfig]
    replaces it, [WithoutCache] clears its [Enabled]. *)
Definition cacheConfigStep (config : CacheConfig) (opt : ClientOption)
  : CacheConfig :=
  match opt with
  | WithCacheConfig config' => config'
  | WithoutCache =>
      mkCacheConfig false (SearchTTL config) (DetailsTTL config)
  | _ => config
  end.

Definition cacheConfigAfter (opts : list ClientOption) (config : CacheConfig)
  : CacheConfig :=
  fold_left cacheConfigStep opts config.

(** ** More of the concrete runtime *)

(** A server whose responses cannot be read to the end. *)
Definition serverUnreadable (statusCode : Z) : Env :=
  {| ctx_done := None;
     tokenEndpoint := fun _ => tokenGranted;
     apiEndpoint := fun _ _ =>
       (DoResponse
          {| resp_StatusCode := statusCode; resp_Body := "";
             resp_RetryAfter := "30"; resp_RequestId := "req-1";
             resp_ReadFails := true |},
        20000000) |}.

(** A request whose body [json.Marshal] rejects. *)
Definition unencodableRequest : Request :=
  {| rq_method := "POST"; rq_path := "/products/v4/search/keyword";
     rq_body := Some None |}.

(** The example client with a negative retry budget. *)
Definition clientWithoutAttempts : Client :=
  {| baseURL := baseURL exampleClient;
     clientID := clientID exampleClient;
     retryConfig :=
       {| MaxRetries := -1; InitialBackoff := 500000000;
          MaxBackoff := 30 * Second |};
     cacheConfig := cacheConfig exampleClient;
     locale := locale exampleClient |}.

(** A world whose limiter grants nothing. *)
Definition blockedWorld : World :=
  set_rateLimiter (freshWorld 0) (NewRateLimiterWithLimits 0 1000 0).

(** ** The locale of a client, changed while a search is in flight *)

(** [Client.SetLocale] *)
Definition SetLocale (c : Client) (locale : Locale) : Client :=
  {| baseURL := baseURL c;
     clientID := clientID c;
     retryConfig := retryConfig c;
     cacheConfig := cacheConfig c;
     locale := locale |}.

(** [Client.KeywordSearch] with the two [getLocale()] calls that make its
    cache key told apart: the one before the look-up returns [locale c],
    which is also the locale of the headers, and the one before the store
    returns [storeLocale]. The two differ when another goroutine calls
    [SetLocale] between them. *)
Definition KeywordSearch_racing `{!Externals} (c : Client) (env : Env)
  (storeLocale : Locale) (req : option SearchRequest) (w : World)
  : (SearchResponse + error) * World * list LoopEvent :=
  match req with
  | None => (inr (ESentinel ErrInvalidRequest), w, [])
  | Some req =>
      if String.eqb (Keywords req) "" then
        (inr (EWrap "keywords are required" (ESentinel ErrInvalidRequest)),
         w, [])
      else
        let searchReq := clampLimit req in
        let '(hit, w) :=
          cacheLookup c json_Unmarshal_SearchResponse
            (cacheKeyForSearch (locale c) searchReq) w in
        match hit with
        | Some resp => (inl resp, w, [])
        | None =>
            let '(err, v, w, evs) :=
              do c env
                {| rq_method := "POST";
                   rq_path := searchBasePath +:+ "/keyword";
                   rq_body := Some (json_Marshal_SearchRequest searchReq) |}
                (Some json_Unmarshal_SearchResponse) w in
            match err with
            | Some e => (inr e, w, evs)
            | None =>
                let resp := default SearchResponse_zero v in
                (inl resp,
                 cacheStore c (json_Marshal_SearchResponse resp)
                   (cacheKeyForSearch storeLocale searchReq)
                   (SearchTTL (cacheConfig c)) w,
                 evs)
            end
        end
  end.

(** ** The filter methods of the search builder

    The builder in its version with filters: the fields of its request that
    these methods write. A nil pointer is [None], a nil slice the empty
    list. *)

Record ParametricFilter := mkParametricFilter {
  ParameterID : Z;
  ValueIDs : list string
}.

Record Filters := mkFilters {
  CategoryIDs : list Z;
  ManufacturerIDs : list Z;
  StatusIDs : list Z;
  PackageTypeIDs : list Z;
  ParametricFilters : list ParametricFilter
}.

Record SortOptions := mkSortOptions {
  Field : string;
  Direction : string
}.

Record FilteredRequest := mkFilteredRequest {
  fr_Filters : option Filters;
  fr_Sort : option SortOptions;
  fr_RequestedQuantity : Z;
  fr_SearchOptions : list string
}.

(** What [NewSearch] leaves these fields at. *)
Definition unfiltered : FilteredRequest :=
  {| fr_Filters := None; fr_Sort := None; fr_RequestedQuantity := 0;
     fr_SearchOptions := [] |}.

(** [if s.request.Filters == nil { s.request.Filters = &Filters{} }] *)
Definition filtersOrEmpty (r : FilteredRequest) : Filters :=
  default (mkFilters [] [] [] [] []) (fr_Filters r).

Definition set_Filters (r : FilteredRequest) (f : Filters) : FilteredRequest :=
  mkFilteredRequest (Some f) (fr_Sort r) (fr_RequestedQuantity r)
    (fr_SearchOptions r).

(** [SearchOptions.WithQuantity] *)
Definition WithQuantity (r : FilteredRequest) (qty : Z) : FilteredRequest :=
  mkFilteredRequest (fr_Filters r) (fr_Sort r) qty (fr_SearchOptions r).

(** [SearchOptions.FilterByCategory] *)
Definition FilterByCategory (r : FilteredRequest) (categoryIDs : list Z)
  : FilteredRequest :=
  let f := filtersOrEmpty r in
  set_Filters r
    (mkFilters (CategoryIDs f ++ categoryIDs) (ManufacturerIDs f)
       (StatusIDs f) (PackageTypeIDs f) (ParametricFilters f)).

(** [SearchOptions.FilterByManufacturer] *)
Definition FilterByManufacturer (r : FilteredRequest)
  (manufacturerIDs : list Z) : FilteredRequest :=
  let f := filtersOrEmpty r in
  set_Filters r
    (mkFilters (CategoryIDs f) (ManufacturerIDs f ++ manufacturerIDs)
       (StatusIDs f) (PackageTypeIDs f) (ParametricFilters f)).

(** [SearchOptions.FilterByStatus] *)
Definition FilterByStatus (r : FilteredRequest) (statusIDs : list Z)
  : FilteredRequest :=
  let f := filtersOrEmpty r in
  set_Filters r
    (mkFilters (CategoryIDs f) (ManufacturerIDs f)
       (StatusIDs f ++ statusIDs) (PackageTypeIDs f) (ParametricFilters f)).

(** [SearchOptions.FilterByPackageType] *)
Definition FilterByPackageType (r : FilteredRequest)
  (packageTypeIDs : list Z) : FilteredRequest :=
  let f := filtersOrEmpty r in
  set_Filters r
    (mkFilters (CategoryIDs f) (ManufacturerIDs f) (StatusIDs f)
       (PackageTypeIDs f ++ packageTypeIDs) (ParametricFilters f)).

(** [SearchOptions.AddParametricFilter] *)
Definition AddParametricFilter (r : FilteredRequest) (parameterID : Z)
  (valueIDs : list string) : FilteredRequest :=
  let f := filtersOrEmpty r in
  set_Filters r
    (mkFilters (CategoryIDs f) (ManufacturerIDs f) (StatusIDs f)
       (PackageTypeIDs f)
       (ParametricFilters f ++ [mkParametricFilter parameterID valueIDs])).

(** [SearchOptions.SortBy] *)
Definition SortBy (r : FilteredRequest) (field direction : string)
  : FilteredRequest :=
  mkFilteredRequest (fr_Filters r) (Some (mkSortOptions field direction))
    (fr_RequestedQuantity r) (fr_SearchOptions r).

(** [SearchOptions.WithSearchOptions] *)
Definition WithSearchOptions (r : FilteredRequest) (options : list string)
  : FilteredRequest :=
  mkFilteredRequest (fr_Filters r) (fr_Sort r) (fr_RequestedQuantity r)
    (fr_SearchOptions r ++ options).

(** A chain of these calls on a new builder. *)
Inductive filterCall :=
  | CallWithQuantity (qty : Z)
  | CallFilterByCategory (categoryIDs : list Z)
  | CallFilterByManufacturer (manufacturerIDs : list Z)
  | CallFilterByStatus (statusIDs : list Z)
  | CallFilterByPackageType (packageTypeIDs : list Z)
  | CallAddParametricFilter (parameterID : Z) (valueIDs : list string)
  | CallSortBy (field direction : string)
  | CallWithSearchOptions (options : list string).

Definition filterStep (r : FilteredRequest) (call : filterCall)
  : FilteredRequest :=
  match call with
  | CallWithQuantity qty => WithQuantity r qty
  | CallFilterByCategory ids => FilterByCategory r ids
  | CallFilterByManufacturer ids => FilterByManufacturer r ids
  | CallFilterByStatus ids => FilterByStatus r ids
  | CallFilterByPackageType ids => FilterByPackageType r ids
  | CallAddParametricFilter parameterID valueIDs =>
      AddParametricFilter r parameterID valueIDs
  | CallSortBy field direction => SortBy r field direction
  | CallWithSearchOptions options => WithSearchOptions r options
  end.

Definition filterChain (calls : list filterCall) : FilteredRequest :=
  fold_left filterStep calls unfiltered.

(** The arguments the calls of one kind were given, in the order of the
    calls. *)
Definition categoryArgs (call : filterCall) : list Z :=
  match call with CallFilterByCategory ids => ids | _ => [] end.
Definition manufacturerArgs (call : filterCall) : list Z :=
  match call with CallFilterByManufacturer ids => ids | _ => [] end.
Definition statusArgs (call : filterCall) : list Z :=
  match call with CallFilterByStatus ids => ids | _ => [] end.
Definition packageTypeArgs (call : filterCall) : list Z :=
  match call with CallFilterByPackageType ids => ids | _ => [] end.
Definition parametricArgs (call : filterCall) : list ParametricFilter :=
  match call with
  | CallAddParametricFilter parameterID valueIDs =>
      [mkParametricFilter parameterID valueIDs]
  | _ => []
  end.
Definition searchOptionArgs (call : filterCall) : list string :=
  match call with CallWithSearchOptions options => options | _ => [] end.

(** A call that makes [Filters] non-nil. *)
Definition touchesFilters (call : filterCall) : bool :=
  match call with
  | CallFilterByCategory _ | CallFilterByManufacturer _
  | CallFilterByStatus _ | CallFilterByPackageType _
  | CallAddParametricFilter _ _ => true
  | _ => false
  end.

Definition sortArg (call : filterCall) : option SortOptions :=
  match call with
  | CallSortBy field direction => Some (mkSortOptions field direction)
  | _ => None
  end.
Definition quantityArg (call : filterCall) : option Z :=
  match call with CallWithQuantity qty => Some qty | _ => None end.

(** ** More of the concrete runtime *)

(** A limiter whose minute window is used up until the end of its first
    minute. *)
Definition exhaustedLimiter : RateLimiter :=
  mkRateLimiter 10 (1 * Minute) 10 (24 * Hour) 10 100.

Definition germanLocale : Locale :=
  {| Site := "DE"; Language := "de"; Currency := "EUR" |}.

Definition exampleSearch : SearchRequest :=
  {| Keywords := "STM32F4"; Limit_ := 0; Offset := 0 |}.

(** A held lock has a holder: some caller is between [mu.Lock()] and the
    deferred [mu.Unlock()] of [refreshToken]. *)
Definition lockHasHolder (s : Sys) : Prop :=
  sys_locked s = true ->
  exists i p, sys_threads s !! i = Some p /\ holder p = true.

(** * Properties *)

(** ** Machine integers *)

Lemma wrap_small (z : Z) : int_min <= z <= int_max -> wrap z = z.
Proof.
  unfold wrap, int_min, int_max. intros Hz.
  rewrite Z.mod_small; lia.
Qed.

Lemma Seconds_exact (n : Z) :
  -9223372036 <= n <= 9223372036 -> Seconds n = n * Second.
Proof.
  intros Hn. unfold Seconds, int_mul, Second.
  apply wrap_small. unfold int_min, int_max. lia.
Qed.

(** ** RateLimiter *)

Section RateLimiterFacts.
Context `{!Externals}.

Lemma resetWindows_in_window (r : RateLimiter) (now : Time) :
  now <= minuteResetTime r -> now <= dayResetTime r ->
  resetWindows r now = r.
Proof.
  intros Hm Hd. unfold resetWindows, resetMinute, resetDay, time_After.
  destruct (Z.ltb_spec (minuteResetTime r) now) as [?|_]; [lia|].
  destruct (Z.ltb_spec (dayResetTime r) now) as [?|_]; [lia|].
  reflexivity.
Qed.

Lemma resetWindows_limits (r : RateLimiter) (now : Time) :
  minuteLimit (resetWindows r now) = minuteLimit r
  /\ dayLimit (resetWindows r now) = dayLimit r.
Proof.
  unfold resetWindows, resetMinute, resetDay.
  destruct (time_After now (minuteResetTime r)); simpl;
    destruct (time_After now _); simpl; auto.
Qed.

Lemma resetWindows_counts (r : RateLimiter) (now : Time) :
  minuteCount (resetWindows r now)
  = (if time_After now (minuteResetTime r) then 0 else minuteCount r)
  /\ dayCount (resetWindows r now)
     = (if time_After now (dayResetTime r) then 0 else dayCount r).
Proof.
  unfold resetWindows, resetMinute, resetDay.
  destruct (time_After now (minuteResetTime r)); simpl;
    destruct (time_After now (dayResetTime r)); simpl; auto.
Qed.

(** A refused [Allow] leaves the limiter as the lazy resets left it. *)
Lemma Allow_refused (r r' : RateLimiter) (now : Time) (e : RateLimitError) :
  Allow r now = (Some e, r') -> r' = resetWindows r now.
Proof.
  unfold Allow.
  destruct (minuteLimit (resetWindows r now) <=? minuteCount (resetWindows r now));
    [intros [= _ <-]; reflexivity|].
  destruct (dayLimit (resetWindows r now) <=? dayCount (resetWindows r now));
    [intros [= _ <-]; reflexivity|].
  discriminate.
Qed.

(** The minute window is tested first. *)
Lemma Allow_minute_first (r : RateLimiter) (now : Time) :
  minuteLimit (resetWindows r now) <= minuteCount (resetWindows r now) ->
  exists e, Allow r now = (Some e, resetWindows r now)
            /\ Type_ e = "minute"
            /\ Limit e = minuteLimit r /\ Remaining e = 0.
Proof.
  intros Hfull. unfold Allow.
  destruct (Z.leb_spec (minuteLimit (resetWindows r now))
                       (minuteCount (resetWindows r now))) as [_|?]; [|lia].
  eexists; split; [reflexivity|]. simpl.
  destruct (resetWindows_limits r now) as [-> _]. auto.
Qed.

Lemma Allow_granted (r : RateLimiter) (now : Time) :
  now <= minuteResetTime r -> now <= dayResetTime r ->
  0 <= minuteCount r < minuteLimit r -> 0 <= dayCount r < dayLimit r ->
  minuteLimit r <= int_max -> dayLimit r <= int_max ->
  Allow r now =
    (None, mkRateLimiter (minuteCount r + 1) (minuteResetTime r)
             (dayCount r + 1) (dayResetTime r) (minuteLimit r) (dayLimit r)).
Proof.
  intros Hm Hd Hmc Hdc Hml Hdl. unfold Allow.
  rewrite resetWindows_in_window by assumption.
  destruct (Z.leb_spec (minuteLimit r) (minuteCount r)); [lia|].
  destruct (Z.leb_spec (dayLimit r) (dayCount r)); [lia|].
  unfold int_add. rewrite !wrap_small by (unfold int_min, int_max in *; lia).
  reflexivity.
Qed.

(** Calls inside both windows, with headroom for all of them, are all
    granted and each adds one to both counters. *)
Lemma allowMany_in_window (ts : list Time) : forall r : RateLimiter,
  Forall (fun u => u <= minuteResetTime r /\ u <= dayResetTime r) ts ->
  0 <= minuteCount r -> 0 <= dayCount r ->
  minuteCount r + Z.of_nat (length ts) <= minuteLimit r ->
  dayCount r + Z.of_nat (length ts) <= dayLimit r ->
  minuteLimit r <= int_max -> dayLimit r <= int_max ->
  allowMany r ts =
    (replicate (length ts) None,
     mkRateLimiter (minuteCount r + Z.of_nat (length ts)) (minuteResetTime r)
       (dayCount r + Z.of_nat (length ts)) (dayResetTime r)
       (minuteLimit r) (dayLimit r)).
Proof.
  induction ts as [|t ts IH]; intros r Hts Hm0 Hd0 Hm Hd Hml Hdl.
  - simpl. rewrite !Z.add_0_r. destruct r; reflexivity.
  - apply Forall_cons in Hts as [[Htm Htd] Hts].
    cbn [allowMany]. cbn [length] in Hm, Hd |- *.
    rewrite Allow_granted by lia.
    rewrite IH; cbn [minuteCount minuteResetTime dayCount dayResetTime
                     minuteLimit dayLimit]; try lia; [|exact Hts].
    cbn [replicate]. f_equal. f_equal; lia.
Qed.

Lemma allowMany_fresh (M D : Z) (t0 : Time) (ts : list Time) :
  Forall (fun u => u <= time_Add t0 Minute) ts ->
  Z.of_nat (length ts) <= M -> Z.of_nat (length ts) <= D ->
  M <= int_max -> D <= int_max ->
  allowMany (NewRateLimiterWithLimits M D t0) ts =
    (replicate (length ts) None,
     mkRateLimiter (Z.of_nat (length ts)) (time_Add t0 Minute)
       (Z.of_nat (length ts)) (time_Add t0 (24 * Hour)) M D).
Proof.
  intros Hts HM HD HMi HDi.
  assert (Hmin : Minute <= 24 * Hour) by (unfold Hour, Minute, Second; lia).
  rewrite allowMany_in_window; cbn; try lia.
  - reflexivity.
  - eapply Forall_impl; [exact Hts|]. cbn. unfold time_Add. intros; lia.
Qed.

Lemma statsMany_id (ts : list Time) (r : RateLimiter) : statsMany r ts = r.
Proof.
  unfold statsMany. revert r. induction ts as [|t ts IH]; intros r; simpl; auto.
Qed.

End RateLimiterFacts.

(** C3. A fresh limiter with minute limit [N] and day limit [D >= N] grants
    exactly [N] consecutive calls made inside the first minute window, and
    refuses the next one with a "minute" error. The minute window is tested
    before the day window, and a refused call leaves both counters as the
    lazy window resets left them: it never increments. *)
Theorem C3_minute_limit `{!Externals} (N D : Z) (t0 : Time)
  (ts : list Time) (t : Time) :
  0 <= N -> N <= D -> D <= int_max ->
  length ts = Z.to_nat N ->
  Forall (fun u => u <= time_Add t0 Minute) ts ->
  t <= time_Add t0 Minute ->
  (exists r,
      allowMany (NewRateLimiterWithLimits N D t0) ts
      = (replicate (Z.to_nat N) None, r)
      /\ minuteCount r = N /\ dayCount r = N
      /\ exists e, Allow r t = (Some e, r)
                   /\ Type_ e = "minute" /\ Limit e = N /\ Remaining e = 0)
  /\ (forall r now,
        minuteLimit (resetWindows r now) <= minuteCount (resetWindows r now) ->
        exists e, fst (Allow r now) = Some e /\ Type_ e = "minute")
  /\ (forall r now e r',
        Allow r now = (Some e, r') ->
        minuteCount r'
        = (if time_After now (minuteResetTime r) then 0 else minuteCount r)
        /\ dayCount r'
           = (if time_After now (dayResetTime r) then 0 else dayCount r)).
Proof.
  intros HN HND HD Hlen Hts Ht.
  assert (HM : Minute <= 24 * Hour) by (unfold Hour, Minute, Second; lia).
  split; [|split].
  - rewrite allowMany_fresh by (rewrite ?Hlen, ?Z2Nat.id; auto; lia).
    rewrite Hlen, Z2Nat.id by lia.
    eexists; split; [reflexivity|]. cbn. split; [lia|]. split; [lia|].
    match goal with |- exists e, Allow ?r t = _ /\ _ =>
      destruct (Allow_minute_first r t) as (e & He & Hty & Hlim & Hrem);
      [ rewrite resetWindows_in_window by (cbn; unfold time_Add in *; lia);
        cbn; lia
      | rewrite resetWindows_in_window in He
          by (cbn; unfold time_Add in *; lia);
        exists e; cbn in Hlim; auto ]
    end.
  - intros r now Hfull.
    destruct (Allow_minute_first r now Hfull) as (e & He & Hty & _).
    exists e. rewrite He. auto.
  - intros r now e r' HA. apply Allow_refused in HA as ->.
    apply resetWindows_counts.
Qed.

(** C7. [UpdateFromResponse] with a non-positive argument leaves the limiter
    as it is. With a positive one it sets the minute count to the minute
    limit and the minute reset time to [now] plus that many seconds, leaves
    the limits and the day window alone, and every [Allow] up to the new
    reset time is refused with a "minute" error. *)
Theorem C7_update_from_response `{!Externals} (r : RateLimiter)
  (retryAfterSeconds : Z) (now : Time) :
  (retryAfterSeconds <= 0 -> UpdateFromResponse r retryAfterSeconds now = r)
  /\ (0 < retryAfterSeconds ->
      let r' := UpdateFromResponse r retryAfterSeconds now in
      minuteCount r' = minuteLimit r
      /\ minuteResetTime r' = time_Add now (Seconds retryAfterSeconds)
      /\ (retryAfterSeconds <= 9223372036 ->
          minuteResetTime r' = now + retryAfterSeconds * Second)
      /\ minuteLimit r' = minuteLimit r
      /\ dayCount r' = dayCount r
      /\ dayLimit r' = dayLimit r
      /\ dayResetTime r' = dayResetTime r
      /\ forall t, t <= minuteResetTime r' ->
           exists e, fst (Allow r' t) = Some e /\ Type_ e = "minute").
Proof.
  unfold UpdateFromResponse. split.
  - intros Hn. destruct (Z.leb_spec retryAfterSeconds 0); [reflexivity|lia].
  - intros Hn. destruct (Z.leb_spec retryAfterSeconds 0); [lia|].
    cbn -[Allow Seconds]. repeat split.
    + intros Hsmall. unfold time_Add. rewrite Seconds_exact by lia. reflexivity.
    + intros t Ht.
      match goal with |- exists e, fst (Allow ?r' t) = _ /\ _ =>
        destruct (Allow_minute_first r' t) as (e & He & Hty & _)
      end.
      * unfold resetWindows, resetMinute, time_After.
        cbn [minuteResetTime].
        destruct (Z.ltb_spec (time_Add now (Seconds retryAfterSeconds)) t);
          [lia|].
        unfold resetDay. destruct (time_After t _); cbn; lia.
      * exists e. rewrite He. auto.
Qed.

(** C8. After [K] granted [Allow] calls on a fresh limiter, inside the first
    minute and day windows, [Stats] reports [K] used and [limit - K]
    remaining for both windows. [Stats] leaves the limiter as it found it,
    so any number of [Stats] calls in between does not change what the next
    [Allow] answers. *)
Theorem C8_stats `{!Externals} (M D K : Z) (t0 : Time) (ts : list Time)
  (t : Time) :
  0 <= K -> K <= M -> K <= D -> M <= int_max -> D <= int_max ->
  length ts = Z.to_nat K ->
  Forall (fun u => u <= time_Add t0 Minute) ts ->
  t <= time_Add t0 Minute ->
  (exists r,
      allowMany (NewRateLimiterWithLimits M D t0) ts
      = (replicate (Z.to_nat K) None, r)
      /\ MinuteUsed (fst (Stats r t)) = K
      /\ MinuteRemaining (fst (Stats r t)) = M - K
      /\ DayUsed (fst (Stats r t)) = K
      /\ DayRemaining (fst (Stats r t)) = D - K)
  /\ (forall r now, snd (Stats r now) = r)
  /\ (forall r us now, Allow (statsMany r us) now = Allow r now).
Proof.
  intros HK HKM HKD HM HD Hlen Hts Ht.
  assert (Hmin : Minute <= 24 * Hour) by (unfold Hour, Minute, Second; lia).
  split; [|split].
  - rewrite allowMany_fresh by (rewrite ?Hlen, ?Z2Nat.id; auto; lia).
    rewrite Hlen, Z2Nat.id by lia.
    eexists; split; [reflexivity|].
    unfold Stats, time_After, time_Add in *. cbn.
    destruct (Z.ltb_spec (t0 + Minute) t); [lia|].
    destruct (Z.ltb_spec (t0 + 24 * Hour) t); [lia|].
    unfold int_sub.
    rewrite !wrap_small by (unfold int_min, int_max in *; lia).
    repeat split; lia.
  - intros r now. reflexivity.
  - intros r us now. rewrite statsMany_id. reflexivity.
Qed.

(** ** CredentialManager *)

Section CredentialFacts.
Context `{!Externals}.
Variable env : Env.

(** A credential that is not fresh does not become fresh as time passes. *)
Lemma tokenFresh_later (token : string) (expiry now now' : Time) :
  now <= now' -> tokenFresh token expiry now = false ->
  tokenFresh token expiry now' = false.
Proof.
  unfold tokenFresh, time_Before. intros Hle.
  destruct (negb (String.eqb token "")); [|reflexivity]. cbn.
  intros Hf. apply Z.ltb_ge in Hf. apply Z.ltb_ge. lia.
Qed.

Lemma refreshToken_fresh (w : World) :
  tokenFresh (accessToken (tokenMgr w)) (tokenExpiry (tokenMgr w)) (clock w)
  = true ->
  refreshToken env w = (inl (accessToken (tokenMgr w)), w).
Proof. unfold refreshToken. intros ->. reflexivity. Qed.

Lemma refreshToken_stale (w : World) :
  tokenFresh (accessToken (tokenMgr w)) (tokenExpiry (tokenMgr w)) (clock w)
  = false ->
  http_NewRequest_ok "POST" (tokenURL (tokenMgr w)) = true ->
  let w1 :=
    set_clock (tick_exchanges w)
      (time_Add (clock w) (snd (tokenEndpoint env (exchanges w)))) in
  let fin :=
    refreshToken_finish (tokenMgr w) (fst (tokenEndpoint env (exchanges w)))
      (clock w1) in
  refreshToken env w = (fst fin, set_tokenMgr w1 (snd fin)).
Proof.
  unfold refreshToken. intros -> ->. cbn [negb].
  destruct (tokenEndpoint env (exchanges w)) as [reply latency]. cbn.
  destruct (refreshToken_finish _ _ _). reflexivity.
Qed.

Lemma getToken_frame (w w' : World) (res : string + error) :
  getToken env w = (res, w') ->
  rateLimiter w' = rateLimiter w /\ cache w' = cache w
  /\ allowCalls w' = allowCalls w /\ sends w' = sends w
  /\ draws w' = draws w.
Proof.
  unfold getToken, refreshToken. intros Hg.
  repeat case_match; simplify_eq; cbn; auto.
Qed.

End CredentialFacts.

(** C5. [getToken] returns the cached token without a token exchange exactly
    when that token is non-empty and the clock is before its expiry minus
    the 60 s buffer. Otherwise it is [refreshToken], which tests the same
    condition again (answering from the cache when it holds) and otherwise
    asks the token endpoint and, on a decodable 200 answer, stores the new
    token with [expiry = now + expiresIn] seconds, [now] read after the
    answer. After [invalidate] no instant makes the credential fresh, so the
    next [getToken] goes to the token endpoint. *)
Theorem C5_getToken `{!Externals} (env : Env) (w : World) :
  let tm := tokenMgr w in
  let fresh := tokenFresh (accessToken tm) (tokenExpiry tm) (clock w) in
  (fresh = (negb (String.eqb (accessToken tm) "")
            && (clock w <? tokenExpiry tm - 60 * Second)))
  /\ (fresh = true -> getToken env w = (inl (accessToken tm), w))
  /\ (fresh = false -> getToken env w = refreshToken env w)
  /\ (fst (getToken env w) = inl (accessToken tm)
      /\ exchanges (snd (getToken env w)) = exchanges w
      <-> fresh = true)
  /\ (fresh = true -> refreshToken env w = (inl (accessToken tm), w))
  /\ (fresh = false -> http_NewRequest_ok "POST" (tokenURL tm) = true ->
      let w' := snd (refreshToken env w) in
      exchanges w' = S (exchanges w)
      /\ forall resp latency tokenResp,
           tokenEndpoint env (exchanges w) = (DoResponse resp, latency) ->
           resp_ReadFails resp = false ->
           resp_StatusCode resp = 200 ->
           json_Unmarshal_tokenResponse (resp_Body resp) = Some tokenResp ->
           fst (refreshToken env w) = inl (AccessToken tokenResp)
           /\ clock w' = clock w + latency
           /\ accessToken (tokenMgr w') = AccessToken tokenResp
           /\ tokenExpiry (tokenMgr w')
              = time_Add (clock w') (Seconds (ExpiresIn tokenResp))
           /\ (-9223372036 <= ExpiresIn tokenResp <= 9223372036 ->
               tokenExpiry (tokenMgr w')
               = clock w' + ExpiresIn tokenResp * Second))
  /\ (let wi := set_tokenMgr w (invalidate tm) in
      (forall now,
          tokenFresh (accessToken (tokenMgr wi)) (tokenExpiry (tokenMgr wi)) now
          = false)
      /\ getToken env wi = refreshToken env wi
      /\ (http_NewRequest_ok "POST" (tokenURL tm) = true ->
          exchanges (snd (getToken env wi)) = S (exchanges w))).
Proof.
  intros tm fresh.
  assert (Hstale : fresh = false ->
                   http_NewRequest_ok "POST" (tokenURL tm) = true ->
                   exchanges (snd (refreshToken env w)) = S (exchanges w)).
  { intros Hf Hok. rewrite (refreshToken_stale env w Hf Hok). reflexivity. }
  split; [reflexivity|].
  split; [intros Hf; unfold getToken; fold tm; fold fresh; rewrite Hf;
          reflexivity|].
  split; [intros Hf; unfold getToken; fold tm; fold fresh; rewrite Hf;
          reflexivity|].
  split.
  { split.
    - intros [Hres Hex]. destruct fresh eqn:Hf; [reflexivity|exfalso].
      unfold getToken in Hres, Hex. fold tm in Hres, Hex.
      fold fresh in Hres, Hex. rewrite Hf in Hres, Hex.
      destruct (http_NewRequest_ok "POST" (tokenURL tm)) eqn:Hok.
      + specialize (Hstale eq_refl eq_refl). lia.
      + unfold refreshToken in Hres. fold tm in Hres. fold fresh in Hres.
        rewrite Hf, Hok in Hres. discriminate.
    - intros Hf. unfold getToken. fold tm. fold fresh. rewrite Hf. auto. }
  split; [apply refreshToken_fresh|].
  split.
  { intros Hf Hok. split; [auto|].
    intros resp latency tokenResp Hep Hread Hstatus Hjson.
    rewrite (refreshToken_stale env w Hf Hok). fold tm. rewrite Hep.
    cbn [fst snd refreshToken_finish]. rewrite Hread, Hstatus, Hjson.
    cbn. repeat split.
    intros Hsmall. unfold time_Add. rewrite Seconds_exact by lia. reflexivity. }
  cbn zeta.
  assert (Hinv : forall now,
             tokenFresh (accessToken (invalidate tm))
                        (tokenExpiry (invalidate tm)) now = false)
    by (intros now; reflexivity).
  split; [exact Hinv|].
  split.
  - unfold getToken. cbn [tokenMgr set_tokenMgr]. rewrite Hinv. reflexivity.
  - intros Hok. unfold getToken. cbn [tokenMgr set_tokenMgr]. rewrite Hinv.
    rewrite refreshToken_stale; [reflexivity|apply Hinv|exact Hok].
Qed.

(** ** One attempt *)

Section AttemptFacts.
Context `{!Externals}.
Variable c : Client.
Variable env : Env.
Context {R : Type}.
Variable req : Request.
Variable result : option (string -> option R).

Lemma handleErrorResponse_status (statusCode : Z) (body requestId : string) :
  exists e, handleErrorResponse statusCode body requestId = EAPI e
            /\ StatusCode e = statusCode.
Proof.
  unfold handleErrorResponse.
  destruct (json_Unmarshal_errResp body) as [[message details]|];
    eexists; split; reflexivity.
Qed.

(** Every attempt asks the limiter once. *)
Lemma doOnce_allowCalls (w w' : World) (o : Outcome R) :
  doOnce c env req result w = (o, w') -> allowCalls w' = S (allowCalls w).
Proof.
  unfold doOnce. intros Hd.
  destruct (Allow (rateLimiter w) (clock w)) as [allowErr rl].
  destruct allowErr; [simplify_eq; reflexivity|].
  destruct (getToken env _) as [tok w1] eqn:Hg.
  apply getToken_frame in Hg as (_ & _ & Hac & _).
  cbn in Hac. unfold classify in Hd.
  repeat case_match; simplify_eq; cbn; exact Hac.
Qed.

(** A 401 is never reported as retryable by [doOnce]. *)
Lemma doOnce_401_no_retry (w w' : World) (o : Outcome R) :
  doOnce c env req result w = (o, w') ->
  out_statusCode o = 401 -> out_shouldRetry o = false.
Proof.
  unfold doOnce, classify. intros Hd Hs.
  repeat case_match; simplify_eq; cbn in *; try reflexivity; try lia.
Qed.

(** An attempt refused by the limiter: no credential is fetched and nothing
    is sent. *)
Lemma doOnce_refused (w : World) (e : RateLimitError) (rl : RateLimiter) :
  Allow (rateLimiter w) (clock w) = (Some e, rl) ->
  doOnce c env req result w
  = (mkOutcome 0 false (Some (ERateLimit e)) None,
     set_rateLimiter (tick_allowCalls w) rl).
Proof. unfold doOnce. intros ->. reflexivity. Qed.

(** If the attempt sends its request and the server answers it with [resp],
    whatever the request carries, the attempt ends as [classify] says, on the
    world in which the answer has arrived. *)
Lemma doOnce_sent (w w' : World) (o : Outcome R) (resp : Response) :
  doOnce c env req result w = (o, w') ->
  sends w' = S (sends w) ->
  (forall hr, fst (apiEndpoint env (sends w) hr) = DoResponse resp) ->
  exists w1,
    (o, w') = classify result resp w1
    /\ sends w1 = S (sends w) /\ allowCalls w1 = S (allowCalls w)
    /\ draws w1 = draws w /\ cache w1 = cache w
    /\ fst (Allow (rateLimiter w) (clock w)) = None
    /\ rateLimiter w1 = snd (Allow (rateLimiter w) (clock w)).
Proof.
  unfold doOnce. intros Hd Hs Hep.
  destruct (Allow (rateLimiter w) (clock w)) as [allowErr rl].
  destruct allowErr; [simplify_eq; cbn in Hs; lia|].
  destruct (getToken env _) as [tok w1] eqn:Hg.
  apply getToken_frame in Hg as (Hrl & Hca & Hac & Hse & Hdr).
  cbn in Hrl, Hca, Hac, Hse, Hdr.
  destruct tok as [token|err]; [|simplify_eq; cbn in Hs; lia].
  assert (Hsent :
    forall body,
      (if negb (http_NewRequest_ok (rq_method req) (baseURL c +:+ rq_path req))
       then (mkOutcome 0 false
               (Some (EWrap "digikey: failed to create request" ENewRequest))
               None, w1)
       else
         let httpReq :=
           {| hr_method := rq_method req;
              hr_url := baseURL c +:+ rq_path req;
              hr_body := body;
              hr_Authorization := "Bearer " +:+ token;
              hr_ClientId := clientID c;
              hr_Locale := locale c |} in
         let '(reply, latency) := apiEndpoint env (sends w1) httpReq in
         let w2 := set_clock (tick_sends w1) (time_Add (clock w1) latency) in
         match reply with
         | DoError err =>
             (mkOutcome 0 (shouldRetry (Some err) 0)
                (Some (EWrap "digikey: request failed" err)) None, w2)
         | DoResponse resp => classify result resp w2
         end) = (o, w') ->
      exists w2, (o, w') = classify result resp w2
                 /\ sends w2 = S (sends w) /\ allowCalls w2 = S (allowCalls w)
                 /\ draws w2 = draws w /\ cache w2 = cache w
                 /\ None = @None RateLimitError
                 /\ rateLimiter w2 = rl).
  { intros body Hb.
    destruct (negb (http_NewRequest_ok _ _));
      [simplify_eq; cbn in Hs; lia|].
    cbn zeta in Hb.
    match type of Hb with
    | context [apiEndpoint env (sends w1) ?hr] =>
        specialize (Hep hr); rewrite <- Hse in Hep;
        destruct (apiEndpoint env (sends w1) hr) as [reply latency]
    end.
    cbn in Hep. subst reply.
    eexists. split; [symmetry; exact Hb|]. cbn. repeat split; congruence. }
  destruct (rq_body req) as [[body|]|].
  - apply (Hsent body). exact Hd.
  - simplify_eq. cbn in Hs. lia.
  - apply (Hsent ""). exact Hd.
Qed.

End AttemptFacts.

(** ** The retry loop *)

Section LoopFacts.
Context `{!Externals}.
Variable c : Client.
Variable env : Env.
Context {R : Type}.
Variable req : Request.
Variable result : option (string -> option R).

Lemma backoffSleep_frame (attempt : Z) (w w' : World) (e : option error) :
  backoffSleep c env attempt w = (e, w') ->
  rateLimiter w' = rateLimiter w /\ tokenMgr w' = tokenMgr w
  /\ cache w' = cache w /\ allowCalls w' = allowCalls w
  /\ exchanges w' = exchanges w /\ sends w' = sends w.
Proof.
  unfold backoffSleep. intros Hb.
  repeat case_match; simplify_eq; cbn; auto 10.
Qed.

(** Every iteration is one of the cases of [iteration]. *)
Lemma retryLoop_iteration (b : bool) (recur : World -> Result R) (n : nat)
  (attempt : Z) (lastErr : option error) (w : World) :
  iteration c env req result b recur n attempt w
    (retryLoop c env req result b recur (S n) attempt lastErr w).
Proof.
  cbn [retryLoop].
  destruct (backoffSleep c env attempt w) as [[err|] w1] eqn:Hs.
  { eapply IterCancelled; eauto. }
  destruct (doOnce c env req result w1) as [o w2] eqn:Hd.
  destruct (out_err o) as [err|] eqn:He.
  2:{ eapply IterSuccess; eauto. }
  destruct (out_statusCode o =? 401) eqn:H401.
  - apply Z.eqb_eq in H401. destruct b; cbn [negb andb].
    + assert (Hnr := doOnce_401_no_retry _ _ _ _ _ _ _ Hd H401).
      rewrite Hnr. cbn [negb]. eapply IterTerminal; eauto.
    + rewrite H401. eapply IterRestart; eauto.
  - apply Z.eqb_neq in H401. cbn [andb].
    destruct (out_shouldRetry o) eqn:Hr; cbn [negb].
    + destruct (Z.leb_spec (int_sub (maxAttempts c) 1) attempt).
      * eapply IterExhausted; eauto.
      * eapply IterContinue; eauto.
    + eapply IterTerminal; eauto.
Qed.

(** The call made after a 401 never reaches its own [recur]. *)
Lemma retryLoop_true_recur (recur1 recur2 : World -> Result R) (n : nat) :
  forall attempt lastErr w,
    retryLoop c env req result true recur1 n attempt lastErr w
    = retryLoop c env req result true recur2 n attempt lastErr w.
Proof.
  induction n as [|n IH]; intros attempt lastErr w; [reflexivity|].
  cbn [retryLoop].
  destruct (backoffSleep c env attempt w) as [[err|] w1]; [reflexivity|].
  destruct (doOnce c env req result w1) as [o w2].
  destruct (out_err o); [|reflexivity].
  rewrite andb_false_r. rewrite IH. reflexivity.
Qed.

(** The recursive equation of [doWithRetry], as the source has it. *)
Lemma doWithRetry_unfold (b : bool) (w : World) :
  doWithRetry c env req result b w
  = retryLoop c env req result b (doWithRetry c env req result true)
      (Z.to_nat (maxAttempts c)) 0 None w.
Proof.
  unfold doWithRetry at 1. destruct b; [|reflexivity].
  apply retryLoop_true_recur.
Qed.

Lemma res_logged (evs : list LoopEvent) (r : Result R) :
  res_err (logged evs r) = res_err r
  /\ res_value (logged evs r) = res_value r
  /\ res_world (logged evs r) = res_world r
  /\ res_events (logged evs r) = evs ++ res_events r.
Proof. destruct r as [[[e v] w] l]. cbn. auto. Qed.

End LoopFacts.

Section RetryBudget.
Context `{!Externals}.
Variable c : Client.
Variable env : Env.
Context {R : Type}.
Variable req : Request.
Variable result : option (string -> option R).

(** A loop whose events are all retryable failures runs to the end of its
    budget and returns the error of its last attempt. *)
Lemma retryLoop_all_retryable (b : bool) (recur : World -> Result R)
  (n : nat) :
  forall (attempt : Z) (lastErr : option error) (w : World),
    0 <= attempt -> attempt + Z.of_nat n = maxAttempts c ->
    maxAttempts c <= int_max ->
    let r := retryLoop c env req result b recur n attempt lastErr w in
    Forall (fun ev => retryableFailure ev = true) (res_events r) ->
    attemptIndex <$> res_events r = Some <$> seqZ attempt (Z.of_nat n)
    /\ allowCalls (res_world r) = (allowCalls w + n)%nat
    /\ res_value r = None
    /\ (n <> 0%nat ->
        exists s e,
          last (res_events r)
          = Some (Attempt (maxAttempts c - 1) s true (Some e))
          /\ res_err r = Some e).
Proof.
  induction n as [|n IH]; intros attempt lastErr w Ha Hsum Hmax r Hall.
  { subst r. cbn. repeat split; [lia|congruence]. }
  assert (Hsub : int_sub (maxAttempts c) 1 = maxAttempts c - 1).
  { apply wrap_small. unfold int_min, int_max in *. lia. }
  subst r.
  remember (retryLoop c env req result b recur (S n) attempt lastErr w) as r
    eqn:Hr.
  pose proof (retryLoop_iteration c env req result b recur n attempt lastErr w)
    as Hit.
  rewrite <- Hr in Hit. clear Hr.
  destruct Hit as [err w1 Hs | w1 w2 o Hs Hd He | w1 w2 o err Hs Hd He H401 Hb
                  | w1 w2 o err Hs Hd He H401 Hnr
                  | w1 w2 o err Hs Hd He H401 Hre Hlast
                  | w1 w2 o err Hs Hd He H401 Hre Hmore].
  - cbn in Hall. apply Forall_cons in Hall as [Hbad _]. discriminate.
  - cbn in Hall. apply Forall_cons in Hall as [Hbad _].
    cbn in Hbad. destruct (out_shouldRetry o); discriminate.
  - destruct (res_logged
                [Attempt attempt 401 (out_shouldRetry o) (Some err); Restart]
                (recur (set_tokenMgr w2 (invalidate (tokenMgr w2)))))
      as (_ & _ & _ & Hev).
    rewrite Hev in Hall. apply Forall_cons in Hall as [Hbad _].
    cbn in Hbad. destruct (out_shouldRetry o); discriminate.
  - cbn in Hall. apply Forall_cons in Hall as [Hbad _]. discriminate.
  - assert (n = 0%nat) by lia. subst n.
    apply backoffSleep_frame in Hs as (_ & _ & _ & Hac & _).
    apply doOnce_allowCalls in Hd.
    cbn. repeat split.
    + lia.
    + intros _. exists (out_statusCode o), err.
      replace (maxAttempts c - 1) with attempt by lia. auto.
  - assert (Hadd : int_add attempt 1 = attempt + 1).
    { apply wrap_small. unfold int_min, int_max in *. lia. }
    destruct (res_logged [Attempt attempt (out_statusCode o) true (Some err)]
                (retryLoop c env req result b recur n (int_add attempt 1)
                   (Some err) w2)) as (Herr & Hval & Hw & Hev).
    rewrite Hev in Hall. apply Forall_cons in Hall as [_ Hall].
    rewrite Hadd in *.
    destruct (IH (attempt + 1) (Some err) w2) as (Hidx & Hcalls & Hv & Hlast);
      [lia|lia|lia|exact Hall|].
    apply backoffSleep_frame in Hs as (_ & _ & _ & Hac & _).
    apply doOnce_allowCalls in Hd.
    rewrite Herr, Hval, Hw, Hev.
    assert (Hn : n <> 0%nat) by lia.
    destruct (Hlast Hn) as (s & e & Hl & He').
    repeat split.
    + cbn [app fmap list_fmap attemptIndex]. rewrite Hidx.
      rewrite (seqZ_cons attempt (Z.of_nat (S n))) by lia.
      cbn [fmap list_fmap]. do 3 f_equal; lia.
    + rewrite Hcalls. lia.
    + exact Hv.
    + intros _. exists s, e. split; [|exact He'].
      cbn [app]. destruct (res_events _) as [|ev evs] eqn:Hevs;
        [discriminate|]. exact Hl.
Qed.

End RetryBudget.

Section AlwaysUnavailable.
Context `{!Externals}.
Variable c : Client.
Variable env : Env.
Context {R : Type}.
Variable req : Request.
Variable result : option (string -> option R).

Hypothesis Hctx : ctx_done env = None.
Hypothesis Htoken : tokenEndpointGrants env.
Hypothesis Hapi : apiAlwaysAnswers env 503.
Hypothesis Hreq : requestBuilds c req.

Lemma backoffSleep_completes (attempt : Z) (w : World) :
  fst (backoffSleep c env attempt w) = None.
Proof.
  unfold backoffSleep, sleep. rewrite Hctx.
  destruct (0 <? attempt); reflexivity.
Qed.

Lemma Allow_headroom (k : Z) (r : RateLimiter) (now : Time) :
  0 <= k -> headroom (k + 1) r ->
  exists r', Allow r now = (None, r') /\ headroom k r'.
Proof.
  intros Hk (Hm0 & Hd0 & Hm & Hd & Hml & Hdl). unfold Allow.
  destruct (resetWindows_limits r now) as [Hlm Hld].
  destruct (resetWindows_counts r now) as [Hcm Hcd].
  assert (Hm' : 0 <= minuteCount (resetWindows r now) <= minuteCount r)
    by (rewrite Hcm; destruct (time_After now (minuteResetTime r)); lia).
  assert (Hd' : 0 <= dayCount (resetWindows r now) <= dayCount r)
    by (rewrite Hcd; destruct (time_After now (dayResetTime r)); lia).
  destruct (Z.leb_spec (minuteLimit (resetWindows r now))
                       (minuteCount (resetWindows r now))); [lia|].
  destruct (Z.leb_spec (dayLimit (resetWindows r now))
                       (dayCount (resetWindows r now))); [lia|].
  eexists; split; [reflexivity|].
  unfold headroom, int_add. cbn.
  rewrite !wrap_small by (unfold int_min, int_max in *; lia). lia.
Qed.

Lemma getToken_granted (w : World) :
  http_NewRequest_ok "POST" (tokenURL (tokenMgr w)) = true ->
  exists token w',
    getToken env w = (inl token, w')
    /\ tokenURL (tokenMgr w') = tokenURL (tokenMgr w).
Proof.
  intros Hok. unfold getToken.
  destruct (tokenFresh _ _ _) eqn:Hf; [eauto|].
  rewrite (refreshToken_stale env w Hf Hok).
  destruct (Htoken (exchanges w)) as (resp & lat & tr & -> & Hr & Hs & Hj).
  cbn [fst snd refreshToken_finish]. rewrite Hr, Hs, Hj. cbn. eauto.
Qed.

Lemma doOnce_503 (k : Z) (w w' : World) (o : Outcome R) :
  0 <= k -> headroom (k + 1) (rateLimiter w) ->
  http_NewRequest_ok "POST" (tokenURL (tokenMgr w)) = true ->
  doOnce c env req result w = (o, w') ->
  (exists e, o = mkOutcome 503 true (Some (EAPI e)) None /\ StatusCode e = 503)
  /\ headroom k (rateLimiter w')
  /\ http_NewRequest_ok "POST" (tokenURL (tokenMgr w')) = true
  /\ sends w' = S (sends w).
Proof.
  intros Hk Hroom Hok. unfold doOnce.
  destruct (Allow_headroom k (rateLimiter w) (clock w) Hk Hroom)
    as (rl & -> & Hroom').
  destruct (getToken_granted (set_rateLimiter (tick_allowCalls w) rl) Hok)
    as (token & w1 & Hg & Hurl).
  rewrite Hg. apply getToken_frame in Hg as (Hrl & _ & _ & Hse & _).
  cbn in Hrl, Hse, Hurl.
  destruct Hreq as [Hbody Hnew]. rewrite Hnew. cbn [negb].
  assert (Hcl : forall resp w2,
             resp_ReadFails resp = false -> resp_StatusCode resp = 503 ->
             exists e, classify result resp w2
                       = (mkOutcome 503 true (Some (EAPI e)) None, w2)
                       /\ StatusCode e = 503).
  { intros resp w2 Hr Hs. unfold classify. rewrite Hr, Hs. cbn.
    destruct (handleErrorResponse_status 503 (resp_Body resp)
                (resp_RequestId resp)) as (e & -> & He). eauto. }
  destruct (rq_body req) as [[body|]|]; [|congruence|];
    cbn zeta;
    match goal with
    | |- context [apiEndpoint env (sends w1) ?hr] =>
        destruct (Hapi (sends w1) hr) as (resp & lat & -> & Hr & Hs)
    end;
    match goal with
    | Hr : resp_ReadFails ?r = false, Hs : resp_StatusCode ?r = 503
      |- context [classify result ?r ?w2] =>
        destruct (Hcl r w2 Hr Hs) as (e & -> & He)
    end;
    intros [= <- <-]; cbn;
    (split; [eauto|]); (split; [rewrite Hrl; exact Hroom'|]);
    (split; [rewrite Hurl; exact Hok|]); congruence.
Qed.

(** With a 503 on every request the loop spends its whole budget on
    requests that are all sent and all answered 503. *)
Lemma retryLoop_503 (b : bool) (recur : World -> Result R) (n : nat) :
  forall (attempt : Z) (lastErr : option error) (w : World),
    0 <= attempt -> attempt + Z.of_nat n = maxAttempts c ->
    maxAttempts c <= int_max ->
    headroom (Z.of_nat n) (rateLimiter w) ->
    http_NewRequest_ok "POST" (tokenURL (tokenMgr w)) = true ->
    let r := retryLoop c env req result b recur n attempt lastErr w in
    Forall serverError503 (res_events r)
    /\ sends (res_world r) = (sends w + n)%nat.
Proof.
  induction n as [|n IH]; intros attempt lastErr w Ha Hsum Hmax Hroom Hok r.
  { subst r. cbn. split; [constructor|lia]. }
  assert (Hsub : int_sub (maxAttempts c) 1 = maxAttempts c - 1).
  { apply wrap_small. unfold int_min, int_max in *. lia. }
  subst r.
  remember (retryLoop c env req result b recur (S n) attempt lastErr w) as r
    eqn:Hr.
  pose proof (retryLoop_iteration c env req result b recur n attempt lastErr w)
    as Hit.
  rewrite <- Hr in Hit. clear Hr.
  assert (Hstep : forall w1 w2 o,
             backoffSleep c env attempt w = (None, w1) ->
             doOnce c env req result w1 = (o, w2) ->
             (exists e, o = mkOutcome 503 true (Some (EAPI e)) None
                        /\ StatusCode e = 503)
             /\ headroom (Z.of_nat n) (rateLimiter w2)
             /\ http_NewRequest_ok "POST" (tokenURL (tokenMgr w2)) = true
             /\ sends w2 = S (sends w)).
  { intros w1 w2 o Hs Hd.
    apply backoffSleep_frame in Hs as (Hrl & Htm & _ & _ & _ & Hse).
    rewrite <- Hse. eapply doOnce_503; [| | |exact Hd].
    - lia.
    - rewrite Hrl. replace (Z.of_nat n + 1) with (Z.of_nat (S n)) by lia.
      exact Hroom.
    - rewrite Htm. exact Hok. }
  destruct Hit as [err w1 Hs | w1 w2 o Hs Hd He | w1 w2 o err Hs Hd He H401 Hb
                  | w1 w2 o err Hs Hd He H401 Hnr
                  | w1 w2 o err Hs Hd He H401 Hre Hlast
                  | w1 w2 o err Hs Hd He H401 Hre Hmore].
  - pose proof (backoffSleep_completes attempt w) as Hc.
    rewrite Hs in Hc. discriminate.
  - destruct (Hstep _ _ _ Hs Hd) as ((e & -> & _) & _). discriminate.
  - destruct (Hstep _ _ _ Hs Hd) as ((e & -> & _) & _). discriminate.
  - destruct (Hstep _ _ _ Hs Hd) as ((e & -> & _) & _). discriminate.
  - destruct (Hstep _ _ _ Hs Hd) as ((e & -> & He503) & _ & _ & Hse).
    assert (n = 0%nat) by lia. subst n. cbn in He. simplify_eq.
    cbn. split; [|lia].
    constructor; [|constructor]. exists attempt, e. auto.
  - destruct (Hstep _ _ _ Hs Hd) as ((e & -> & He503) & Hroom' & Hok' & Hse).
    cbn in He. simplify_eq.
    assert (Hadd : int_add attempt 1 = attempt + 1).
    { apply wrap_small. unfold int_min, int_max in *. lia. }
    destruct (res_logged [Attempt attempt 503 true (Some (EAPI e))]
                (retryLoop c env req result b recur n (int_add attempt 1)
                   (Some (EAPI e)) w2)) as (_ & _ & Hw & Hev).
    cbn [out_statusCode]. rewrite Hw, Hev, Hadd.
    destruct (IH (attempt + 1) (Some (EAPI e)) w2) as [Hall Hsends];
      [lia|lia|lia|exact Hroom'|exact Hok'|].
    split.
    + constructor; [exists attempt, e; auto|exact Hall].
    + rewrite Hsends. lia.
Qed.

End AlwaysUnavailable.

Lemma serverError503_retryable (ev : LoopEvent) :
  serverError503 ev -> retryableFailure ev = true.
Proof. intros (a & e & -> & _). reflexivity. Qed.

(** C1. In a call of [doWithRetry] whose loop events are all attempts that
    fail with a retryable outcome other than a 401 (so that no backoff sleep
    is cut short by the caller's context), the attempts are exactly those of
    indices [0 .. MaxRetries], each asking the limiter once, and the error
    returned is the one of the last attempt. In particular, with
    [MaxRetries = 3] and a server that answers 503 to everything, four
    requests are sent and the error returned is a 503 [APIError], which
    unwraps to [ErrServerError]. *)
Theorem C1_retry_budget `{!Externals} (c : Client) (env : Env) {R : Type}
  (req : Request) (result : option (string -> option R)) (b : bool)
  (w : World) :
  0 <= MaxRetries (retryConfig c) < int_max ->
  let r := doWithRetry c env req result b w in
  let m := MaxRetries (retryConfig c) in
  (Forall (fun ev => retryableFailure ev = true) (res_events r) ->
   attemptIndex <$> res_events r = Some <$> seqZ 0 (m + 1)
   /\ allowCalls (res_world r) = (allowCalls w + Z.to_nat (m + 1))%nat
   /\ exists s e,
        last (res_events r) = Some (Attempt m s true (Some e))
        /\ res_err r = Some e)
  /\ (m = 3 -> ctx_done env = None -> tokenEndpointGrants env ->
      apiAlwaysAnswers env 503 -> requestBuilds c req ->
      headroom 4 (rateLimiter w) ->
      http_NewRequest_ok "POST" (tokenURL (tokenMgr w)) = true ->
      length (res_events r) = 4%nat
      /\ Forall serverError503 (res_events r)
      /\ sends (res_world r) = (sends w + 4)%nat
      /\ exists e, res_err r = Some (EAPI e) /\ StatusCode e = 503
                   /\ APIError_Unwrap e = Some ErrServerError).
Proof.
  intros Hm r m.
  assert (Hmax : maxAttempts c = m + 1).
  { unfold maxAttempts, int_add. apply wrap_small.
    unfold int_min, int_max in *. subst m. lia. }
  assert (Hgen :
    Forall (fun ev => retryableFailure ev = true) (res_events r) ->
    attemptIndex <$> res_events r = Some <$> seqZ 0 (m + 1)
    /\ allowCalls (res_world r) = (allowCalls w + Z.to_nat (m + 1))%nat
    /\ exists s e,
         last (res_events r) = Some (Attempt m s true (Some e))
         /\ res_err r = Some e).
  { intros Hall. subst r. rewrite doWithRetry_unfold in Hall |- *.
    rewrite Hmax in Hall |- *.
    destruct (retryLoop_all_retryable c env req result b
                (doWithRetry c env req result true) (Z.to_nat (m + 1))
                0 None w) as (Hidx & Hcalls & _ & Hlast);
      [lia|rewrite Hmax; subst m; lia|rewrite Hmax; subst m; lia|exact Hall|].
    rewrite Z2Nat.id in Hidx by (subst m; lia).
    split; [exact Hidx|]. split; [exact Hcalls|].
    destruct Hlast as (s & e & Hl & He); [subst m; lia|].
    exists s, e. rewrite Hmax in Hl.
    replace (m + 1 - 1) with m in Hl by lia. auto. }
  split; [exact Hgen|].
  intros Hm3 Hctx Htok Hapi Hreq Hroom Hok.
  assert (H503 : Forall serverError503 (res_events r)
                 /\ sends (res_world r) = (sends w + 4)%nat).
  { subst r. rewrite doWithRetry_unfold, Hmax, Hm3.
    apply (retryLoop_503 c env req result Hctx Htok Hapi Hreq b
             (doWithRetry c env req result true) 4 0 None w);
      [lia|rewrite Hmax, Hm3; reflexivity|rewrite Hmax, Hm3; compute; discriminate
      |exact Hroom|exact Hok]. }
  destruct H503 as [Hall Hsends].
  destruct Hgen as (Hidx & _ & s & e & Hl & He).
  { eapply Forall_impl; [exact Hall|]. apply serverError503_retryable. }
  split.
  { apply (f_equal length) in Hidx. rewrite !length_fmap in Hidx.
    rewrite Hidx, Hm3. reflexivity. }
  split; [exact Hall|]. split; [exact Hsends|].
  assert (Hin : Attempt m s true (Some e) ∈ res_events r).
  { apply last_Some in Hl as [l' ->]. apply elem_of_app. right. constructor. }
  rewrite Forall_forall in Hall. apply Hall in Hin as (a & e' & Heq & He503).
  simplify_eq. exists e'. split; [exact He|]. split; [exact He503|].
  unfold APIError_Unwrap. rewrite He503. reflexivity.
Qed.

(** ** Re-authentication *)

Lemma split_singleton {A : Type} (pre post : list A) (x y : A) :
  [x] = pre ++ y :: post -> pre = [] /\ y = x /\ post = [].
Proof.
  destruct pre as [|z pre]; cbn; intros Heq.
  - injection Heq as -> <-. auto.
  - injection Heq as _ Heq. destruct pre; discriminate.
Qed.

Section Reauthentication.
Context `{!Externals}.
Variable c : Client.
Variable env : Env.
Context {R : Type}.
Variable req : Request.
Variable result : option (string -> option R).

Lemma logged_logged (evs1 evs2 : list LoopEvent) (r : Result R) :
  logged evs1 (logged evs2 r) = logged (evs1 ++ evs2) r.
Proof. destruct r as [[[e v] w] l]. cbn. rewrite app_assoc. reflexivity. Qed.

(** The call made after a 401 does not restart, and a 401 ends it. *)
Lemma retryLoop_after401 (recur : World -> Result R) (n : nat) :
  forall (attempt : Z) (lastErr : option error) (w : World),
    let r := retryLoop c env req result true recur n attempt lastErr w in
    Forall (fun ev => isRestart ev = false) (res_events r)
    /\ unauthorizedIsTerminal (res_events r) (res_err r).
Proof.
  induction n as [|n IH]; intros attempt lastErr w r.
  { subst r. cbn. split; [constructor|].
    intros pre ev post Heq. destruct pre; discriminate. }
  subst r.
  remember (retryLoop c env req result true recur (S n) attempt lastErr w)
    as r eqn:Hr.
  pose proof (retryLoop_iteration c env req result true recur n attempt
                lastErr w) as Hit.
  rewrite <- Hr in Hit. clear Hr.
  destruct Hit as [err w1 Hs | w1 w2 o Hs Hd He | w1 w2 o err Hs Hd He H401 Hb
                  | w1 w2 o err Hs Hd He H401 Hnr
                  | w1 w2 o err Hs Hd He H401 Hre Hlast
                  | w1 w2 o err Hs Hd He H401 Hre Hmore].
  - cbn. split; [repeat constructor|].
    intros pre ev post Heq Hu.
    apply split_singleton in Heq as (_ & -> & _). discriminate.
  - cbn. split; [repeat constructor|].
    intros pre ev post Heq Hu.
    apply split_singleton in Heq as (_ & -> & _). discriminate.
  - discriminate.
  - cbn. split; [repeat constructor|].
    intros pre ev post Heq Hu.
    apply split_singleton in Heq as (_ & -> & ->).
    cbn in Hu. apply Z.eqb_eq in Hu. rewrite Hu. eauto 6.
  - cbn. split; [repeat constructor|].
    intros pre ev post Heq Hu.
    apply split_singleton in Heq as (_ & -> & ->).
    cbn in Hu. apply Z.eqb_eq in Hu. rewrite Hu. eauto 6.
  - assert (Hs401 : out_statusCode o <> 401).
    { intros Hx. apply (doOnce_401_no_retry _ _ _ _ _ _ _ Hd) in Hx.
      congruence. }
    destruct (res_logged [Attempt attempt (out_statusCode o) true (Some err)]
                (retryLoop c env req result true recur n (int_add attempt 1)
                   (Some err) w2)) as (Herr & _ & _ & Hev).
    destruct (IH (int_add attempt 1) (Some err) w2) as [Hnor Hterm].
    rewrite Herr, Hev. split.
    + constructor; [reflexivity|exact Hnor].
    + intros pre ev post Heq Hu. destruct pre as [|ev0 pre].
      * cbn in Heq. injection Heq as <- _. cbn in Hu.
        apply Z.eqb_eq in Hu. contradiction.
      * cbn in Heq. injection Heq as _ Heq. eapply Hterm; eauto.
Qed.

(** The first call either sees no 401 and never restarts, or restarts at its
    first 401, on the world that attempt left, the credential invalidated. *)
Lemma retryLoop_first401 (recur : World -> Result R) (n : nat) :
  forall (attempt : Z) (lastErr : option error) (w : World),
    let r := retryLoop c env req result false recur n attempt lastErr w in
    Forall uneventful (res_events r)
    \/ exists pre a rt e w1 o w2,
         Forall uneventful pre
         /\ doOnce c env req result w1 = (o, w2)
         /\ out_statusCode o = 401 /\ out_err o = Some e
         /\ r = logged (pre ++ [Attempt a 401 rt (Some e); Restart])
                  (recur (set_tokenMgr w2 (invalidate (tokenMgr w2)))).
Proof.
  induction n as [|n IH]; intros attempt lastErr w r.
  { left. constructor. }
  subst r.
  remember (retryLoop c env req result false recur (S n) attempt lastErr w)
    as r eqn:Hr.
  pose proof (retryLoop_iteration c env req result false recur n attempt
                lastErr w) as Hit.
  rewrite <- Hr in Hit. clear Hr.
  destruct Hit as [err w1 Hs | w1 w2 o Hs Hd He | w1 w2 o err Hs Hd He H401 Hb
                  | w1 w2 o err Hs Hd He H401 Hnr
                  | w1 w2 o err Hs Hd He H401 Hre Hlast
                  | w1 w2 o err Hs Hd He H401 Hre Hmore].
  - left. repeat constructor.
  - left. repeat constructor.
  - right. exists [], attempt, (out_shouldRetry o), err, w1, o, w2.
    split; [constructor|]. auto.
  - left. destruct H401 as [H401|]; [|discriminate].
    repeat constructor. cbn. apply Z.eqb_neq. exact H401.
  - left. destruct H401 as [H401|]; [|discriminate].
    repeat constructor. cbn. apply Z.eqb_neq. exact H401.
  - destruct H401 as [H401|]; [|discriminate].
    assert (Hev : uneventful (Attempt attempt (out_statusCode o) true (Some err))).
    { split; [reflexivity|]. cbn. apply Z.eqb_neq. exact H401. }
    destruct (IH (int_add attempt 1) (Some err) w2)
      as [Hclean | (pre & a & rt & e & w1' & o' & w2' & Hpre & Hd' & Hs' & He'
                    & Heq)].
    + left.
      destruct (res_logged [Attempt attempt (out_statusCode o) true (Some err)]
                  (retryLoop c env req result false recur n
                     (int_add attempt 1) (Some err) w2)) as (_ & _ & _ & ->).
      constructor; assumption.
    + right.
      exists (Attempt attempt (out_statusCode o) true (Some err) :: pre),
        a, rt, e, w1', o', w2'.
      split; [constructor; assumption|]. repeat (split; [assumption|]).
      rewrite Heq, logged_logged. reflexivity.
Qed.

End Reauthentication.

(** C2. A call of [doWithRetry] that has not taken the re-authentication
    path either sees no failed 401 attempt and never restarts, or at its
    first 401 invalidates the credential and continues as the call
    [doWithRetry(..., true)], with its own attempt budget, on the world that
    attempt left. That second call never restarts, and a 401 in it is its
    last event and its error the one returned: there is at most one restart
    per top-level call. *)
Theorem C2_reauthenticate_once `{!Externals} (c : Client) (env : Env)
  {R : Type} (req : Request) (result : option (string -> option R))
  (w : World) :
  let r := doWithRetry c env req result false w in
  (length (filter (fun ev => isRestart ev = true) (res_events r)) <= 1)%nat
  /\ (Forall uneventful (res_events r)
      \/ exists pre a rt e w1 o w2,
           let w3 := set_tokenMgr w2 (invalidate (tokenMgr w2)) in
           let r' := doWithRetry c env req result true w3 in
           Forall uneventful pre
           /\ doOnce c env req result w1 = (o, w2)
           /\ out_statusCode o = 401 /\ out_err o = Some e
           /\ accessToken (tokenMgr w3) = ""
           /\ res_events r
              = pre ++ [Attempt a 401 rt (Some e); Restart] ++ res_events r'
           /\ res_err r = res_err r' /\ res_value r = res_value r'
           /\ res_world r = res_world r'
           /\ Forall (fun ev => isRestart ev = false) (res_events r')
           /\ unauthorizedIsTerminal (res_events r') (res_err r))
  /\ (forall w',
        let r1 := doWithRetry c env req result true w' in
        Forall (fun ev => isRestart ev = false) (res_events r1)
        /\ unauthorizedIsTerminal (res_events r1) (res_err r1)).
Proof.
  intros r.
  assert (Hafter : forall w',
             let r1 := doWithRetry c env req result true w' in
             Forall (fun ev => isRestart ev = false) (res_events r1)
             /\ unauthorizedIsTerminal (res_events r1) (res_err r1)).
  { intros w' r1. subst r1. rewrite doWithRetry_unfold.
    apply retryLoop_after401. }
  assert (Hcount : forall evs,
             Forall (fun ev => isRestart ev = false) evs ->
             filter (fun ev => isRestart ev = true) evs = []).
  { induction evs as [|ev evs IH]; intros Hall; [reflexivity|].
    apply Forall_cons in Hall as [Hev Hall].
    rewrite filter_cons. rewrite decide_False by congruence. auto. }
  assert (Hfirst :
    Forall uneventful (res_events r)
    \/ exists pre a rt e w1 o w2,
         let w3 := set_tokenMgr w2 (invalidate (tokenMgr w2)) in
         let r' := doWithRetry c env req result true w3 in
         Forall uneventful pre
         /\ doOnce c env req result w1 = (o, w2)
         /\ out_statusCode o = 401 /\ out_err o = Some e
         /\ accessToken (tokenMgr w3) = ""
         /\ res_events r
            = pre ++ [Attempt a 401 rt (Some e); Restart] ++ res_events r'
         /\ res_err r = res_err r' /\ res_value r = res_value r'
         /\ res_world r = res_world r'
         /\ Forall (fun ev => isRestart ev = false) (res_events r')
         /\ unauthorizedIsTerminal (res_events r') (res_err r)).
  { subst r. rewrite doWithRetry_unfold.
    destruct (retryLoop_first401 c env req result
                (doWithRetry c env req result true)
                (Z.to_nat (maxAttempts c)) 0 None w)
      as [Hclean | (pre & a & rt & e & w1 & o & w2 & Hpre & Hd & Hs & He & Heq)].
    - left. exact Hclean.
    - right. exists pre, a, rt, e, w1, o, w2. cbn zeta.
      destruct (Hafter (set_tokenMgr w2 (invalidate (tokenMgr w2))))
        as [Hnor Hterm].
      destruct (res_logged (pre ++ [Attempt a 401 rt (Some e); Restart])
                  (doWithRetry c env req result true
                     (set_tokenMgr w2 (invalidate (tokenMgr w2)))))
        as (Herr & Hval & Hw & Hev).
      rewrite Heq, Herr, Hval, Hw, Hev.
      repeat (split; [first [assumption | reflexivity]|]).
      split; [rewrite <- app_assoc; reflexivity|].
      repeat (split; [first [assumption | reflexivity]|]). exact Hterm. }
  split; [|split; [exact Hfirst|exact Hafter]].
  destruct Hfirst as [Hclean | (pre & a & rt & e & w1 & o & w2 & Hpre & _ & _
                                & _ & _ & Hev & _ & _ & _ & Hnor & _)].
  - rewrite Hcount; [cbn; lia|].
    eapply Forall_impl; [exact Hclean|]. intros ev [Hr _]. exact Hr.
  - rewrite Hev, !filter_app, (Hcount pre), (Hcount (res_events _)); cbn.
    + rewrite decide_False by discriminate.
      rewrite decide_True by reflexivity. cbn. lia.
    + exact Hnor.
    + eapply Forall_impl; [exact Hpre|]. intros ev [Hr _]. exact Hr.
Qed.

(** ** Terminal outcomes *)

Lemma sleep_completes (env : Env) (now t : Time) (d : Duration) :
  sleep env now d = (None, t) -> t = now + Z.max 0 d.
Proof.
  unfold sleep, time_Add. intros Hs.
  repeat case_match; simplify_eq; reflexivity.
Qed.

(** X30. A 2xx response with a non-empty body that does not decode into
    the result ends the call at once with the parse error, whatever the
    attempt index and however many iterations are left: the request of
    this attempt is the last one sent. *)
Theorem X30_parse_failure_terminal `{!Externals} (c : Client) (env : Env)
  {R : Type} (req : Request) (unmarshal : string -> option R) (b : bool)
  (recur : World -> Result R) (n : nat) (attempt : Z)
  (lastErr : option error) (w w1 w2 : World) (o : Outcome R)
  (resp : Response) :
  backoffSleep c env attempt w = (None, w1) ->
  doOnce c env req (Some unmarshal) w1 = (o, w2) ->
  sends w2 = S (sends w1) ->
  (forall hr, fst (apiEndpoint env (sends w1) hr) = DoResponse resp) ->
  resp_ReadFails resp = false ->
  200 <= resp_StatusCode resp < 300 ->
  resp_Body resp <> "" ->
  unmarshal (resp_Body resp) = None ->
  let parseErr := EWrap "digikey: failed to parse response" EJSON in
  retryLoop c env req (Some unmarshal) b recur (S n) attempt lastErr w
  = (Some parseErr, None, w2,
     [Attempt attempt (resp_StatusCode resp) false (Some parseErr)])
  /\ sends w2 = S (sends w).
Proof.
  intros Hs Hd Hsent Hep Hread Hstatus Hbody Hjson parseErr.
  destruct (doOnce_sent c env req (Some unmarshal) w1 w2 o resp Hd Hsent Hep)
    as (w1' & Hcl & _).
  assert (Ho : o = mkOutcome (resp_StatusCode resp) false (Some parseErr) None).
  { unfold classify in Hcl. rewrite Hread in Hcl.
    destruct (Z.eqb_spec (resp_StatusCode resp) 429) as [?|_]; [lia|].
    destruct (Z.eqb_spec (resp_StatusCode resp) 401) as [?|_]; [lia|].
    destruct (Z.ltb_spec (resp_StatusCode resp) 200) as [?|_]; [lia|].
    destruct (Z.leb_spec 300 (resp_StatusCode resp)) as [?|_]; [lia|].
    cbn [orb] in Hcl.
    destruct (resp_Body resp) as [|a body]; [congruence|].
    rewrite Hjson in Hcl. cbn [String.length] in Hcl.
    destruct (Z.ltb_spec 0 (Z.of_nat (S (String.length body)))); [|lia].
    subst parseErr. congruence. }
  split.
  - cbn [retryLoop]. rewrite Hs, Hd, Ho. cbn.
    destruct (Z.eqb_spec (resp_StatusCode resp) 401) as [?|_]; [lia|].
    reflexivity.
  - apply backoffSleep_frame in Hs as (_ & _ & _ & _ & _ & Hse). congruence.
Qed.

(** C10. If an attempt that is not the last one is answered 429 with a
    positive Retry-After of [secs] seconds, and the backoff before the next
    attempt completes and lasts no longer than that, then the next attempt
    is refused by the limiter with a "minute" error, which the call returns
    at once: nothing more is sent and no credential is fetched. *)
Theorem C10_retry_after_gate `{!Externals} (c : Client) (env : Env)
  {R : Type} (req : Request) (result : option (string -> option R))
  (b : bool) (recur : World -> Result R) (attempt : Z)
  (lastErr : option error) (w w1 w2 : World) (o : Outcome R)
  (resp : Response) (secs : Z) :
  0 <= attempt < MaxRetries (retryConfig c) ->
  MaxRetries (retryConfig c) < int_max ->
  backoffSleep c env attempt w = (None, w1) ->
  doOnce c env req result w1 = (o, w2) ->
  sends w2 = S (sends w1) ->
  (forall hr, fst (apiEndpoint env (sends w1) hr) = DoResponse resp) ->
  resp_ReadFails resp = false ->
  resp_StatusCode resp = 429 ->
  parseRetryAfter (resp_RetryAfter resp) = secs -> 0 < secs ->
  let backoff := calculateBackoff (retryConfig c) (draws w2) attempt in
  fst (sleep env (clock w2) backoff) = None ->
  Z.max 0 backoff <= Seconds secs ->
  exists e apiErr w4,
    retryLoop c env req result b recur
      (Z.to_nat (maxAttempts c - attempt)) attempt lastErr w
    = (Some (ERateLimit e), None, w4,
       [Attempt attempt 429 true (Some apiErr);
        Attempt (attempt + 1) 0 false (Some (ERateLimit e))])
    /\ Type_ e = "minute"
    /\ minuteResetTime (rateLimiter w2) = time_Add (clock w2) (Seconds secs)
    /\ clock w4 = clock w2 + Z.max 0 backoff
    /\ sends w4 = sends w2 /\ exchanges w4 = exchanges w2
    /\ allowCalls w4 = S (allowCalls w2).
Proof.
  intros Ha Hm Hs Hd Hsent Hep Hread Hstatus Hsecs Hpos backoff Hsleep Hshort.
  assert (Hmax : maxAttempts c = MaxRetries (retryConfig c) + 1).
  { unfold maxAttempts, int_add. apply wrap_small.
    unfold int_min, int_max in *. lia. }
  assert (Hsub : int_sub (maxAttempts c) 1 = maxAttempts c - 1).
  { apply wrap_small. unfold int_min, int_max in *. lia. }
  assert (Hadd : int_add attempt 1 = attempt + 1).
  { apply wrap_small. unfold int_min, int_max in *. lia. }
  assert (Hsub1 : int_sub (attempt + 1) 1 = attempt).
  { unfold int_sub. rewrite wrap_small; unfold int_min, int_max in *; lia. }
  destruct (doOnce_sent c env req result w1 w2 o resp Hd Hsent Hep)
    as (w1' & Hcl & _).
  unfold classify in Hcl. rewrite Hread, Hstatus, Hsecs in Hcl.
  cbn [Z.eqb Pos.eqb] in Hcl. cbn zeta in Hcl.
  destruct (handleErrorResponse_status 429 (resp_Body resp)
              (resp_RequestId resp)) as (ae & Hae & _).
  injection Hcl as Ho Hw2.
  (* the limiter after the 429 *)
  assert (Hrl : minuteCount (rateLimiter w2) = minuteLimit (rateLimiter w2)
                /\ minuteResetTime (rateLimiter w2)
                   = time_Add (clock w2) (Seconds secs)).
  { rewrite Hw2. cbn. unfold UpdateFromResponse.
    destruct (Z.leb_spec secs 0); [lia|]. cbn. auto. }
  destruct Hrl as [Hcount Hreset].
  (* the backoff before the next attempt *)
  destruct (sleep env (clock w2) backoff) as [se t] eqn:Hsl.
  cbn in Hsleep. subst se. pose proof (sleep_completes _ _ _ _ Hsl) as Ht.
  set (w3 := set_clock (tick_draws w2) t).
  assert (Hs2 : backoffSleep c env (attempt + 1) w2 = (None, w3)).
  { unfold backoffSleep. destruct (Z.ltb_spec 0 (attempt + 1)); [|lia].
    rewrite Hsub1. fold backoff. rewrite Hsl. reflexivity. }
  (* the limiter refuses it *)
  destruct (Allow_minute_first (rateLimiter w3) (clock w3))
    as (e & He & Hty & _).
  { subst w3. cbn. unfold resetWindows, resetMinute, time_After.
    rewrite Hreset. unfold time_Add.
    destruct (Z.ltb_spec (clock w2 + Seconds secs) t); [lia|].
    unfold resetDay. destruct (time_After t _); cbn; lia. }
  exists e, (handleErrorResponse 429 (resp_Body resp) (resp_RequestId resp)).
  eexists. split; [|split; [exact Hty|split; [exact Hreset|]]].
  - replace (Z.to_nat (maxAttempts c - attempt))
      with (S (S (Z.to_nat (maxAttempts c - attempt - 2)))) by lia.
    cbn [retryLoop]. rewrite Hs, Hd, Ho.
    cbn [out_err out_statusCode out_shouldRetry Z.eqb Pos.eqb andb negb].
    destruct (Z.leb_spec (int_sub (maxAttempts c) 1) attempt); [lia|].
    rewrite Hadd, Hs2, (doOnce_refused c env req result w3 e _ He).
    cbn. reflexivity.
  - subst w3. cbn. auto.
Qed.

(** ** Cache hits *)

Lemma set_cache_same (w : World) (m : gmap string cacheEntry) :
  cache w = Some m -> set_cache w (Some m) = w.
Proof. destruct w. cbn. intros ->. reflexivity. Qed.

Lemma cacheLookup_hit `{!Externals} (c : Client) {A : Type}
  (unmarshal : string -> option A) (key : string) (w : World)
  (m : gmap string cacheEntry) (e : cacheEntry) (v : A) :
  Enabled (cacheConfig c) = true -> cache w = Some m ->
  m !! key = Some e -> clock w < ce_expiresAt e ->
  unmarshal (ce_value e) = Some v ->
  cacheLookup c unmarshal key w = (Some v, w).
Proof.
  intros Hen Hc Hl Hexp Hdec. unfold cacheLookup, cache_Get.
  rewrite Hc, Hen, Hl.
  destruct (Z.leb_spec (ce_expiresAt e) (clock w)); [lia|].
  rewrite set_cache_same by exact Hc. rewrite Hdec. reflexivity.
Qed.

(** C6. With caching enabled and an unexpired entry that decodes under the
    key of a valid request, [KeywordSearch] and [ProductDetails] return the
    decoded entry and leave the world exactly as it was: the limiter and its
    call count, the credential, the numbers of token exchanges and of
    requests sent, and the cache itself. The retry loop is not entered. *)
Theorem C6_cache_hit `{!Externals} (c : Client) (env : Env) (w : World)
  (m : gmap string cacheEntry) :
  Enabled (cacheConfig c) = true -> cache w = Some m ->
  (forall req e resp,
      Keywords req <> "" ->
      m !! cacheKeyForSearch (locale c) (clampLimit req) = Some e ->
      clock w < ce_expiresAt e ->
      json_Unmarshal_SearchResponse (ce_value e) = Some resp ->
      KeywordSearch c env (Some req) w = (inl resp, w, []))
  /\ (forall productNumber e resp,
        productNumber <> "" ->
        m !! cacheKeyForDetails (locale c) productNumber = Some e ->
        clock w < ce_expiresAt e ->
        json_Unmarshal_ProductDetailsResponse (ce_value e) = Some resp ->
        ProductDetails c env productNumber w = (inl resp, w, [])).
Proof.
  intros Hen Hc. split.
  - intros req e resp Hk Hl Hexp Hdec. unfold KeywordSearch.
    apply String.eqb_neq in Hk. rewrite Hk.
    rewrite (cacheLookup_hit c _ _ w m e resp Hen Hc Hl Hexp Hdec).
    reflexivity.
  - intros productNumber e resp Hp Hl Hexp Hdec. unfold ProductDetails.
    apply String.eqb_neq in Hp. rewrite Hp.
    rewrite (cacheLookup_hit c _ _ w m e resp Hen Hc Hl Hexp Hdec).
    reflexivity.
Qed.

(** ** Concurrent refresh *)

Lemma thread_update {A : Type} (l : list A) (i j : nat) (x y : A) :
  <[i := x]> l !! j = Some y ->
  (j = i /\ y = x) \/ (j <> i /\ l !! j = Some y).
Proof.
  intros Hl. destruct (decide (i = j)) as [->|Hne].
  - left. split; [reflexivity|].
    assert (Hlt : (j < length (<[j := x]> l))%nat)
      by (eapply lookup_lt_Some; eauto).
    rewrite length_insert in Hlt.
    rewrite list_lookup_insert_eq in Hl by exact Hlt. congruence.
  - right. rewrite list_lookup_insert_ne in Hl by exact Hne. auto.
Qed.

Section SingleFlight.
Context `{!Externals}.
Variable env : Env.
Variable tm0 : tokenManager.
Variable t0 : Time.
Variable resp : Response.
Variable tokenResp : tokenResponse.

Hypothesis Hstale : tokenFresh (accessToken tm0) (tokenExpiry tm0) t0 = false.
Hypothesis Hurl : http_NewRequest_ok "POST" (tokenURL tm0) = true.
Hypothesis Hreply : fst (tokenEndpoint env 0) = DoResponse resp.
Hypothesis Hread : resp_ReadFails resp = false.
Hypothesis Hstatus : resp_StatusCode resp = 200.
Hypothesis Hjson :
  json_Unmarshal_tokenResponse (resp_Body resp) = Some tokenResp.
Hypothesis Htoken : AccessToken tokenResp <> "".

Abbreviation horizon := (freshUntil t0 tokenResp).

Lemma step_clock (a : action) (s s' : Sys) :
  step env a s = Some s' -> sys_clock s <= sys_clock s'.
Proof.
  destruct a as [i|d]; cbn.
  - unfold step_thread, set_thread. intros Hs.
    repeat case_match; simplify_eq; cbn; lia.
  - destruct (Z.ltb_spec d 0); [discriminate|].
    intros [= <-]. cbn. unfold time_Add. lia.
Qed.

Lemma run_clock (acts : list action) :
  forall s s', run env acts s = Some s' -> sys_clock s <= sys_clock s'.
Proof.
  induction acts as [|a acts IH]; intros s s'; cbn.
  - intros [= <-]. lia.
  - destruct (step env a s) as [s1|] eqn:Hs; [|discriminate].
    intros Hr. apply step_clock in Hs. apply IH in Hr. lia.
Qed.

Lemma lockDiscipline_release (s : Sys) (i : nat) (p p' : pc)
  (tm : tokenManager) (k : nat) :
  lockDiscipline s -> sys_threads s !! i = Some p -> holder p = true ->
  holder p' = false ->
  lockDiscipline
    (mkSys (sys_clock s) tm false (<[i := p']> (sys_threads s)) k).
Proof.
  intros [Hfree Huniq] Hi Hp Hp'. split; cbn.
  - intros _ j q Hj. apply thread_update in Hj as [[-> ->]|[Hne Hj]];
      [exact Hp'|].
    destruct (holder q) eqn:Hq; [|reflexivity].
    exfalso. apply Hne. eapply Huniq; eauto.
  - intros j1 j2 q1 q2 Hj1 Hj2 Hq1 Hq2.
    apply thread_update in Hj1 as [[-> ->]|[Hne1 Hj1]]; [congruence|].
    apply thread_update in Hj2 as [[-> ->]|[Hne2 Hj2]]; [congruence|].
    eapply Huniq; eauto.
Qed.

Lemma lockDiscipline_keep (s : Sys) (i : nat) (p p' : pc) (k : nat) :
  lockDiscipline s -> sys_threads s !! i = Some p ->
  holder p' = holder p ->
  lockDiscipline
    (mkSys (sys_clock s) (sys_tm s) (sys_locked s)
           (<[i := p']> (sys_threads s)) k).
Proof.
  intros [Hfree Huniq] Hi Hp. split; cbn.
  - intros Hl j q Hj. apply thread_update in Hj as [[-> ->]|[Hne Hj]].
    + rewrite Hp. eapply Hfree; eauto.
    + eapply Hfree; eauto.
  - intros j1 j2 q1 q2 Hj1 Hj2 Hq1 Hq2.
    apply thread_update in Hj1 as [[-> ->]|[Hne1 Hj1]];
      apply thread_update in Hj2 as [[-> ->]|[Hne2 Hj2]]; try reflexivity.
    + rewrite Hp in Hq1. eapply Huniq; eauto.
    + rewrite Hp in Hq2. eapply Huniq; eauto.
    + eapply Huniq; eauto.
Qed.

Lemma lockDiscipline_acquire (s : Sys) (i : nat) (p' : pc) :
  lockDiscipline s -> sys_locked s = false ->
  lockDiscipline
    (mkSys (sys_clock s) (sys_tm s) true (<[i := p']> (sys_threads s))
           (sys_exchanges s)).
Proof.
  intros [Hfree Huniq] Hl. split; cbn; [discriminate|].
  intros j1 j2 q1 q2 Hj1 Hj2 Hq1 Hq2.
  apply thread_update in Hj1 as [[-> ->]|[Hne1 Hj1]];
    apply thread_update in Hj2 as [[-> ->]|[Hne2 Hj2]]; try reflexivity.
  - rewrite (Hfree Hl _ _ Hj2) in Hq2. discriminate.
  - rewrite (Hfree Hl _ _ Hj1) in Hq1. discriminate.
  - rewrite (Hfree Hl _ _ Hj1) in Hq1. discriminate.
Qed.

(** Replacing the thread that holds the lock leaves only threads that do
    not hold it. *)
Lemma others_do_not_hold (s : Sys) (i : nat) (p : pc) (P Q : pc -> Prop)
  (p' : pc) :
  lockDiscipline s -> sys_threads s !! i = Some p -> holder p = true ->
  Forall P (sys_threads s) ->
  (forall q, P q -> holder q = false -> Q q) -> Q p' ->
  Forall Q (<[i := p']> (sys_threads s)).
Proof.
  intros [_ Huniq] Hi Hp HP HPQ HQ. apply Forall_lookup. intros j q Hj.
  apply thread_update in Hj as [[-> ->]|[Hne Hj]]; [exact HQ|].
  apply HPQ; [eapply Forall_lookup; eauto|].
  destruct (holder q) eqn:Hq; [|reflexivity].
  exfalso. apply Hne. eapply Huniq; eauto.
Qed.

Lemma stale_stays (t : Time) :
  t0 <= t -> tokenFresh (accessToken tm0) (tokenExpiry tm0) t = false.
Proof. intros Ht. eapply tokenFresh_later; eauto. Qed.

Lemma stored_is_fresh (tm : tokenManager) (ts t : Time) :
  accessToken tm = AccessToken tokenResp ->
  t0 <= ts ->
  tokenExpiry tm = time_Add ts (Seconds (ExpiresIn tokenResp)) ->
  t < horizon ->
  tokenFresh (accessToken tm) (tokenExpiry tm) t = true.
Proof.
  intros Ha Hts He Ht. unfold tokenFresh, time_Before.
  rewrite Ha, He. apply String.eqb_neq in Htoken. rewrite Htoken. cbn [negb andb].
  apply Z.ltb_lt. unfold freshUntil, time_Add in *. lia.
Qed.

Lemma holder_locked (s : Sys) (i : nat) (p : pc) :
  lockDiscipline s -> sys_threads s !! i = Some p -> holder p = true ->
  sys_locked s = true.
Proof.
  intros [Hfree _] Hi Hp. destruct (sys_locked s) eqn:Hl; [reflexivity|].
  rewrite (Hfree eq_refl _ _ Hi) in Hp. discriminate.
Qed.

(** Every step made before the horizon keeps the invariant. *)
Lemma step_singleFlight (a : action) (s s' : Sys) :
  singleFlight tm0 t0 tokenResp s -> step env a s = Some s' ->
  sys_clock s' < horizon ->
  singleFlight tm0 t0 tokenResp s'.
Proof.
  intros (Hclock & Hu & Hlock & Hphase) Hstep Hhor.
  destruct a as [i|d].
  2:{ cbn in Hstep. destruct (Z.ltb_spec d 0); [discriminate|].
      injection Hstep as <-. unfold singleFlight. cbn.
      split; [unfold time_Add; lia|]. split; [exact Hu|].
      split; [exact Hlock|exact Hphase]. }
  cbn in Hstep. unfold step_thread in Hstep.
  destruct (sys_threads s !! i) as [p|] eqn:Hi; [|discriminate].
  destruct p as [|token expiry| | |k|res].
  - (* PStart: the read section of getToken *)
    destruct (sys_locked s) eqn:Hl; [discriminate|].
    injection Hstep as <-. unfold singleFlight, set_thread. cbn.
    split; [exact Hclock|]. split; [exact Hu|].
    split; [eapply lockDiscipline_keep; eauto|].
    destruct Hphase as [(He & Htm & Hall) | [(He & Htm & [j Hj] & Hall)
                                           | (He & Ha & Hts & Hall)]].
    + left. repeat split; try assumption.
      apply Forall_insert; [exact Hall|]. rewrite Htm. right. left. reflexivity.
    + pose proof (holder_locked s j _ Hlock Hj eq_refl). congruence.
    + right. right. repeat split; try assumption.
      apply Forall_insert; [exact Hall|]. right. right. left. reflexivity.
  - (* PSnapshot: the freshness test of getToken *)
    destruct (tokenFresh token expiry (sys_clock s)) eqn:Hf.
    + injection Hstep as <-.
      unfold singleFlight, set_thread. cbn.
      split; [exact Hclock|]. split; [exact Hu|].
      split; [eapply lockDiscipline_keep; eauto|].
      destruct Hphase as [(He & Htm & Hall) | [(He & Htm & [j Hj] & Hall)
                                             | (He & Ha & Hts & Hall)]].
      * exfalso. rewrite Forall_lookup in Hall.
        destruct (Hall _ _ Hi) as [Hx|[Hx|[Hx|Hx]]]; try discriminate Hx.
        injection Hx as -> ->.
        rewrite stale_stays in Hf by exact Hclock. discriminate.
      * exfalso. rewrite Forall_lookup in Hall.
        destruct (Hall _ _ Hi) as [Hx|[Hx|[Hx|Hx]]]; try discriminate Hx.
        injection Hx as -> ->.
        rewrite stale_stays in Hf by exact Hclock. discriminate.
      * right. right. repeat split; try assumption.
        apply Forall_insert; [exact Hall|]. do 5 right.
        rewrite Forall_lookup in Hall.
        destruct (Hall _ _ Hi) as [Hx|[Hx|[Hx|[Hx|[Hx|Hx]]]]];
          try discriminate Hx; injection Hx as -> ->; [|reflexivity].
        rewrite stale_stays in Hf by exact Hclock. discriminate.
    + injection Hstep as <-. unfold singleFlight, set_thread. cbn.
      split; [exact Hclock|]. split; [exact Hu|].
      split; [eapply lockDiscipline_keep; eauto|].
      destruct Hphase as [(He & Htm & Hall) | [(He & Htm & [j Hj] & Hall)
                                             | (He & Ha & Hts & Hall)]].
      * left. repeat split; try assumption.
        apply Forall_insert; [exact Hall|]. do 2 right. left. reflexivity.
      * right. left. repeat split; try assumption.
        -- exists j. rewrite list_lookup_insert_ne; [exact Hj|].
           intros ->. congruence.
        -- apply Forall_insert; [exact Hall|]. do 2 right. left. reflexivity.
      * right. right. repeat split; try assumption.
        apply Forall_insert; [exact Hall|]. do 3 right. left. reflexivity.
  - (* PWaitLock: mu.Lock() *)
    destruct (sys_locked s) eqn:Hl; [discriminate|].
    injection Hstep as <-. unfold singleFlight. cbn.
    split; [exact Hclock|]. split; [exact Hu|].
    split; [eapply lockDiscipline_acquire; eauto|].
    destruct Hphase as [(He & Htm & Hall) | [(He & Htm & [j Hj] & Hall)
                                           | (He & Ha & Hts & Hall)]].
    + left. repeat split; try assumption.
      apply Forall_insert; [exact Hall|]. do 3 right. reflexivity.
    + pose proof (holder_locked s j _ Hlock Hj eq_refl). congruence.
    + right. right. repeat split; try assumption.
      apply Forall_insert; [exact Hall|]. do 4 right. left. reflexivity.
  - (* PLocked: the re-check of refreshToken *)
    pose proof (holder_locked s i _ Hlock Hi eq_refl) as Hl.
    destruct Hphase as [(He & Htm & Hall) | [(He & Htm & [j Hj] & Hall)
                                           | (He & Ha & (ts & Hts & Hexp) & Hall)]].
    + assert (Hf : tokenFresh (accessToken (sys_tm s)) (tokenExpiry (sys_tm s))
                     (sys_clock s) = false)
        by (rewrite Htm; apply stale_stays; exact Hclock).
      assert (Hok : http_NewRequest_ok "POST" (tokenURL (sys_tm s)) = true)
        by (rewrite Hu; exact Hurl).
      rewrite Hf, Hok in Hstep. cbn [negb] in Hstep.
      injection Hstep as <-. unfold singleFlight. cbn.
      split; [exact Hclock|]. split; [exact Hu|].
      split.
      { pose proof (lockDiscipline_keep s i PLocked
                      (PExchanging (sys_exchanges s)) (S (sys_exchanges s))
                      Hlock Hi eq_refl) as Hk.
        rewrite Hl in Hk. exact Hk. }
      right. left. rewrite He. repeat split; try assumption.
      * exists i. apply list_lookup_insert_eq. eapply lookup_lt_Some; eauto.
      * eapply (others_do_not_hold s i PLocked (pcBefore tm0)); eauto.
        -- intros q [-> | [-> | [-> | ->]]] Hq; try discriminate.
           ++ left. reflexivity.
           ++ right. left. reflexivity.
           ++ do 2 right. left. reflexivity.
        -- do 3 right. reflexivity.
    + rewrite Forall_lookup in Hall.
      destruct (Hall _ _ Hi) as [?|[?|[?|?]]]; discriminate.
    + assert (Hc : sys_clock s <= sys_clock s').
      { apply (step_clock (Run i)). cbn. unfold step_thread. rewrite Hi.
        exact Hstep. }
      rewrite (stored_is_fresh (sys_tm s) ts (sys_clock s)) in Hstep;
        [|assumption..|lia].
      injection Hstep as <-. unfold singleFlight. cbn.
      split; [exact Hclock|]. split; [exact Hu|].
      split; [eapply lockDiscipline_release; eauto|].
      right. right. repeat split; try assumption.
      * exists ts. auto.
      * apply Forall_insert; [exact Hall|]. do 5 right. reflexivity.
  - (* PExchanging: httpClient.Do returns *)
    destruct Hphase as [(He & Htm & Hall) | [(He & Htm & [j Hj] & Hall)
                                           | (He & Ha & Hts & Hall)]].
    + rewrite Forall_lookup in Hall.
      destruct (Hall _ _ Hi) as [?|[?|[?|?]]]; discriminate.
    + assert (k = 0%nat) as ->.
      { rewrite Forall_lookup in Hall.
        destruct (Hall _ _ Hi) as [?|[?|[?|?]]]; congruence. }
      rewrite Hreply in Hstep. unfold refreshToken_finish in Hstep.
      rewrite Hread, Hstatus, Hjson in Hstep. cbn in Hstep.
      injection Hstep as <-. unfold singleFlight. cbn.
      split; [exact Hclock|]. split; [exact Hu|].
      split; [eapply lockDiscipline_release; eauto|].
      right. right. repeat split; try assumption.
      * exists (sys_clock s). auto.
      * eapply (others_do_not_hold s i (PExchanging 0) (pcDuring tm0)); eauto.
        -- intros q [-> | [-> | [-> | ->]]] Hq; try discriminate.
           ++ left. reflexivity.
           ++ right. left. reflexivity.
           ++ do 3 right. left. reflexivity.
        -- do 5 right. reflexivity.
    + rewrite Forall_lookup in Hall.
      destruct (Hall _ _ Hi) as [?|[?|[?|[?|[?|?]]]]]; discriminate.
  - discriminate.
Qed.

Lemma run_singleFlight (acts : list action) :
  forall s s',
    singleFlight tm0 t0 tokenResp s -> run env acts s = Some s' ->
    sys_clock s' < horizon ->
    singleFlight tm0 t0 tokenResp s'.
Proof.
  induction acts as [|a acts IH]; intros s s' Hinv; cbn.
  - intros [= <-] _. exact Hinv.
  - destruct (step env a s) as [s1|] eqn:Hs; [|discriminate].
    intros Hr Hhor. eapply IH; [|exact Hr|exact Hhor].
    eapply step_singleFlight; [exact Hinv|exact Hs|].
    apply run_clock in Hr. lia.
Qed.

Lemma init_singleFlight (n : nat) :
  singleFlight tm0 t0 tokenResp (initSys n tm0 t0).
Proof.
  unfold singleFlight, initSys. cbn.
  split; [lia|]. split; [reflexivity|]. split.
  - split; cbn.
    + intros _ i p Hi. apply lookup_replicate in Hi as [-> _]. reflexivity.
    + intros i j p q Hi _ Hp. apply lookup_replicate in Hi as [-> _].
      discriminate.
  - left. repeat split. apply Forall_replicate. left. reflexivity.
Qed.

(** When every caller has returned before the horizon, one exchange has
    been made and every caller holds its token. *)
Lemma singleFlight_done (s : Sys) :
  singleFlight tm0 t0 tokenResp s ->
  sys_threads s <> [] ->
  Forall (fun p => isDone p = true) (sys_threads s) ->
  sys_exchanges s = 1%nat
  /\ accessToken (sys_tm s) = AccessToken tokenResp
  /\ Forall (fun p => p = PDone (inl (AccessToken tokenResp))) (sys_threads s).
Proof.
  intros (_ & _ & _ & Hphase) Hne Hdone.
  destruct Hphase as [(He & Htm & Hall) | [(He & Htm & [j Hj] & Hall)
                                         | (He & Ha & Hts & Hall)]].
  - exfalso. destruct (sys_threads s) as [|p l]; [congruence|].
    apply Forall_cons in Hall as [Hp _]. apply Forall_cons in Hdone as [Hd _].
    destruct Hp as [-> | [-> | [-> | ->]]]; discriminate.
  - exfalso. rewrite Forall_lookup in Hdone.
    apply Hdone in Hj. discriminate.
  - split; [exact He|]. split; [exact Ha|].
    apply Forall_lookup. intros i p Hi.
    rewrite Forall_lookup in Hall, Hdone.
    pose proof (Hdone _ _ Hi) as Hd.
    destruct (Hall _ _ Hi) as [-> | [-> | [-> | [-> | [-> | ->]]]]];
      try discriminate.
    rewrite Ha. reflexivity.
Qed.

End SingleFlight.

Lemma step_threads_length `{!Externals} (env : Env) (a : action)
  (s s' : Sys) :
  step env a s = Some s' -> length (sys_threads s') = length (sys_threads s).
Proof.
  destruct a as [i|d]; cbn.
  - unfold step_thread, set_thread. intros Hs.
    repeat case_match; simplify_eq; cbn; apply length_insert.
  - destruct (d <? 0); [discriminate|]. intros [= <-]. reflexivity.
Qed.

Lemma run_threads_length `{!Externals} (env : Env) (acts : list action) :
  forall s s',
    run env acts s = Some s' -> length (sys_threads s') = length (sys_threads s).
Proof.
  induction acts as [|a acts IH]; intros s s'; cbn.
  - intros [= <-]. reflexivity.
  - destruct (step env a s) as [s1|] eqn:Hs; [|discriminate].
    intros Hr. apply step_threads_length in Hs. apply IH in Hr. congruence.
Qed.

(** C4 (amended). [n] callers enter [getToken] concurrently and find no
    fresh credential. If the first token exchange is answered with a
    decodable 200 carrying a non-empty token, and all callers return while
    that token is still fresh (before its expiry less the 60 s buffer), then
    under every schedule exactly one exchange was issued, and every caller
    returned that one token. *)
Theorem C4_single_flight `{!Externals} (env : Env) (n : nat)
  (tm : tokenManager) (now : Time) (resp : Response)
  (tokenResp : tokenResponse) (acts : list action) (s : Sys) :
  (0 < n)%nat ->
  tokenFresh (accessToken tm) (tokenExpiry tm) now = false ->
  http_NewRequest_ok "POST" (tokenURL tm) = true ->
  fst (tokenEndpoint env 0) = DoResponse resp ->
  resp_ReadFails resp = false ->
  resp_StatusCode resp = 200 ->
  json_Unmarshal_tokenResponse (resp_Body resp) = Some tokenResp ->
  AccessToken tokenResp <> "" ->
  run env acts (initSys n tm now) = Some s ->
  Forall (fun p => isDone p = true) (sys_threads s) ->
  sys_clock s < now + Seconds (ExpiresIn tokenResp) - tokenExpiryBuffer ->
  sys_exchanges s = 1%nat
  /\ length (sys_threads s) = n
  /\ accessToken (sys_tm s) = AccessToken tokenResp
  /\ Forall (fun p => p = PDone (inl (AccessToken tokenResp))) (sys_threads s).
Proof.
  intros Hn Hstale Hurl Hreply Hread Hstatus Hjson Htoken Hrun Hdone Hhor.
  assert (Hlen : length (sys_threads s) = n).
  { apply run_threads_length in Hrun. rewrite Hrun. cbn.
    apply length_replicate. }
  assert (Hinv : singleFlight tm now tokenResp s).
  { eapply (run_singleFlight env tm now resp tokenResp); eauto.
    apply init_singleFlight. }
  destruct (singleFlight_done tm now tokenResp s Hinv) as (He & Ha & Hall).
  - intros Hnil. rewrite Hnil in Hlen. cbn in Hlen. lia.
  - exact Hdone.
  - auto.
Qed.

(** The claim as the specification words it fails: when the token endpoint
    refuses the exchange, each of two concurrent callers issues its own. *)
Lemma C4_counterexample : ~ exactlyOneExchange.
Proof.
  intros Hclaim.
  assert (Hrun : exists s,
             run (H:=exampleExternals) credentialsRefused twoCallers
               (initSys 2 (newTokenManager "id" "secret" "") 0) = Some s
             /\ Forall (fun p => isDone p = true) (sys_threads s)
             /\ sys_exchanges s = 2%nat).
  { vm_compute. eexists. split; [reflexivity|].
    split; [repeat constructor|reflexivity]. }
  destruct Hrun as (s & Hrun & Hdone & He).
  specialize (Hclaim exampleExternals credentialsRefused 2%nat
                (newTokenManager "id" "secret" "") 0 twoCallers s).
  rewrite Hclaim in He; [discriminate|lia|reflexivity|exact Hrun|exact Hdone].
Qed.

(** C9. The handler of [TestClientEmptyResponse], which answers 200 and
    writes nothing, reached by a client that obtains its token. The empty
    body does not decode, yet [doOnce] skips [json.Unmarshal] when
    [len(respBody)] is zero: [KeywordSearch] returns the zero response and
    no error after a single attempt, and stores that response in the
    cache, where the test expects an error. *)
Theorem C9_empty_body_accepted :
  let env := serverAnswering 200 "" "" in
  let req := {| Keywords := "test"; Limit_ := 5; Offset := 0 |} in
  let r :=
    KeywordSearch (H:=exampleExternals) exampleClient env (Some req)
      (freshWorld 0) in
  @json_Unmarshal_SearchResponse exampleExternals "" = None
  /\ r.1.1 = inl (@SearchResponse_zero exampleExternals)
  /\ r.2 = [Attempt 0 200 false None]
  /\ sends r.1.2 = 1%nat
  /\ exists m,
       cache r.1.2 = Some m
       /\ ce_value
            <$> m !! @cacheKeyForSearch exampleExternals
                       (locale exampleClient) req
          = @json_Marshal_SearchResponse exampleExternals
              (@SearchResponse_zero exampleExternals).
Proof.
  intros env req r.
  split; [reflexivity|].
  split; [vm_compute; reflexivity|].
  split; [vm_compute; reflexivity|].
  split; [vm_compute; reflexivity|].
  destruct (cache r.1.2) as [m|] eqn:Hm; [|vm_compute in Hm; discriminate Hm].
  exists m. split; [reflexivity|].
  vm_compute in Hm. injection Hm as <-.
  vm_compute. reflexivity.
Qed.

(** * The properties on concrete runs *)

(** The limiter scenario of the repository's tests: five of ten calls used,
    then a Retry-After of 60 s. *)
Example limiter_after_retry_after :
  let r := snd (allowMany (H:=exampleExternals)
                  (NewRateLimiterWithLimits 10 100 0) [1; 2; 3; 4; 5]) in
  let r' := UpdateFromResponse r 60 6 in
  (exists e, fst (Allow (H:=exampleExternals) r' 7) = Some e
             /\ Type_ e = "minute")
  /\ MinuteRemaining (fst (Stats r' 7)) = 0
  /\ DayUsed (fst (Stats r' 7)) = 5.
Proof. vm_compute. split; [eexists; split; reflexivity|]. split; reflexivity. Qed.

(** The classification cases of the repository's tests. *)
Example shouldRetry_cases :
  shouldRetry None 429 = true /\ shouldRetry None 500 = true
  /\ shouldRetry None 502 = true /\ shouldRetry None 503 = true
  /\ shouldRetry None 504 = true /\ shouldRetry None 400 = false
  /\ shouldRetry None 404 = false
  /\ shouldRetry (Some (ENet (mkNetError true true))) 0 = true.
Proof. repeat split; reflexivity. Qed.

(** A second [refreshToken] answers from the cache: one exchange in all. *)
Example refreshToken_twice :
  let env := serverAnswering 200 "" "" in
  let '(t1, w1) := refreshToken (H:=exampleExternals) env (freshWorld 0) in
  let '(t2, w2) := refreshToken (H:=exampleExternals) env w1 in
  t1 = inl "test-token" /\ t2 = t1 /\ exchanges w2 = 1%nat.
Proof. vm_compute. repeat split; reflexivity. Qed.

(** 503 on every request, [MaxRetries = 3]: four attempts, with backoffs of
    0.5 s, 1 s and 2 s between them. *)
Example always_503 :
  let r :=
    do (H:=exampleExternals) exampleClient (serverAnswering 503 "" "")
      exampleRequest (Some decodesAsObject) (freshWorld 0) in
  attemptIndex <$> res_events r = [Some 0; Some 1; Some 2; Some 3]
  /\ sends (res_world r) = 4%nat /\ draws (res_world r) = 3%nat
  /\ clock (res_world r) = 3590000000.
Proof. vm_compute. repeat split; reflexivity. Qed.

(** The same server when the caller's context ends after 2 s: the third
    backoff is cut short and the call returns the context's error after
    three attempts. *)
Example always_503_deadline :
  let r :=
    do (H:=exampleExternals) exampleClient unavailableWithDeadline
      exampleRequest (Some decodesAsObject) (freshWorld 0) in
  res_err r = Some (ECtx DeadlineExceeded)
  /\ attemptIndex <$> res_events r = [Some 0; Some 1; Some 2; None]
  /\ sends (res_world r) = 3%nat.
Proof. vm_compute. repeat split; reflexivity. Qed.

(** A 401, then success on the restarted call: the result is returned and
    the restarted call is at its attempt 0. *)
Example reauthenticate_then_succeed :
  let r :=
    do (H:=exampleExternals) exampleClient serverRejectingOnce
      exampleRequest (Some decodesAsObject) (freshWorld 0) in
  res_err r = None /\ res_value r = Some "{part}"
  /\ attemptIndex <$> res_events r = [Some 0; None; Some 0]
  /\ exchanges (res_world r) = 2%nat /\ sends (res_world r) = 2%nat
  /\ draws (res_world r) = 0%nat.
Proof. vm_compute. repeat split; reflexivity. Qed.

(** 401 on every request: one restart, then the 401 is returned. *)
Example always_401 :
  let r :=
    do (H:=exampleExternals) exampleClient (serverAnswering 401 "" "")
      exampleRequest (Some decodesAsObject) (freshWorld 0) in
  (exists e, res_err r = Some (EAPI e)
             /\ APIError_Unwrap e = Some ErrUnauthorized)
  /\ isRestart <$> res_events r = [false; true; false]
  /\ sends (res_world r) = 2%nat.
Proof. vm_compute. split; [eexists; split; reflexivity|]. split; reflexivity. Qed.

Lemma C3_witness :
  exists r e,
    allowMany (H:=exampleExternals) (NewRateLimiterWithLimits 5 100 0)
      [1; 2; 3; 4; 5] = (replicate 5 None, r)
    /\ Allow (H:=exampleExternals) r 6 = (Some e, r) /\ Type_ e = "minute".
Proof.
  destruct (C3_minute_limit (H:=exampleExternals) 5 100 0 [1; 2; 3; 4; 5] 6)
    as [(r & Hr & _ & _ & e & He & Ht & _) _].
  - lia.
  - lia.
  - unfold int_max. lia.
  - reflexivity.
  - repeat constructor; vm_compute; discriminate.
  - vm_compute. discriminate.
  - exists r, e. auto.
Defined.

Lemma C7_witness :
  let r := NewRateLimiterWithLimits 10 100 0 in
  UpdateFromResponse r (-10) 1000 = r
  /\ minuteCount (UpdateFromResponse r 60 1000) = 10
  /\ minuteResetTime (UpdateFromResponse r 60 1000) = 1000 + 60 * Second.
Proof.
  intros r.
  destruct (C7_update_from_response (H:=exampleExternals) r (-10) 1000)
    as [Hneg _].
  destruct (C7_update_from_response (H:=exampleExternals) r 60 1000)
    as [_ Hpos].
  destruct Hpos as (Hc & _ & Hr & _); [lia|].
  split; [apply Hneg; lia|]. split; [exact Hc|]. apply Hr. lia.
Defined.

Lemma C8_witness :
  exists r,
    allowMany (H:=exampleExternals) (NewRateLimiterWithLimits 10 100 0)
      [1; 2; 3] = (replicate 3 None, r)
    /\ MinuteUsed (fst (Stats r 4)) = 3
    /\ MinuteRemaining (fst (Stats r 4)) = 7
    /\ DayUsed (fst (Stats r 4)) = 3
    /\ DayRemaining (fst (Stats r 4)) = 97.
Proof.
  destruct (C8_stats (H:=exampleExternals) 10 100 3 0 [1; 2; 3] 4)
    as [(r & Hr & Hs) _].
  - lia.
  - lia.
  - lia.
  - unfold int_max. lia.
  - unfold int_max. lia.
  - reflexivity.
  - repeat constructor; vm_compute; discriminate.
  - vm_compute. discriminate.
  - exists r. split; [exact Hr|exact Hs].
Defined.

Lemma C5_witness :
  let env := serverAnswering 200 "" "" in
  let w' := snd (refreshToken (H:=exampleExternals) env (freshWorld 0)) in
  exchanges w' = 1%nat
  /\ accessToken (tokenMgr w') = "test-token"
  /\ tokenExpiry (tokenMgr w') = clock w' + 3600 * Second.
Proof.
  intros env w'.
  destruct (C5_getToken (H:=exampleExternals) env (freshWorld 0))
    as (_ & _ & _ & _ & _ & Hstale & _).
  destruct Hstale as [Hex Hstore]; [reflexivity|reflexivity|].
  split; [exact Hex|].
  destruct (Hstore (mkResponse 200 "{test-token" "" "" false) 10000000
              (mkTokenResponse "test-token" "Bearer" 3600))
    as (_ & _ & Ha & _ & He); [reflexivity..|].
  split; [exact Ha|]. apply He. cbn. lia.
Defined.

Lemma C1_witness :
  let r :=
    doWithRetry (H:=exampleExternals) exampleClient (serverAnswering 503 "" "")
      exampleRequest (Some decodesAsObject) false (freshWorld 0) in
  attemptIndex <$> res_events r = [Some 0; Some 1; Some 2; Some 3]
  /\ sends (res_world r) = 4%nat
  /\ exists e, res_err r = Some (EAPI e)
               /\ APIError_Unwrap e = Some ErrServerError.
Proof.
  intros r.
  destruct (C1_retry_budget (H:=exampleExternals) exampleClient
              (serverAnswering 503 "" "") exampleRequest
              (Some decodesAsObject) false (freshWorld 0))
    as [Hgen H503].
  - cbn. unfold int_max. lia.
  - destruct Hgen as (Hidx & _).
    { vm_compute. repeat constructor. }
    destruct H503 as (_ & _ & Hsends & e & He & _ & Hun).
    + reflexivity.
    + reflexivity.
    + intros k. do 3 eexists. repeat split; reflexivity.
    + intros k hr. do 2 eexists. repeat split; reflexivity.
    + split; [discriminate|reflexivity].
    + unfold headroom. cbn. unfold int_max. lia.
    + reflexivity.
    + split; [exact Hidx|]. split; [exact Hsends|]. exists e. auto.
Defined.

Lemma C2_witness :
  let r :=
    doWithRetry (H:=exampleExternals) exampleClient (serverAnswering 401 "" "")
      exampleRequest (Some decodesAsObject) false (freshWorld 0) in
  (length (filter (fun ev => isRestart ev = true) (res_events r)) <= 1)%nat
  /\ sends (res_world r) = 2%nat.
Proof.
  intros r.
  destruct (C2_reauthenticate_once (H:=exampleExternals) exampleClient
              (serverAnswering 401 "" "") exampleRequest
              (Some decodesAsObject) (freshWorld 0)) as (Hone & _).
  split; [exact Hone|]. vm_compute. reflexivity.
Defined.

Lemma C4_witness :
  exists s,
    run (H:=exampleExternals) (serverAnswering 200 "" "") twoCallersServed
      (initSys 2 (newTokenManager "id" "secret" "") 0) = Some s
    /\ sys_exchanges s = 1%nat
    /\ sys_threads s = [PDone (inl "test-token"); PDone (inl "test-token")].
Proof.
  assert (Hrun : exists s,
             run (H:=exampleExternals) (serverAnswering 200 "" "")
               twoCallersServed
               (initSys 2 (newTokenManager "id" "secret" "") 0) = Some s
             /\ Forall (fun p => isDone p = true) (sys_threads s)
             /\ sys_clock s < 0 + Seconds 3600 - tokenExpiryBuffer
             /\ length (sys_threads s) = 2%nat).
  { eexists. split; [vm_compute; reflexivity|].
    split; [repeat constructor|]. split; [vm_compute|]; reflexivity. }
  destruct Hrun as (s & Hrun & Hdone & Hclock & Hlen).
  exists s. split; [exact Hrun|].
  destruct (C4_single_flight (H:=exampleExternals) (serverAnswering 200 "" "")
              2 (newTokenManager "id" "secret" "") 0
              (mkResponse 200 "{test-token" "" "" false)
              (mkTokenResponse "test-token" "Bearer" 3600)
              twoCallersServed s) as (He & _ & _ & Hall).
  - lia.
  - reflexivity.
  - reflexivity.
  - reflexivity.
  - reflexivity.
  - reflexivity.
  - reflexivity.
  - discriminate.
  - exact Hrun.
  - exact Hdone.
  - exact Hclock.
  - split; [exact He|].
    destruct (sys_threads s) as [|p [|q [|x l]]]; try discriminate Hlen.
    apply Forall_cons in Hall as [-> Hall].
    apply Forall_cons in Hall as [-> _]. reflexivity.
Defined.

Lemma C6_witness :
  KeywordSearch (H:=exampleExternals) exampleClient (serverAnswering 503 "" "")
    (Some (mkSearchRequest "STM32F4" 0 0)) cachedWorld
  = (inl "{found}", cachedWorld, [])
  /\ ProductDetails (H:=exampleExternals) exampleClient
       (serverAnswering 503 "" "") "497-15360-ND" cachedWorld
     = (inl "{part}", cachedWorld, []).
Proof.
  destruct (C6_cache_hit (H:=exampleExternals) exampleClient
              (serverAnswering 503 "" "") cachedWorld
              (cache_Set
                 (cache_Set ∅ "search:US:en:USD:STM32F4:10:0" "{found}" 100 0)
                 "details:US:en:USD:497-15360-ND" "{part}" 100 0))
    as [Hsearch Hdetails]; [reflexivity|reflexivity|].
  split.
  - apply (Hsearch (mkSearchRequest "STM32F4" 0 0)
             (mkCacheEntry "{found}" 100)).
    + discriminate.
    + vm_compute. reflexivity.
    + cbn. lia.
    + reflexivity.
  - apply (Hdetails "497-15360-ND" (mkCacheEntry "{part}" 100)).
    + discriminate.
    + vm_compute. reflexivity.
    + cbn. lia.
    + reflexivity.
Defined.

Lemma X30_witness :
  let r :=
    retryLoop (H:=exampleExternals) exampleClient
      (serverAnswering 200 "<html>" "") exampleRequest (Some decodesAsObject)
      false (fun w => (None, None, w, [])) 4 0 None (freshWorld 0) in
  res_err r = Some (EWrap "digikey: failed to parse response" EJSON)
  /\ res_events r
     = [Attempt 0 200 false
          (Some (EWrap "digikey: failed to parse response" EJSON))]
  /\ sends (res_world r) = 1%nat.
Proof.
  intros r.
  pose (ow := doOnce (H:=exampleExternals) exampleClient
                (serverAnswering 200 "<html>" "") exampleRequest
                (Some decodesAsObject) (freshWorld 0)).
  destruct (X30_parse_failure_terminal (H:=exampleExternals) exampleClient
              (serverAnswering 200 "<html>" "") exampleRequest decodesAsObject
              false (fun w => (None, None, w, [])) 3 0 None
              (freshWorld 0) (freshWorld 0) (snd ow) (fst ow)
              (mkResponse 200 "<html>" "" "req-1" false)) as [Hr Hs].
  - reflexivity.
  - subst ow. destruct (doOnce _ _ _ _ _). reflexivity.
  - vm_compute. reflexivity.
  - intros hr. reflexivity.
  - reflexivity.
  - cbn. lia.
  - discriminate.
  - reflexivity.
  - subst r. rewrite Hr. cbn [res_err res_events res_world fst snd].
    split; [reflexivity|]. split; [reflexivity|exact Hs].
Defined.

Lemma C10_witness :
  let r :=
    retryLoop (H:=exampleExternals) exampleClient
      (serverAnswering 429 "" "60") exampleRequest (Some decodesAsObject)
      false (fun w => (None, None, w, [])) 4 0 None (freshWorld 0) in
  exists e, res_err r = Some (ERateLimit e) /\ Type_ e = "minute"
            /\ sends (res_world r) = 1%nat.
Proof.
  intros r.
  pose (ow := doOnce (H:=exampleExternals) exampleClient
                (serverAnswering 429 "" "60") exampleRequest
                (Some decodesAsObject) (freshWorld 0)).
  destruct (C10_retry_after_gate (H:=exampleExternals) exampleClient
              (serverAnswering 429 "" "60") exampleRequest
              (Some decodesAsObject) false (fun w => (None, None, w, []))
              0 None (freshWorld 0) (freshWorld 0) (snd ow) (fst ow)
              (mkResponse 429 "" "60" "req-1" false) 60)
    as (e & apiErr & w4 & Hr & Hty & _ & _ & Hsends & _).
  - cbn. lia.
  - cbn. unfold int_max. lia.
  - reflexivity.
  - subst ow. destruct (doOnce _ _ _ _ _). reflexivity.
  - vm_compute. reflexivity.
  - intros hr. reflexivity.
  - reflexivity.
  - reflexivity.
  - vm_compute. reflexivity.
  - lia.
  - vm_compute. reflexivity.
  - vm_compute. discriminate.
  - exists e. subst r.
    change (4%nat) with (Z.to_nat (maxAttempts exampleClient - 0)).
    rewrite Hr. cbn [res_err res_events res_world fst snd].
    split; [reflexivity|]. split; [exact Hty|].
    rewrite Hsends. vm_compute. reflexivity.
Defined.

(** * Further properties of the code *)

(** ** RateLimiter: the day window, window resets, bursts *)

Section MoreRateLimiterFacts.
Context `{!Externals}.

Lemma allowMany_app (ts1 ts2 : list Time) : forall r : RateLimiter,
  allowMany r (ts1 ++ ts2)
  = (fst (allowMany r ts1) ++ fst (allowMany (snd (allowMany r ts1)) ts2),
     snd (allowMany (snd (allowMany r ts1)) ts2)).
Proof.
  induction ts1 as [|t ts1 IH]; intros r.
  - cbn. destruct (allowMany r ts2); reflexivity.
  - cbn [app allowMany]. destruct (Allow r t) as [e r1].
    rewrite IH. destruct (allowMany r1 ts1) as [es r2]. cbn.
    reflexivity.
Qed.

(** With room in the minute window and none in the day window, [Allow]
    refuses with a "day" error. *)
Lemma Allow_day_refusal (r : RateLimiter) (now : Time) :
  minuteCount (resetWindows r now) < minuteLimit (resetWindows r now) ->
  dayLimit (resetWindows r now) <= dayCount (resetWindows r now) ->
  exists e, Allow r now = (Some e, resetWindows r now)
            /\ Type_ e = "day" /\ Limit e = dayLimit r /\ Remaining e = 0
            /\ ResetAt e
               = time_Format_RFC3339 (dayResetTime (resetWindows r now)).
Proof.
  intros Hm Hd. unfold Allow.
  destruct (Z.leb_spec (minuteLimit (resetWindows r now))
                       (minuteCount (resetWindows r now))); [lia|].
  destruct (Z.leb_spec (dayLimit (resetWindows r now))
                       (dayCount (resetWindows r now))); [|lia].
  eexists. split; [reflexivity|]. cbn.
  destruct (resetWindows_limits r now) as [_ ->]. auto.
Qed.

(** What [Allow] answers, in terms of the counts after the lazy resets. *)
Lemma Allow_granted_iff (r : RateLimiter) (now : Time) :
  fst (Allow r now) = None
  <-> effectiveCount (minuteCount r) (minuteResetTime r) now < minuteLimit r
      /\ effectiveCount (dayCount r) (dayResetTime r) now < dayLimit r.
Proof.
  unfold Allow, effectiveCount.
  destruct (resetWindows_counts r now) as [Hmc Hdc].
  destruct (resetWindows_limits r now) as [Hml Hdl].
  rewrite Hmc, Hdc, Hml, Hdl.
  destruct (Z.leb_spec (minuteLimit r)
              (if time_After now (minuteResetTime r) then 0 else minuteCount r));
    [cbn; split; [discriminate|lia]|].
  destruct (Z.leb_spec (dayLimit r)
              (if time_After now (dayResetTime r) then 0 else dayCount r));
    cbn; split; try discriminate; try lia; auto.
Qed.

End MoreRateLimiterFacts.

(** X1. A fresh limiter whose day limit [D] is below its minute limit grants
    [D] calls made inside the first minute and then refuses every call made
    up to the end of the day window with a "day" error, also after the
    minute window has been reset; the refusals leave the day count at [D]. *)
Theorem X1_Allow_day_limit `{!Externals} (M D : Z) (t0 : Time)
  (ts : list Time) :
  0 <= D -> D < M -> M <= int_max ->
  length ts = Z.to_nat D ->
  Forall (fun u => u <= time_Add t0 Minute) ts ->
  exists r,
    allowMany (NewRateLimiterWithLimits M D t0) ts
    = (replicate (Z.to_nat D) None, r)
    /\ forall t, t <= time_Add t0 (24 * Hour) ->
         exists e, fst (Allow r t) = Some e
                   /\ Type_ e = "day" /\ Limit e = D /\ Remaining e = 0
                   /\ dayCount (snd (Allow r t)) = D
                   /\ dayResetTime (snd (Allow r t)) = time_Add t0 (24 * Hour).
Proof.
  intros HD HDM HM Hlen Hts.
  assert (HlenZ : Z.of_nat (length ts) = D) by lia.
  set (r := mkRateLimiter D (time_Add t0 Minute) D (time_Add t0 (24 * Hour)) M D).
  exists r. split.
  { rewrite allowMany_fresh; try lia; [|exact Hts].
    rewrite HlenZ, Hlen. reflexivity. }
  intros t Ht.
  destruct (resetWindows_counts r t) as [Hmc Hdc].
  destruct (resetWindows_limits r t) as [Hml Hdl].
  assert (Hday : time_After t (dayResetTime r) = false).
  { unfold time_After. cbn. apply Z.ltb_ge. exact Ht. }
  rewrite Hday in Hdc. cbn in Hmc, Hdc, Hml, Hdl.
  destruct (Allow_day_refusal r t) as (e & Ha & Hty & Hli & Hre & _).
  - rewrite Hmc, Hml. destruct (time_After t (time_Add t0 Minute)); lia.
  - rewrite Hdc, Hdl. lia.
  - exists e. rewrite Ha. cbn [fst snd]. repeat split; auto.
    unfold resetWindows, resetDay.
    replace (dayResetTime (resetMinute r t)) with (dayResetTime r)
      by (unfold resetMinute; destruct (time_After t (minuteResetTime r));
          reflexivity).
    rewrite Hday. unfold resetMinute.
    destruct (time_After t (minuteResetTime r)); reflexivity.
Qed.

(** X2. Once the minute window has passed, [Allow] is granted whatever the
    minute count was, provided the day window has room: it restarts the
    minute count at 1 and opens a window of one minute at the instant of
    the call. In particular the block set by [UpdateFromResponse] ends
    with its Retry-After interval. *)
Theorem X2_Allow_window_reset `{!Externals} (r : RateLimiter) (now : Time) :
  0 < minuteLimit r ->
  effectiveCount (dayCount r) (dayResetTime r) now < dayLimit r ->
  (minuteResetTime r < now ->
   fst (Allow r now) = None
   /\ minuteCount (snd (Allow r now)) = 1
   /\ minuteResetTime (snd (Allow r now)) = time_Add now Minute)
  /\ (forall retryAfterSeconds now0,
        0 < retryAfterSeconds ->
        time_Add now0 (Seconds retryAfterSeconds) < now ->
        let r' := UpdateFromResponse r retryAfterSeconds now0 in
        fst (Allow r' now) = None
        /\ minuteCount (snd (Allow r' now)) = 1
        /\ minuteResetTime (snd (Allow r' now)) = time_Add now Minute).
Proof.
  intros Hlim Hday.
  assert (Hgen : forall r0,
    minuteLimit r0 = minuteLimit r -> dayLimit r0 = dayLimit r ->
    dayCount r0 = dayCount r -> dayResetTime r0 = dayResetTime r ->
    minuteResetTime r0 < now ->
    fst (Allow r0 now) = None
    /\ minuteCount (snd (Allow r0 now)) = 1
    /\ minuteResetTime (snd (Allow r0 now)) = time_Add now Minute).
  { intros r0 Hml Hdl Hdc Hdr Hpast.
    assert (Haft : time_After now (minuteResetTime r0) = true)
      by (apply Z.ltb_lt; exact Hpast).
    unfold effectiveCount in Hday.
    unfold Allow, resetWindows, resetMinute. rewrite Haft.
    unfold resetDay. cbn [dayResetTime]. rewrite Hdr.
    destruct (time_After now (dayResetTime r)); cbn;
      rewrite ?Hml, ?Hdl, ?Hdc.
    - destruct (Z.leb_spec (minuteLimit r) 0); [lia|].
      destruct (Z.leb_spec (dayLimit r) 0); [lia|]. cbn. auto.
    - destruct (Z.leb_spec (minuteLimit r) 0); [lia|].
      destruct (Z.leb_spec (dayLimit r) (dayCount r)); [lia|]. cbn. auto. }
  split.
  - intros Hpast. apply Hgen; auto.
  - intros n now0 Hn Hpast r'. subst r'. unfold UpdateFromResponse.
    destruct (Z.leb_spec n 0); [lia|]. apply Hgen; auto.
Qed.

Section LimiterInvariant.
Context `{!Externals}.

Lemma Allow_withinLimits (r : RateLimiter) (now : Time) :
  withinLimits r ->
  withinLimits (snd (Allow r now))
  /\ minuteLimit (snd (Allow r now)) = minuteLimit r
  /\ dayLimit (snd (Allow r now)) = dayLimit r.
Proof.
  unfold withinLimits. intros (Hm & Hd & Hml & Hdl).
  unfold Allow, resetWindows, resetMinute, resetDay, int_add.
  destruct (time_After now (minuteResetTime r));
    cbn [minuteCount minuteResetTime dayCount dayResetTime minuteLimit dayLimit];
    destruct (time_After now (dayResetTime r));
    cbn [minuteCount minuteResetTime dayCount dayResetTime minuteLimit dayLimit];
    repeat match goal with
           | |- context [?a <=? ?b] => destruct (Z.leb_spec a b)
           end;
    cbn [fst snd minuteCount minuteResetTime dayCount dayResetTime
         minuteLimit dayLimit];
    rewrite ?wrap_small by (unfold int_min, int_max in *; lia);
    unfold int_max in *; lia.
Qed.

Lemma limiterStep_withinLimits (r : RateLimiter) (call : limiterCall) :
  withinLimits r ->
  withinLimits (limiterStep r call)
  /\ minuteLimit (limiterStep r call) = minuteLimit r
  /\ dayLimit (limiterStep r call) = dayLimit r.
Proof.
  intros Hr. destruct call as [now|now|now|n now]; cbn [limiterStep].
  - apply Allow_withinLimits. exact Hr.
  - cbn. auto.
  - auto.
  - unfold UpdateFromResponse. destruct (n <=? 0); [auto|].
    unfold withinLimits in *. cbn. lia.
Qed.

Lemma limiterRun_withinLimits (calls : list limiterCall) :
  forall r, withinLimits r ->
    withinLimits (limiterRun r calls)
    /\ minuteLimit (limiterRun r calls) = minuteLimit r
    /\ dayLimit (limiterRun r calls) = dayLimit r.
Proof.
  unfold limiterRun.
  induction calls as [|call calls IH]; intros r Hr; [cbn; auto|].
  cbn [fold_left].
  destruct (limiterStep_withinLimits r call Hr) as (Hs & Hml & Hdl).
  destruct (IH _ Hs) as (Hr' & Hml' & Hdl').
  rewrite Hml', Hdl', Hml, Hdl. auto.
Qed.

End LimiterInvariant.

(** X3. Whatever calls a limiter built with limits in range receives, in
    whatever order and at whatever instants, its limits stay what they were
    and its counters stay between zero and the limits: no window ever
    records more grants than its limit. *)
Theorem X3_limiter_counts_within_limits `{!Externals} (M D : Z) (t0 : Time)
  (calls : list limiterCall) :
  0 <= M <= int_max -> 0 <= D <= int_max ->
  let r := limiterRun (NewRateLimiterWithLimits M D t0) calls in
  0 <= minuteCount r <= M /\ 0 <= dayCount r <= D
  /\ minuteLimit r = M /\ dayLimit r = D.
Proof.
  intros HM HD r.
  destruct (limiterRun_withinLimits calls (NewRateLimiterWithLimits M D t0))
    as ((Hm & Hd & _) & Hml & Hdl).
  { unfold withinLimits. cbn. lia. }
  fold r in Hm, Hd, Hml, Hdl. cbn in Hml, Hdl. lia.
Qed.

(** X4. On a limiter whose counters are within its limits, the snapshot of
    [Stats] adds up (used plus remaining is the limit, nothing negative) and
    tells what [Allow] would answer at the same instant: the call is granted
    exactly when both windows report something remaining. *)
Theorem X4_Stats_predicts_Allow `{!Externals} (r : RateLimiter) (now : Time) :
  withinLimits r ->
  let s := fst (Stats r now) in
  MinuteUsed s + MinuteRemaining s = MinuteLimit s
  /\ DayUsed s + DayRemaining s = DayLimit s
  /\ 0 <= MinuteRemaining s /\ 0 <= DayRemaining s
  /\ (fst (Allow r now) = None <-> 0 < MinuteRemaining s /\ 0 < DayRemaining s).
Proof.
  intros Hr s. destruct Hr as (Hm & Hd & Hml & Hdl).
  assert (Hmr : MinuteRemaining s
                = minuteLimit r
                  - effectiveCount (minuteCount r) (minuteResetTime r) now).
  { subst s. cbn. unfold effectiveCount, int_sub.
    apply wrap_small. unfold int_min, int_max in *.
    destruct (time_After now (minuteResetTime r)); lia. }
  assert (Hdr : DayRemaining s
                = dayLimit r
                  - effectiveCount (dayCount r) (dayResetTime r) now).
  { subst s. cbn. unfold effectiveCount, int_sub.
    apply wrap_small. unfold int_min, int_max in *.
    destruct (time_After now (dayResetTime r)); lia. }
  rewrite Allow_granted_iff, Hmr, Hdr.
  subst s. cbn [Stats fst MinuteUsed MinuteLimit DayUsed DayLimit].
  unfold effectiveCount.
  destruct (time_After now (minuteResetTime r));
    destruct (time_After now (dayResetTime r)); lia.
Qed.

(** Case analysis on the comparisons of a goal, innermost first. *)
Ltac no_conditional t :=
  lazymatch t with
  | context [if _ then _ else _] => fail
  | _ => idtac
  end.

Ltac compare_cases :=
  repeat (match goal with
          | |- context [?a <? ?b] =>
              no_conditional a; no_conditional b; destruct (Z.ltb_spec a b)
          | |- context [?a <=? ?b] =>
              no_conditional a; no_conditional b; destruct (Z.leb_spec a b)
          end; cbn [andb]).

(** X5. [WaitTime] is never negative and is zero whenever [Allow] would be
    granted. A positive wait is a strict bound: an [Allow] made exactly
    that much later is still refused, because a window is reset only
    strictly after its reset time. With positive limits, and unless the wait
    is the saturated maximum, every [Allow] made later than that is
    granted. *)
Theorem X5_WaitTime_bounds_Allow `{!Externals} (r : RateLimiter) (now : Time) :
  0 <= WaitTime r now
  /\ (fst (Allow r now) = None -> WaitTime r now = 0)
  /\ (0 < WaitTime r now ->
      exists e, fst (Allow r (time_Add now (WaitTime r now))) = Some e)
  /\ (0 < minuteLimit r -> 0 < dayLimit r -> WaitTime r now < int_max ->
      forall t, time_Add now (WaitTime r now) < t -> fst (Allow r t) = None).
Proof.
  assert (Hnone : forall t,
            fst (Allow r t) <> None -> exists e, fst (Allow r t) = Some e).
  { intros t Hn. destruct (fst (Allow r t)) as [e|]; [eauto|congruence]. }
  assert (Hsub : forall u, now < u ->
            0 < time_Sub u now /\ time_Sub u now <= u - now
            /\ (time_Sub u now < int_max -> time_Sub u now = u - now)).
  { intros u Hu. unfold time_Sub, int_min, int_max. lia. }
  pose proof (Hsub (minuteResetTime r)) as Hs1.
  pose proof (Hsub (dayResetTime r)) as Hs2.
  clear Hsub.
  repeat split.
  - unfold WaitTime, time_After, time_Before. compare_cases; lia.
  - rewrite Allow_granted_iff. unfold effectiveCount, WaitTime.
    intros [Hm Hd].
    apply Z.ltb_lt in Hm, Hd. rewrite Hm, Hd. reflexivity.
  - intros Hpos. apply Hnone. rewrite Allow_granted_iff.
    unfold effectiveCount, time_After, time_Add.
    revert Hpos. unfold WaitTime, time_After, time_Before.
    compare_cases; lia.
  - intros Hml Hdl Hsat t Ht. rewrite Allow_granted_iff.
    unfold effectiveCount, time_After, time_Add in *.
    revert Hsat Ht. unfold WaitTime, time_After, time_Before.
    compare_cases; lia.
Qed.

(** The first call of a new minute window, inside the day window. *)
Lemma Allow_new_window `{!Externals} (r : RateLimiter) (now : Time) :
  minuteResetTime r < now -> now <= dayResetTime r ->
  0 < minuteLimit r -> 0 <= dayCount r < dayLimit r -> dayLimit r <= int_max ->
  Allow r now
  = (None, mkRateLimiter 1 (time_Add now Minute) (dayCount r + 1)
             (dayResetTime r) (minuteLimit r) (dayLimit r)).
Proof.
  intros Hpast Hday Hml Hdc Hdl.
  unfold Allow, resetWindows, resetMinute, resetDay, time_After.
  destruct (Z.ltb_spec (minuteResetTime r) now); [|lia].
  cbn [dayResetTime].
  destruct (Z.ltb_spec (dayResetTime r) now); [lia|].
  cbn [minuteCount minuteResetTime dayCount dayResetTime minuteLimit dayLimit].
  destruct (Z.leb_spec (minuteLimit r) 0); [lia|].
  destruct (Z.leb_spec (dayLimit r) (dayCount r)); [lia|].
  unfold int_add. rewrite !wrap_small by (unfold int_min, int_max in *; lia).
  reflexivity.
Qed.

(** X6. The windows are fixed, not sliding: a fresh limiter with minute
    limit [M] grants [M] calls made at the last instant of its first minute
    window and [M] more made one nanosecond later, [2 M] calls in all,
    provided the day limit allows them. *)
Theorem X6_Allow_burst_at_window_edge `{!Externals} (M D : Z) (t0 : Time) :
  0 <= M -> 2 * M <= D -> D <= int_max ->
  let edge := time_Add t0 Minute in
  fst (allowMany (NewRateLimiterWithLimits M D t0)
         (replicate (Z.to_nat M) edge ++ replicate (Z.to_nat M) (edge + 1)))
  = replicate (Z.to_nat M) None ++ replicate (Z.to_nat M) None.
Proof.
  intros HM HD HDmax edge.
  assert (Hmin : Minute < 24 * Hour) by (unfold Hour, Minute, Second; lia).
  assert (Hpos : 0 < Minute) by (unfold Minute, Second; lia).
  rewrite allowMany_app.
  rewrite allowMany_fresh;
    rewrite ?length_replicate; try lia;
    [|apply Forall_replicate; subst edge; lia].
  cbn [fst snd]. f_equal.
  rewrite Z2Nat.id by lia.
  destruct (Z.to_nat M) as [|k] eqn:Hk; [reflexivity|].
  cbn [replicate allowMany].
  rewrite Allow_new_window;
    cbn [minuteCount minuteResetTime dayCount dayResetTime minuteLimit dayLimit];
    subst edge; unfold time_Add in *; try lia.
  rewrite allowMany_in_window;
    cbn [minuteCount minuteResetTime dayCount dayResetTime minuteLimit dayLimit];
    rewrite ?length_replicate; try lia.
  - reflexivity.
  - apply Forall_replicate. cbn [minuteResetTime dayResetTime].
    unfold time_Add. lia.
Qed.

(** ** CredentialManager: refused exchanges, tokens that are never reused *)

(** Which sentinel an [APIError] matches is a matter of its status alone. *)
Lemma errors_Is_EAPI (e : APIError) :
  (errors_Is (EAPI e) ErrUnauthorized = true <-> StatusCode e = 401)
  /\ (errors_Is (EAPI e) ErrForbidden = true <-> StatusCode e = 403)
  /\ (errors_Is (EAPI e) ErrNotFound = true <-> StatusCode e = 404)
  /\ (errors_Is (EAPI e) ErrRateLimitExceeded = true <-> StatusCode e = 429)
  /\ (errors_Is (EAPI e) ErrInvalidRequest = true <-> StatusCode e = 400)
  /\ (errors_Is (EAPI e) ErrServerError = true <-> 500 <= StatusCode e).
Proof.
  cbn [errors_Is]. unfold APIError_Unwrap.
  repeat match goal with
         | |- context [?a =? ?b] => destruct (Z.eqb_spec a b)
         | |- context [?a <=? ?b] => destruct (Z.leb_spec a b)
         end;
    rewrite ?bool_decide_eq_true;
    repeat split; intros; try discriminate; try lia; try reflexivity.
Qed.

(** X7. A [refreshToken] that fails leaves the stored credential as it was.
    When the token endpoint answers with a status other than 200, the error
    is the [AuthError] the body decodes to if its [error] field is not
    empty, and otherwise an [APIError] carrying the status and the body; it
    matches [ErrUnauthorized] exactly when it is such an [AuthError] or the
    status is 401. *)
Theorem X7_refreshToken_failure `{!Externals} (env : Env) (w w' : World)
  (e : error) :
  refreshToken env w = (inr e, w') ->
  tokenMgr w' = tokenMgr w
  /\ forall resp latency,
       exchanges w' = S (exchanges w) ->
       tokenEndpoint env (exchanges w) = (DoResponse resp, latency) ->
       resp_ReadFails resp = false ->
       resp_StatusCode resp <> 200 ->
       let structured :=
         exists a, json_Unmarshal_AuthError (resp_Body resp) = Some a
                   /\ Err a <> "" in
       (forall a, json_Unmarshal_AuthError (resp_Body resp) = Some a ->
                  Err a <> "" -> e = EAuth a)
       /\ (~ structured ->
           e = EAPI {| StatusCode := resp_StatusCode resp;
                       Message := "token request failed";
                       Details := resp_Body resp;
                       RequestID := "" |})
       /\ (errors_Is e ErrUnauthorized = true
           <-> structured \/ resp_StatusCode resp = 401).
Proof.
  unfold refreshToken. intros Hr.
  destruct (tokenFresh _ _ _); [discriminate|].
  destruct (negb (http_NewRequest_ok _ _)).
  { injection Hr as <- <-. split; [reflexivity|].
    intros resp latency Hex. lia. }
  destruct (tokenEndpoint env (exchanges w)) as [reply latency0] eqn:Hep.
  destruct (refreshToken_finish _ _ _) as [res tm'] eqn:Hfin.
  injection Hr as -> <-. cbn [tokenMgr set_tokenMgr].
  unfold refreshToken_finish in Hfin. split.
  { repeat case_match; simplify_eq; reflexivity. }
  intros resp latency _ [= -> ->] Hread Hst.
  rewrite Hread in Hfin.
  destruct (Z.eqb_spec (resp_StatusCode resp) 200) as [?|_]; [contradiction|].
  cbn [negb] in Hfin.
  assert (Hne : forall s : string, negb (String.eqb s "") = true <-> s <> "").
  { intros s. rewrite negb_true_iff. apply String.eqb_neq. }
  destruct (json_Unmarshal_AuthError (resp_Body resp)) as [a|] eqn:Ha.
  - destruct (negb (String.eqb (Err a) "")) eqn:Herr.
    + apply Hne in Herr. injection Hfin as <- _.
      split; [|split; [|split]].
      * intros a' [= <-] _. reflexivity.
      * intros Hns. exfalso. apply Hns. exists a. auto.
      * intros _. left. exists a. auto.
      * intros _. reflexivity.
    + assert (Hempty : Err a = "").
      { destruct (String.eqb_spec (Err a) ""); [assumption|discriminate]. }
      injection Hfin as <- _.
      split; [|split; [|split]].
      * intros a' [= <-] Hbad. contradiction.
      * intros _. reflexivity.
      * intros Hu. right. apply errors_Is_EAPI in Hu. exact Hu.
      * intros [(a' & [= <-] & Hbad)|Hs]; [contradiction|].
        apply errors_Is_EAPI. exact Hs.
  - injection Hfin as <- _.
    split; [|split; [|split]].
    + intros a [=].
    + intros _. reflexivity.
    + intros Hu. right. apply errors_Is_EAPI in Hu. exact Hu.
    + intros [(a' & [=] & _)|Hs].
      apply errors_Is_EAPI. exact Hs.
Qed.

(** X8. [refreshToken] stores whatever a decodable 200 answer carries. A
    token that is empty, or whose [expires_in] is 60 seconds or less, is
    returned to the caller as a success but is never fresh afterwards: every
    later [getToken] goes to the token endpoint again. *)
Theorem X8_short_lived_token_never_reused `{!Externals} (env : Env) (w : World)
  (resp : Response) (latency : Duration) (tokenResp : tokenResponse) :
  tokenFresh (accessToken (tokenMgr w)) (tokenExpiry (tokenMgr w)) (clock w)
  = false ->
  http_NewRequest_ok "POST" (tokenURL (tokenMgr w)) = true ->
  tokenEndpoint env (exchanges w) = (DoResponse resp, latency) ->
  resp_ReadFails resp = false ->
  resp_StatusCode resp = 200 ->
  json_Unmarshal_tokenResponse (resp_Body resp) = Some tokenResp ->
  AccessToken tokenResp = "" \/ -9223372036 <= ExpiresIn tokenResp <= 60 ->
  let w' := snd (getToken env w) in
  fst (getToken env w) = inl (AccessToken tokenResp)
  /\ accessToken (tokenMgr w') = AccessToken tokenResp
  /\ forall w2,
       tokenMgr w2 = tokenMgr w' -> clock w' <= clock w2 ->
       exchanges (snd (getToken env w2)) = S (exchanges w2).
Proof.
  intros Hstale Hurl Hep Hread Hst Hjson Hshort.
  assert (Hg : getToken env w
               = (inl (AccessToken tokenResp),
                  set_tokenMgr
                    (set_clock (tick_exchanges w) (time_Add (clock w) latency))
                    (setToken (tokenMgr w) (AccessToken tokenResp)
                       (time_Add (time_Add (clock w) latency)
                          (Seconds (ExpiresIn tokenResp)))))).
  { unfold getToken. rewrite Hstale.
    rewrite (refreshToken_stale env w Hstale Hurl). rewrite Hep.
    cbn [fst snd]. unfold refreshToken_finish.
    rewrite Hread, Hst, Hjson. reflexivity. }
  rewrite Hg. cbn [fst snd]. repeat split.
  intros w2 Htm Hclock.
  assert (Hnot : tokenFresh (accessToken (tokenMgr w2))
                   (tokenExpiry (tokenMgr w2)) (clock w2) = false).
  { rewrite Htm. cbn. unfold tokenFresh.
    destruct Hshort as [-> | Hexp]; [reflexivity|].
    rewrite Seconds_exact by lia.
    apply andb_false_iff. right. unfold time_Before, time_Add.
    apply Z.ltb_ge. cbn in Hclock. unfold time_Add in Hclock.
    unfold tokenExpiryBuffer, Second in *. lia. }
  unfold getToken. rewrite Hnot.
  rewrite (refreshToken_stale env w2 Hnot); [reflexivity|].
  rewrite Htm. cbn. exact Hurl.
Qed.

(** ** The pipeline: what a call costs and what it leaves alone *)

Lemma advances_refl (w : World) : advances 0 w w.
Proof. unfold advances. repeat apply conj; auto; lia. Qed.

Lemma advances_trans (j k : nat) (w1 w2 w3 : World) :
  advances j w1 w2 -> advances k w2 w3 -> advances (j + k) w1 w3.
Proof.
  unfold advances.
  intros (Ha & Hs & He & Hc & Hm & Hd & Hu & Hw)
         (Ha' & Hs' & He' & Hc' & Hm' & Hd' & Hu' & Hw').
  repeat apply conj; try lia; try congruence; auto.
Qed.

Lemma countAttempts_app (evs1 evs2 : list LoopEvent) :
  countAttempts (evs1 ++ evs2) = (countAttempts evs1 + countAttempts evs2)%nat.
Proof. unfold countAttempts. rewrite List.filter_app, length_app. reflexivity. Qed.

Section PipelineAccounting.
Context `{!Externals}.
Variable c : Client.
Variable env : Env.
Context {R : Type}.
Variable req : Request.
Variable result : option (string -> option R).

Lemma Allow_limits (r : RateLimiter) (now : Time) :
  minuteLimit (snd (Allow r now)) = minuteLimit r
  /\ dayLimit (snd (Allow r now)) = dayLimit r.
Proof.
  unfold Allow. destruct (resetWindows_limits r now) as [Hm Hd].
  repeat case_match; cbn; auto.
Qed.

Lemma getToken_advances (w w' : World) (res : string + error) :
  getToken env w = (res, w') ->
  (exchanges w <= exchanges w' <= S (exchanges w))%nat
  /\ tokenURL (tokenMgr w') = tokenURL (tokenMgr w).
Proof.
  unfold getToken, refreshToken, refreshToken_finish. intros Hg.
  repeat case_match; simplify_eq; cbn; split; auto; lia.
Qed.

Lemma classify_advances (resp : Response) (w w' : World) (o : Outcome R) :
  classify result resp w = (o, w') -> advances 0 w w'.
Proof.
  unfold classify. intros Hc.
  destruct (resp_ReadFails resp); [simplify_eq; apply advances_refl|].
  destruct (resp_StatusCode resp =? 429).
  - injection Hc as _ <-. unfold advances, UpdateFromResponse. cbn.
    destruct (parseRetryAfter (resp_RetryAfter resp) <=? 0); cbn;
      repeat apply conj; auto; try lia;
      unfold withinLimits; cbn; lia.
  - repeat case_match; simplify_eq; apply advances_refl.
Qed.

Lemma doOnce_advances (w w' : World) (o : Outcome R) :
  doOnce c env req result w = (o, w') -> advances 1 w w'.
Proof.
  unfold doOnce. intros Hd.
  destruct (Allow_limits (rateLimiter w) (clock w)) as [Hl1 Hl2].
  pose proof (Allow_withinLimits (rateLimiter w) (clock w)) as Hwl.
  destruct (Allow (rateLimiter w) (clock w)) as [allowErr rl].
  cbn [snd] in Hl1, Hl2, Hwl.
  assert (Hbase : advances 1 w (set_rateLimiter (tick_allowCalls w) rl)).
  { unfold advances. cbn. repeat apply conj; auto; try lia.
    intros Hx. apply Hwl in Hx. tauto. }
  destruct allowErr; [simplify_eq; exact Hbase|].
  destruct (getToken env _) as [tok w1] eqn:Hg.
  assert (Htok : advances 1 w w1).
  { destruct (getToken_frame env _ _ _ Hg) as (Hrl & Hca & Hac & Hse & Hdr).
    destruct (getToken_advances _ _ _ Hg) as (Hex & Hurl).
    cbn in Hrl, Hca, Hac, Hse, Hex, Hurl.
    unfold advances in *. rewrite Hrl, Hca, Hac, Hse, Hurl. cbn.
    repeat apply conj; auto; try lia.
    intros Hx. apply Hwl in Hx. tauto. }
  destruct tok as [token|err]; [|simplify_eq; exact Htok].
  assert (Hsent :
    forall body,
      (if negb (http_NewRequest_ok (rq_method req) (baseURL c +:+ rq_path req))
       then (mkOutcome 0 false
               (Some (EWrap "digikey: failed to create request" ENewRequest))
               None, w1)
       else
         let httpReq :=
           {| hr_method := rq_method req;
              hr_url := baseURL c +:+ rq_path req;
              hr_body := body;
              hr_Authorization := "Bearer " +:+ token;
              hr_ClientId := clientID c;
              hr_Locale := locale c |} in
         let '(reply, latency) := apiEndpoint env (sends w1) httpReq in
         let w2 := set_clock (tick_sends w1) (time_Add (clock w1) latency) in
         match reply with
         | DoError err =>
             (mkOutcome 0 (shouldRetry (Some err) 0)
                (Some (EWrap "digikey: request failed" err)) None, w2)
         | DoResponse resp => classify result resp w2
         end) = (o, w') -> advances 1 w w').
  { clear Hd. intros body Hb.
    destruct (negb (http_NewRequest_ok _ _)); [simplify_eq; exact Htok|].
    cbn zeta in Hb.
    destruct (apiEndpoint env (sends w1) _) as [reply latency].
    assert (Hw2 : advances 1 w
                    (set_clock (tick_sends w1) (time_Add (clock w1) latency))).
    { unfold advances in *. cbn.
      destruct Htok as (Ha & Hs & He & Hc & Hm & Hdl & Hu & Hw).
      assert (sends w1 = sends w).
      { destruct (getToken_frame env _ _ _ Hg) as (_ & _ & _ & Hse & _).
        exact Hse. }
      repeat apply conj; auto; lia. }
    destruct reply as [err|resp]; [simplify_eq; exact Hw2|].
    apply classify_advances in Hb.
    apply (advances_trans 1 0 _ _ _ Hw2 Hb). }
  destruct (rq_body req) as [[body|]|].
  - apply (Hsent body). exact Hd.
  - simplify_eq. exact Htok.
  - apply (Hsent ""). exact Hd.
Qed.

Lemma backoffSleep_advances (attempt : Z) (w w' : World) (e : option error) :
  backoffSleep c env attempt w = (e, w') -> advances 0 w w'.
Proof.
  intros Hb. apply backoffSleep_frame in Hb
    as (Hrl & Htm & Hca & Hac & Hex & Hse).
  unfold advances. rewrite Hrl, Htm, Hca, Hac, Hex, Hse.
  repeat apply conj; auto; lia.
Qed.

Lemma invalidate_advances (w : World) :
  advances 0 w (set_tokenMgr w (invalidate (tokenMgr w))).
Proof. unfold advances. cbn. repeat apply conj; auto; lia. Qed.

(** The loop of [doWithRetry], entered with [n] iterations left, makes at
    most [n] attempts of its own, and then those of the call it may make
    after a 401. *)
Lemma retryLoop_advances (b : bool) (recur : World -> Result R) (m n : nat) :
  (forall w,
      advances (countAttempts (res_events (recur w))) w (res_world (recur w))
      /\ (countAttempts (res_events (recur w)) <= m)%nat) ->
  forall (attempt : Z) (lastErr : option error) (w : World),
    let r := retryLoop c env req result b recur n attempt lastErr w in
    advances (countAttempts (res_events r)) w (res_world r)
    /\ (countAttempts (res_events r) <= n + m)%nat.
Proof.
  intros Hrec. induction n as [|n' IH]; intros attempt lastErr w r.
  { subst r. cbn. split; [apply advances_refl|lia]. }
  subst r.
  remember (retryLoop c env req result b recur (S n') attempt lastErr w) as r
    eqn:Hr.
  pose proof (retryLoop_iteration c env req result b recur n' attempt lastErr w)
    as Hit.
  rewrite <- Hr in Hit. clear Hr.
  destruct Hit as [err w1 Hs | w1 w2 o Hs Hd He | w1 w2 o err Hs Hd He H401 Hb
                  | w1 w2 o err Hs Hd He H401 Hnr
                  | w1 w2 o err Hs Hd He H401 Hre Hlast
                  | w1 w2 o err Hs Hd He H401 Hre Hmore].
  - apply backoffSleep_advances in Hs. cbn. split; [exact Hs|lia].
  - apply backoffSleep_advances in Hs. apply doOnce_advances in Hd.
    cbn. split; [apply (advances_trans 0 1 _ _ _ Hs Hd)|lia].
  - apply backoffSleep_advances in Hs. apply doOnce_advances in Hd.
    pose proof (invalidate_advances w2) as Hinv.
    destruct (Hrec (set_tokenMgr w2 (invalidate (tokenMgr w2)))) as [Hadv Hle].
    destruct (res_logged
                [Attempt attempt 401 (out_shouldRetry o) (Some err); Restart]
                (recur (set_tokenMgr w2 (invalidate (tokenMgr w2)))))
      as (_ & _ & Hw & Hev).
    rewrite Hw, Hev, countAttempts_app.
    change (countAttempts
              [Attempt attempt 401 (out_shouldRetry o) (Some err); Restart])
      with 1%nat.
    split; [|lia].
    apply (advances_trans 1 _ _ _ _
             (advances_trans 1 0 _ _ _ (advances_trans 0 1 _ _ _ Hs Hd) Hinv)
             Hadv).
  - apply backoffSleep_advances in Hs. apply doOnce_advances in Hd.
    cbn. split; [apply (advances_trans 0 1 _ _ _ Hs Hd)|lia].
  - apply backoffSleep_advances in Hs. apply doOnce_advances in Hd.
    cbn. split; [apply (advances_trans 0 1 _ _ _ Hs Hd)|lia].
  - apply backoffSleep_advances in Hs. apply doOnce_advances in Hd.
    destruct (IH (int_add attempt 1) (Some err) w2) as [Hadv Hle].
    destruct (res_logged [Attempt attempt (out_statusCode o) true (Some err)]
                (retryLoop c env req result b recur n' (int_add attempt 1)
                   (Some err) w2)) as (_ & _ & Hw & Hev).
    rewrite Hw, Hev, countAttempts_app.
    change (countAttempts [Attempt attempt (out_statusCode o) true (Some err)])
      with 1%nat.
    split; [|lia].
    apply (advances_trans 1 _ _ _ _ (advances_trans 0 1 _ _ _ Hs Hd) Hadv).
Qed.

Lemma doWithRetry_advances (b : bool) (w : World) :
  let r := doWithRetry c env req result b w in
  advances (countAttempts (res_events r)) w (res_world r)
  /\ (countAttempts (res_events r)
      <= (if b then 1 else 2) * Z.to_nat (maxAttempts c))%nat.
Proof.
  assert (Hafter : forall w0,
    let r := retryLoop c env req result true (fun w => (None, None, w, []))
               (Z.to_nat (maxAttempts c)) 0 None w0 in
    advances (countAttempts (res_events r)) w0 (res_world r)
    /\ (countAttempts (res_events r) <= Z.to_nat (maxAttempts c))%nat).
  { intros w0 r.
    destruct (retryLoop_advances true (fun w => (None, None, w, [])) 0
                (Z.to_nat (maxAttempts c))
                (fun w1 => conj (advances_refl w1) (Nat.le_refl 0)) 0 None w0)
      as [Hadv Hle].
    split; [exact Hadv|]. subst r. cbn zeta in Hle. lia. }
  intros r. subst r. unfold doWithRetry. destruct b.
  - destruct (Hafter w) as [Hadv Hle]. split; [exact Hadv|].
    cbn zeta in Hle. cbv iota. lia.
  - destruct (retryLoop_advances false _ (Z.to_nat (maxAttempts c))
                (Z.to_nat (maxAttempts c)) Hafter 0 None w) as [Hadv Hle].
    split; [exact Hadv|]. cbn zeta in Hle. cbv iota. lia.
Qed.

End PipelineAccounting.

(** X9. A call of [do] makes at most [2 * (MaxRetries + 1)] attempts: those
    of its own loop and those of the one call it may make after a 401. Each
    attempt asks the limiter exactly once, sends at most one request and
    performs at most one token exchange. *)
Theorem X9_do_attempt_budget `{!Externals} (c : Client) (env : Env) {R : Type}
  (req : Request) (result : option (string -> option R)) (w : World) :
  let r := do c env req result w in
  let k := countAttempts (res_events r) in
  (k <= 2 * Z.to_nat (maxAttempts c))%nat
  /\ allowCalls (res_world r) = (allowCalls w + k)%nat
  /\ (sends w <= sends (res_world r) <= sends w + k)%nat
  /\ (exchanges w <= exchanges (res_world r) <= exchanges w + k)%nat.
Proof.
  intros r k.
  destruct (doWithRetry_advances c env req result false w) as [Hadv Hle].
  fold (do c env req result w) in Hadv, Hle. fold r in Hadv, Hle.
  fold k in Hadv, Hle.
  destruct Hadv as (Ha & Hs & He & _). auto.
Qed.

(** X10. A call of [do] never reads or writes the response cache, never
    changes the limits of the limiter or the URL of the token endpoint, and
    keeps the counters of the limiter within its limits, whatever the
    server answers (a 429 with a Retry-After included). *)
Theorem X10_do_frame `{!Externals} (c : Client) (env : Env) {R : Type}
  (req : Request) (result : option (string -> option R)) (w : World) :
  let w' := res_world (do c env req result w) in
  cache w' = cache w
  /\ minuteLimit (rateLimiter w') = minuteLimit (rateLimiter w)
  /\ dayLimit (rateLimiter w') = dayLimit (rateLimiter w)
  /\ tokenURL (tokenMgr w') = tokenURL (tokenMgr w)
  /\ (withinLimits (rateLimiter w) -> withinLimits (rateLimiter w')).
Proof.
  intros w'.
  destruct (doWithRetry_advances c env req result false w) as [Hadv _].
  fold (do c env req result w) in Hadv. fold w' in Hadv.
  destruct Hadv as (_ & _ & _ & Hc & Hm & Hd & Hu & Hw). auto.
Qed.

(** ** The pipeline: failures that end a call at once *)

(** X11. When the limiter refuses the first attempt, [do] returns its
    [RateLimitError] at once, whatever the retry budget: no credential is
    fetched, nothing is sent, there is no backoff, and only the limiter (its
    lazy window resets) has changed. The error matches
    [ErrRateLimitExceeded]. *)
Theorem X11_do_refused_by_limiter `{!Externals} (c : Client) (env : Env)
  {R : Type} (req : Request) (result : option (string -> option R))
  (w : World) (e : RateLimitError) (rl : RateLimiter) :
  0 <= MaxRetries (retryConfig c) < int_max ->
  Allow (rateLimiter w) (clock w) = (Some e, rl) ->
  do c env req result w
  = (Some (ERateLimit e), None, set_rateLimiter (tick_allowCalls w) rl,
     [Attempt 0 0 false (Some (ERateLimit e))])
  /\ errors_Is (ERateLimit e) ErrRateLimitExceeded = true.
Proof.
  intros Hmax Hallow. split; [|reflexivity].
  unfold do, doWithRetry.
  assert (Hn : exists n, Z.to_nat (maxAttempts c) = S n).
  { unfold maxAttempts, int_add.
    rewrite wrap_small by (unfold int_min, int_max in *; lia).
    exists (Z.to_nat (MaxRetries (retryConfig c))). lia. }
  destruct Hn as [n ->]. cbn [retryLoop].
  unfold backoffSleep. cbn [Z.ltb Z.compare].
  rewrite (doOnce_refused c env req result w e rl Hallow).
  reflexivity.
Qed.

(** X12. With a negative [MaxRetries] the loop of [doWithRetry] is not
    entered and [do] returns no error: the call reports success without
    asking the limiter or sending anything, and a product operation returns
    the zero response as if the server had answered. *)
Theorem X12_do_without_attempts `{!Externals} (c : Client) (env : Env)
  {R : Type} (req : Request) (result : option (string -> option R))
  (w : World) :
  int_min <= MaxRetries (retryConfig c) < 0 ->
  do c env req result w = (None, None, w, [])
  /\ forall productNumber,
       productNumber <> "" ->
       exists w',
         ProductDetailsNoCache c env productNumber w
         = (inl ProductDetailsResponse_zero, w', [])
         /\ allowCalls w' = allowCalls w /\ sends w' = sends w
         /\ exchanges w' = exchanges w.
Proof.
  intros Hneg.
  assert (Hn : Z.to_nat (maxAttempts c) = 0%nat).
  { unfold maxAttempts, int_add.
    rewrite wrap_small by (unfold int_min, int_max in *; lia). lia. }
  assert (Hdo : forall (R' : Type) rq (res : option (string -> option R')),
            do c env rq res w = (None, None, w, [])).
  { intros R' rq res. unfold do, doWithRetry. rewrite Hn. reflexivity. }
  split; [apply Hdo|].
  intros productNumber Hpn. unfold ProductDetailsNoCache.
  destruct (String.eqb_spec productNumber ""); [contradiction|].
  rewrite Hdo. cbn [default].
  eexists. split; [reflexivity|].
  unfold cacheStore. repeat case_match; cbn; auto.
Qed.

(** X13. When a request is answered with a readable response whose status
    is outside 200..299, the attempt fails with an [APIError] that carries
    that status and the X-Request-Id header. Which sentinel the error
    matches depends on the status alone, never on the body: 401, 403, 404,
    429 and 400 have one each, any status from 500 on is a server error, and
    every other status matches none. *)
Theorem X13_api_error_matches_status `{!Externals} (c : Client) (env : Env)
  {R : Type} (req : Request) (result : option (string -> option R))
  (w1 w2 : World) (o : Outcome R) (resp : Response) :
  doOnce c env req result w1 = (o, w2) ->
  sends w2 = S (sends w1) ->
  (forall hr, fst (apiEndpoint env (sends w1) hr) = DoResponse resp) ->
  resp_ReadFails resp = false ->
  resp_StatusCode resp < 200 \/ 300 <= resp_StatusCode resp ->
  exists e,
    out_err o = Some (EAPI e)
    /\ out_statusCode o = resp_StatusCode resp
    /\ StatusCode e = resp_StatusCode resp
    /\ RequestID e = resp_RequestId resp
    /\ (errors_Is (EAPI e) ErrUnauthorized = true <-> resp_StatusCode resp = 401)
    /\ (errors_Is (EAPI e) ErrForbidden = true <-> resp_StatusCode resp = 403)
    /\ (errors_Is (EAPI e) ErrNotFound = true <-> resp_StatusCode resp = 404)
    /\ (errors_Is (EAPI e) ErrRateLimitExceeded = true
        <-> resp_StatusCode resp = 429)
    /\ (errors_Is (EAPI e) ErrInvalidRequest = true
        <-> resp_StatusCode resp = 400)
    /\ (errors_Is (EAPI e) ErrServerError = true
        <-> 500 <= resp_StatusCode resp).
Proof.
  intros Hd Hsends Hep Hread Hstatus.
  destruct (doOnce_sent c env req result w1 w2 o resp Hd Hsends Hep)
    as (w & Hc & _).
  assert (Hhandle :
    exists e,
      handleErrorResponse (resp_StatusCode resp) (resp_Body resp)
        (resp_RequestId resp) = EAPI e
      /\ StatusCode e = resp_StatusCode resp
      /\ RequestID e = resp_RequestId resp).
  { unfold handleErrorResponse.
    destruct (json_Unmarshal_errResp (resp_Body resp)) as [[message details]|];
      eexists; repeat apply conj; reflexivity. }
  assert (Hout :
    exists e,
      out_err o = Some (EAPI e)
      /\ out_statusCode o = resp_StatusCode resp
      /\ StatusCode e = resp_StatusCode resp
      /\ RequestID e = resp_RequestId resp).
  { unfold classify in Hc. rewrite Hread in Hc.
    destruct (resp_StatusCode resp =? 429).
    { injection Hc as -> _. cbn.
      destruct Hhandle as (e & -> & Hs & Hid). eauto. }
    destruct (resp_StatusCode resp =? 401).
    { injection Hc as -> _. cbn. eexists. repeat apply conj; reflexivity. }
    destruct ((resp_StatusCode resp <? 200) || (300 <=? resp_StatusCode resp))
      eqn:Hrange.
    { injection Hc as -> _. cbn.
      destruct Hhandle as (e & -> & Hs & Hid). eauto. }
    apply orb_false_iff in Hrange as [Hlo Hhi].
    apply Z.ltb_ge in Hlo. apply Z.leb_gt in Hhi. lia. }
  destruct Hout as (e & Herr & Hcode & Hs & Hid).
  exists e. split; [exact Herr|]. split; [exact Hcode|].
  split; [exact Hs|]. split; [exact Hid|].
  rewrite <- Hs. apply errors_Is_EAPI.
Qed.

(** X14. A response whose body cannot be read ends its attempt with a read
    error that is never retried, whatever the status: a 503 or 429 that
    would otherwise be retried is not, and a 429 does not reach the limiter
    (no [UpdateFromResponse]). The status still counts for
    re-authentication: an unreadable 401 in a call that has not restarted
    yet invalidates the credential and restarts the call. *)
Theorem X14_unreadable_response_is_terminal `{!Externals} (c : Client) (env : Env)
  {R : Type} (req : Request) (result : option (string -> option R))
  (b : bool) (recur : World -> Result R) (n : nat) (attempt : Z)
  (lastErr : option error) (w w1 w2 : World) (o : Outcome R)
  (resp : Response) :
  backoffSleep c env attempt w = (None, w1) ->
  doOnce c env req result w1 = (o, w2) ->
  sends w2 = S (sends w1) ->
  (forall hr, fst (apiEndpoint env (sends w1) hr) = DoResponse resp) ->
  resp_ReadFails resp = true ->
  let readErr := EWrap "digikey: failed to read response" EIO in
  let ev := Attempt attempt (resp_StatusCode resp) false (Some readErr) in
  rateLimiter w2 = snd (Allow (rateLimiter w1) (clock w1))
  /\ (resp_StatusCode resp <> 401 \/ b = true ->
      retryLoop c env req result b recur (S n) attempt lastErr w
      = (Some readErr, None, w2, [ev]))
  /\ (resp_StatusCode resp = 401 -> b = false ->
      retryLoop c env req result b recur (S n) attempt lastErr w
      = logged [ev; Restart]
          (recur (set_tokenMgr w2 (invalidate (tokenMgr w2))))).
Proof.
  intros Hs Hd Hsends Hep Hread readErr ev.
  destruct (doOnce_sent c env req result w1 w2 o resp Hd Hsends Hep)
    as (w' & Hc & _ & _ & _ & _ & _ & Hrl).
  unfold classify in Hc. rewrite Hread in Hc. injection Hc as Ho Hw.
  subst w'. split; [exact Hrl|].
  split.
  - intros Hcase. cbn [retryLoop]. rewrite Hs, Hd. rewrite Ho. cbn.
    destruct Hcase as [Hne | ->].
    + destruct (Z.eqb_spec (resp_StatusCode resp) 401); [contradiction|].
      reflexivity.
    + rewrite andb_false_r. reflexivity.
  - intros H401 ->. cbn [retryLoop]. rewrite Hs, Hd. rewrite Ho. cbn.
    subst ev. rewrite H401. reflexivity.
Qed.

(** ** The pipeline does not depend on the cache *)

Section CacheIndependence.
Context `{!Externals}.
Variable c : Client.
Variable env : Env.
Context {R : Type}.
Variable req : Request.
Variable result : option (string -> option R).
Variable m : option (gmap string cacheEntry).

Lemma getToken_set_cache (w : World) :
  getToken env (set_cache w m)
  = (fst (getToken env w), set_cache (snd (getToken env w)) m).
Proof.
  unfold getToken, refreshToken. cbn.
  destruct (tokenFresh _ _ _); [reflexivity|].
  destruct (negb _); [reflexivity|].
  destruct (tokenEndpoint env (exchanges w)) as [reply latency]. cbn.
  destruct (refreshToken_finish _ _ _). reflexivity.
Qed.

Lemma classify_set_cache (resp : Response) (w : World) :
  classify result resp (set_cache w m)
  = (fst (classify result resp w), set_cache (snd (classify result resp w)) m).
Proof.
  unfold classify. cbn. repeat case_match; reflexivity.
Qed.

Lemma doOnce_set_cache (w : World) :
  doOnce c env req result (set_cache w m)
  = (fst (doOnce c env req result w),
     set_cache (snd (doOnce c env req result w)) m).
Proof.
  unfold doOnce. cbn [rateLimiter clock set_cache].
  destruct (Allow (rateLimiter w) (clock w)) as [allowErr rl].
  destruct allowErr; [reflexivity|].
  change (set_rateLimiter (tick_allowCalls (set_cache w m)) rl)
    with (set_cache (set_rateLimiter (tick_allowCalls w) rl) m).
  rewrite getToken_set_cache.
  destruct (getToken env (set_rateLimiter (tick_allowCalls w) rl))
    as [tok w1].
  cbn [fst snd]. destruct tok as [token|err]; [|reflexivity].
  assert (Hsent : forall body,
    (if negb (http_NewRequest_ok (rq_method req) (baseURL c +:+ rq_path req))
     then (mkOutcome (R:=R) 0 false
             (Some (EWrap "digikey: failed to create request" ENewRequest))
             None, set_cache w1 m)
     else
       let httpReq :=
         {| hr_method := rq_method req;
            hr_url := baseURL c +:+ rq_path req;
            hr_body := body;
            hr_Authorization := "Bearer " +:+ token;
            hr_ClientId := clientID c;
            hr_Locale := locale c |} in
       let '(reply, latency) :=
         apiEndpoint env (sends (set_cache w1 m)) httpReq in
       let w2 :=
         set_clock (tick_sends (set_cache w1 m))
           (time_Add (clock (set_cache w1 m)) latency) in
       match reply with
       | DoError err =>
           (mkOutcome 0 (shouldRetry (Some err) 0)
              (Some (EWrap "digikey: request failed" err)) None, w2)
       | DoResponse resp => classify result resp w2
       end)
    = (let r :=
         if negb (http_NewRequest_ok (rq_method req)
                    (baseURL c +:+ rq_path req))
         then (mkOutcome (R:=R) 0 false
                 (Some (EWrap "digikey: failed to create request" ENewRequest))
                 None, w1)
         else
           let httpReq :=
             {| hr_method := rq_method req;
                hr_url := baseURL c +:+ rq_path req;
                hr_body := body;
                hr_Authorization := "Bearer " +:+ token;
                hr_ClientId := clientID c;
                hr_Locale := locale c |} in
           let '(reply, latency) := apiEndpoint env (sends w1) httpReq in
           let w2 := set_clock (tick_sends w1) (time_Add (clock w1) latency) in
           match reply with
           | DoError err =>
               (mkOutcome 0 (shouldRetry (Some err) 0)
                  (Some (EWrap "digikey: request failed" err)) None, w2)
           | DoResponse resp => classify result resp w2
           end in
       (fst r, set_cache (snd r) m))).
  { intros body. destruct (negb _); [reflexivity|]. cbn zeta.
    cbn [sends clock set_cache].
    destruct (apiEndpoint env (sends w1) _) as [reply latency].
    destruct reply as [err|resp]; [reflexivity|].
    change (set_clock (tick_sends (set_cache w1 m)) (time_Add (clock w1) latency))
      with (set_cache (set_clock (tick_sends w1) (time_Add (clock w1) latency)) m).
    apply classify_set_cache. }
  destruct (rq_body req) as [[body|]|].
  - apply (Hsent body).
  - reflexivity.
  - apply (Hsent "").
Qed.

Lemma backoffSleep_set_cache (attempt : Z) (w : World) :
  backoffSleep c env attempt (set_cache w m)
  = (fst (backoffSleep c env attempt w),
     set_cache (snd (backoffSleep c env attempt w)) m).
Proof.
  unfold backoffSleep. destruct (0 <? attempt); [|reflexivity].
  cbn [draws clock set_cache]. destruct (sleep env (clock w) _). reflexivity.
Qed.

(** What a [Result] becomes when the cache of its world is replaced. *)
Lemma retryLoop_set_cache (b : bool) (recur : World -> Result R) (n : nat) :
  (forall w,
      recur (set_cache w m)
      = (res_err (recur w), res_value (recur w),
         set_cache (res_world (recur w)) m, res_events (recur w))) ->
  forall (attempt : Z) (lastErr : option error) (w : World),
    let r := retryLoop c env req result b recur n attempt lastErr w in
    retryLoop c env req result b recur n attempt lastErr (set_cache w m)
    = (res_err r, res_value r, set_cache (res_world r) m, res_events r).
Proof.
  intros Hrec. induction n as [|n' IH]; intros attempt lastErr w r.
  { reflexivity. }
  subst r. cbn [retryLoop].
  rewrite backoffSleep_set_cache.
  destruct (backoffSleep c env attempt w) as [[err|] w1]; [reflexivity|].
  cbn [fst snd]. rewrite doOnce_set_cache.
  destruct (doOnce c env req result w1) as [o w2]. cbn [fst snd].
  destruct (out_err o) as [err|]; [|reflexivity].
  destruct ((out_statusCode o =? 401) && negb b).
  - change (set_tokenMgr (set_cache w2 m) (invalidate (tokenMgr (set_cache w2 m))))
      with (set_cache (set_tokenMgr w2 (invalidate (tokenMgr w2))) m).
    rewrite Hrec.
    destruct (recur (set_tokenMgr w2 (invalidate (tokenMgr w2))))
      as [[[e v] w3] evs]. reflexivity.
  - destruct (negb (out_shouldRetry o)); [reflexivity|].
    destruct (int_sub (maxAttempts c) 1 <=? attempt); [reflexivity|].
    rewrite IH.
    destruct (retryLoop c env req result b recur n' (int_add attempt 1)
                (Some err) w2) as [[[e v] w3] evs]. reflexivity.
Qed.

Lemma do_set_cache (w : World) :
  let r := do c env req result w in
  do c env req result (set_cache w m)
  = (res_err r, res_value r, set_cache (res_world r) m, res_events r).
Proof.
  unfold do, doWithRetry.
  apply retryLoop_set_cache. intros w0.
  apply (retryLoop_set_cache true (fun w => (None, None, w, []))).
  reflexivity.
Qed.

End CacheIndependence.

(** ** Product operations *)

Lemma clampLimit_range (req : SearchRequest) :
  1 <= Limit_ (clampLimit req) <= 50.
Proof.
  unfold clampLimit. cbn.
  destruct (Z.leb_spec (Limit_ req) 0); compare_cases; lia.
Qed.

Lemma clampLimit_in_range (req : SearchRequest) :
  1 <= Limit_ req <= 50 -> clampLimit req = req.
Proof.
  intros Hr. unfold clampLimit.
  destruct (Z.leb_spec (Limit_ req) 0); [lia|].
  destruct (Z.ltb_spec 50 (Limit_ req)); [lia|].
  destruct req; reflexivity.
Qed.

Lemma cacheStore_sameButCache `{!Externals} (c : Client)
  (marshalled : option string) (key : string) (ttl : Duration) (w : World) :
  sameButCache (cacheStore c marshalled key ttl w) w.
Proof.
  unfold cacheStore, sameButCache.
  repeat case_match; cbn; repeat apply conj; reflexivity.
Qed.

(** X15. The product operations check their argument before anything else:
    a nil request, empty keywords or an empty product number is rejected
    with an error that matches [ErrInvalidRequest], and nothing has
    happened: the cache was not read, the limiter not asked, no credential
    fetched, nothing sent. *)
Theorem X15_invalid_requests_rejected `{!Externals} (c : Client) (env : Env)
  (w : World) :
  KeywordSearch c env None w = (inr (ESentinel ErrInvalidRequest), w, [])
  /\ (forall req,
        Keywords req = "" ->
        exists e, KeywordSearch c env (Some req) w = (inr e, w, [])
                  /\ errors_Is e ErrInvalidRequest = true)
  /\ (exists e, ProductDetails c env "" w = (inr e, w, [])
                /\ errors_Is e ErrInvalidRequest = true)
  /\ (exists e, ProductDetailsNoCache c env "" w = (inr e, w, [])
                /\ errors_Is e ErrInvalidRequest = true).
Proof.
  split; [reflexivity|]. split; [|split].
  - intros req Hk. unfold KeywordSearch. rewrite Hk. cbn.
    eexists. split; reflexivity.
  - eexists. split; reflexivity.
  - eexists. split; reflexivity.
Qed.

(** X16. [KeywordSearch] works on a copy of the request whose [Limit] is
    between 1 and 50: 10 for a limit that is not positive, 50 for one above
    50, and the caller's otherwise. Two requests that differ only in such an
    out-of-range limit are the same search: same cache entry, same request
    sent, same result. *)
Theorem X16_KeywordSearch_normalises_limit `{!Externals} (c : Client) (env : Env)
  (req : SearchRequest) (w : World) :
  1 <= Limit_ (clampLimit req) <= 50
  /\ (Limit_ req <= 0 -> Limit_ (clampLimit req) = 10)
  /\ (50 < Limit_ req -> Limit_ (clampLimit req) = 50)
  /\ (1 <= Limit_ req <= 50 -> clampLimit req = req)
  /\ Keywords (clampLimit req) = Keywords req
  /\ Offset (clampLimit req) = Offset req
  /\ KeywordSearch c env (Some req) w
     = KeywordSearch c env (Some (clampLimit req)) w.
Proof.
  split; [apply clampLimit_range|].
  split; [|split].
  - intros Hl. unfold clampLimit. cbn.
    destruct (Z.leb_spec (Limit_ req) 0); [reflexivity|lia].
  - intros Hl. unfold clampLimit. cbn.
    destruct (Z.leb_spec (Limit_ req) 0); [lia|].
    destruct (Z.ltb_spec 50 (Limit_ req)); [reflexivity|lia].
  - split; [apply clampLimit_in_range|].
    split; [reflexivity|]. split; [reflexivity|].
    unfold KeywordSearch.
    rewrite (clampLimit_in_range (clampLimit req) (clampLimit_range req)).
    reflexivity.
Qed.

(** X17. Whatever chain of [Limit] and [Offset] calls follows [NewSearch],
    the request built keeps the keywords, has a limit between 1 and 50 (10 if
    [Limit] was never called) and an offset that is not negative, so
    [KeywordSearch] sends it as built. Each call overrides the earlier ones
    of its kind and leaves the other field alone. The builder maps a limit
    below 1 to 1, where [KeywordSearch] itself maps one to 10. *)
Theorem X17_builder_request_in_range (keywords : string)
  (calls : list builderCall) :
  let s := builderChain keywords calls in
  Keywords (Build s) = keywords
  /\ 1 <= Limit_ (Build s) <= 50 /\ 0 <= Offset (Build s)
  /\ clampLimit (Build s) = Build s
  /\ Build (builderChain keywords []) = mkSearchRequest keywords 10 0
  /\ (forall count,
        Build (SearchOptions_Limit s count)
        = mkSearchRequest keywords (Z.max 1 (Z.min 50 count)) (Offset (Build s)))
  /\ (forall position,
        Build (SearchOptions_Offset s position)
        = mkSearchRequest keywords (Limit_ (Build s)) (Z.max 0 position))
  /\ (forall count,
        count < 1 ->
        Limit_ (Build (SearchOptions_Limit s count)) = 1
        /\ Limit_ (clampLimit (mkSearchRequest keywords count 0)) = 10).
Proof.
  intros s.
  assert (Hinv : Keywords (Build s) = keywords
                 /\ 1 <= Limit_ (Build s) <= 50 /\ 0 <= Offset (Build s)).
  { subst s. unfold builderChain.
    assert (Hgen : forall s0,
      Keywords (request s0) = keywords /\ 1 <= Limit_ (request s0) <= 50
      /\ 0 <= Offset (request s0) ->
      Keywords (Build (fold_left builderStep calls s0)) = keywords
      /\ 1 <= Limit_ (Build (fold_left builderStep calls s0)) <= 50
      /\ 0 <= Offset (Build (fold_left builderStep calls s0))).
    { induction calls as [|call calls IH]; intros s0 Hs0; [exact Hs0|].
      cbn [fold_left]. apply IH.
      destruct Hs0 as (Hk & Hl & Ho).
      destruct call as [count|position]; cbn; repeat apply conj; auto;
        compare_cases; lia. }
    apply Hgen. cbn. repeat apply conj; try reflexivity; lia. }
  destruct Hinv as (Hk & Hl & Ho).
  split; [exact Hk|]. split; [exact Hl|]. split; [exact Ho|].
  split; [apply clampLimit_in_range; exact Hl|].
  split; [reflexivity|].
  unfold Build in *. split; [|split].
  - intros count. unfold SearchOptions_Limit. cbn. rewrite Hk.
    f_equal. compare_cases; lia.
  - intros position. unfold SearchOptions_Offset. cbn. rewrite Hk.
    f_equal. compare_cases; lia.
  - intros count Hc. unfold SearchOptions_Limit, clampLimit. cbn.
    split; compare_cases; lia.
Qed.

(** X18. [ProductDetailsNoCache] never reads the cache: whatever the cache
    holds, it returns the same result after the same attempts and leaves
    the same limiter, credential and counters. With caching disabled, or no
    cache configured, [ProductDetails] is the same operation. *)
Theorem X18_ProductDetailsNoCache_bypasses_cache `{!Externals} (c : Client)
  (env : Env) (productNumber : string) (w : World)
  (m : option (gmap string cacheEntry)) :
  let r := ProductDetailsNoCache c env productNumber w in
  let r' := ProductDetailsNoCache c env productNumber (set_cache w m) in
  r'.1.1 = r.1.1 /\ r'.2 = r.2 /\ sameButCache r'.1.2 r.1.2
  /\ (Enabled (cacheConfig c) = false \/ cache w = None ->
      ProductDetails c env productNumber w = r).
Proof.
  intros r r'. subst r r'.
  assert (Hoff : Enabled (cacheConfig c) = false \/ cache w = None ->
                 ProductDetails c env productNumber w
                 = ProductDetailsNoCache c env productNumber w).
  { intros Hoff. unfold ProductDetailsNoCache, ProductDetails, cacheLookup.
    destruct (String.eqb productNumber ""); [reflexivity|].
    destruct Hoff as [Hen | Hnone].
    - rewrite Hen. destruct (cache w); reflexivity.
    - rewrite Hnone. reflexivity. }
  split; [|split; [|split; [|exact Hoff]]]; clear Hoff;
    unfold ProductDetailsNoCache;
    (destruct (String.eqb productNumber "");
     [cbn; repeat apply conj; reflexivity|]);
    rewrite do_set_cache;
    destruct (do c env _ _ w) as [[[err v] w1] evs];
    cbn [res_err res_value res_world res_events fst snd];
    try (destruct err; reflexivity).
  assert (Hset : sameButCache (set_cache w1 m) w1).
  { unfold sameButCache. cbn. repeat apply conj; reflexivity. }
  destruct err; cbn [fst snd]; [exact Hset|].
  pose proof (cacheStore_sameButCache c
                (json_Marshal_ProductDetailsResponse
                   (default ProductDetailsResponse_zero v))
                (cacheKeyForDetails (locale c) productNumber)
                (DetailsTTL (cacheConfig c)) (set_cache w1 m)) as H1.
  pose proof (cacheStore_sameButCache c
                (json_Marshal_ProductDetailsResponse
                   (default ProductDetailsResponse_zero v))
                (cacheKeyForDetails (locale c) productNumber)
                (DetailsTTL (cacheConfig c)) w1) as H2.
  unfold sameButCache in *.
  destruct Hset as (? & ? & ? & ? & ? & ? & ?).
  destruct H1 as (? & ? & ? & ? & ? & ? & ?).
  destruct H2 as (? & ? & ? & ? & ? & ? & ?).
  repeat apply conj; congruence.
Qed.

(** The cache look-up removes at most the entry under its key, and only an
    expired one. *)
Lemma cacheLookup_shrinks `{!Externals} (c : Client) {A : Type}
  (unmarshal : string -> option A) (key : string) (w : World) :
  sameButCache (snd (cacheLookup c unmarshal key w)) w
  /\ match cache w, cache (snd (cacheLookup c unmarshal key w)) with
     | Some m, Some m' => m' ⊆ m
     | None, None => True
     | _, _ => False
     end.
Proof.
  unfold cacheLookup, cache_Get, sameButCache.
  destruct (cache w) as [m|] eqn:Hc; [|cbn; rewrite Hc; auto 10].
  destruct (Enabled (cacheConfig c)); [|cbn; rewrite Hc; auto 10].
  destruct (m !! key) as [e|] eqn:Hl.
  - destruct (ce_expiresAt e <=? clock w); [|destruct (unmarshal _)]; cbn;
      repeat apply conj; try reflexivity.
    apply delete_subseteq.
  - cbn. repeat apply conj; reflexivity.
Qed.

(** X19. With caching enabled, a [ProductDetailsNoCache] that succeeds
    stores the response it returns under the key of the product, with the
    details TTL counted from the end of the call, and touches no other
    entry. Until that expiry a [ProductDetails] for the same product is
    answered from the cache, without the limiter or the network. (The
    store itself is the cache as the specification describes it.) *)
Theorem X19_ProductDetailsNoCache_refreshes_cache `{!Externals} (c : Client)
  (env : Env) (productNumber : string) (w w' : World)
  (m : gmap string cacheEntry) (resp : ProductDetailsResponse)
  (evs : list LoopEvent) (data : string) :
  Enabled (cacheConfig c) = true -> cache w = Some m ->
  ProductDetailsNoCache c env productNumber w = (inl resp, w', evs) ->
  json_Marshal_ProductDetailsResponse resp = Some data ->
  let key := cacheKeyForDetails (locale c) productNumber in
  let expiry := time_Add (clock w') (DetailsTTL (cacheConfig c)) in
  exists m',
    cache w' = Some m'
    /\ m' !! key = Some {| ce_value := data; ce_expiresAt := expiry |}
    /\ (forall k, k <> key -> m' !! k = m !! k)
    /\ forall resp' w2,
         json_Unmarshal_ProductDetailsResponse data = Some resp' ->
         cache w2 = Some m' -> clock w2 < expiry ->
         ProductDetails c env productNumber w2 = (inl resp', w2, []).
Proof.
  intros Hen Hc Hcall Hdata key expiry. subst expiry.
  unfold ProductDetailsNoCache in Hcall.
  destruct (String.eqb_spec productNumber "") as [|Hpn]; [discriminate|].
  pose proof (doWithRetry_advances c env
                {| rq_method := "GET";
                   rq_path := searchBasePath +:+ "/"
                              +:+ url_PathEscape productNumber
                              +:+ "/productdetails";
                   rq_body := None |}
                (Some json_Unmarshal_ProductDetailsResponse) false w)
    as [Hadv _].
  fold (do c env
          {| rq_method := "GET";
             rq_path := searchBasePath +:+ "/"
                        +:+ url_PathEscape productNumber
                        +:+ "/productdetails";
             rq_body := None |}
          (Some json_Unmarshal_ProductDetailsResponse) w) in Hadv.
  destruct (do c env _ _ w) as [[[err v] w1] evs1].
  destruct Hadv as (_ & _ & _ & Hcache & _). cbn in Hcache.
  destruct err; [discriminate|].
  injection Hcall as Hresp Hw Hevs. rewrite Hresp in Hw.
  unfold cacheStore in Hw. rewrite Hcache, Hc, Hen, Hdata in Hw.
  subst w'. cbn [cache set_cache clock] in *.
  exists (cache_Set m key data (DetailsTTL (cacheConfig c)) (clock w1)).
  unfold cache_Set. split; [reflexivity|].
  split; [apply lookup_insert_eq|].
  split; [intros k Hk; apply lookup_insert_ne; congruence|].
  intros resp' w2 Hdec Hc2 Hexp. unfold ProductDetails.
  apply String.eqb_neq in Hpn. rewrite Hpn. fold key.
  rewrite (cacheLookup_hit c _ key w2 _ _ resp' Hen Hc2
             (lookup_insert_eq _ _ _) Hexp Hdec).
  reflexivity.
Qed.

(** X20. A product operation that returns an error adds nothing to the
    cache: [ProductDetailsNoCache] leaves it exactly as it was, and after
    [KeywordSearch] or [ProductDetails] every entry it holds was there
    before (the look-up may have dropped an expired one). *)
Theorem X20_failed_operations_cache_nothing `{!Externals} (c : Client)
  (env : Env) (w : World) :
  (forall productNumber e w' evs,
      ProductDetailsNoCache c env productNumber w = (inr e, w', evs) ->
      cache w' = cache w)
  /\ (forall productNumber e w' evs,
        ProductDetails c env productNumber w = (inr e, w', evs) ->
        match cache w, cache w' with
        | Some m, Some m' => m' ⊆ m
        | None, None => True
        | _, _ => False
        end)
  /\ (forall req e w' evs,
        KeywordSearch c env req w = (inr e, w', evs) ->
        match cache w, cache w' with
        | Some m, Some m' => m' ⊆ m
        | None, None => True
        | _, _ => False
        end).
Proof.
  assert (Hdo : forall (R : Type) rq (res : option (string -> option R)) w0,
            cache (res_world (do c env rq res w0)) = cache w0).
  { intros R rq res w0.
    destruct (doWithRetry_advances c env rq res false w0) as [Hadv _].
    destruct Hadv as (_ & _ & _ & Hcache & _). exact Hcache. }
  assert (Hsame : match cache w, cache w with
                  | Some m, Some m' => m' ⊆ m
                  | None, None => True
                  | _, _ => False
                  end).
  { destruct (cache w); auto. }
  split; [|split].
  - intros productNumber e w' evs. unfold ProductDetailsNoCache.
    destruct (String.eqb productNumber ""); [intros [= _ <- _]; reflexivity|].
    specialize (Hdo _ {| rq_method := "GET";
                         rq_path := searchBasePath +:+ "/"
                                    +:+ url_PathEscape productNumber
                                    +:+ "/productdetails";
                         rq_body := None |}
                  (Some json_Unmarshal_ProductDetailsResponse) w).
    destruct (do c env _ _ w) as [[[err v] w1] evs1].
    destruct err; [|discriminate]. intros [= _ <- _]. exact Hdo.
  - intros productNumber e w' evs. unfold ProductDetails.
    destruct (String.eqb productNumber ""); [intros [= _ <- _]; exact Hsame|].
    destruct (cacheLookup_shrinks c json_Unmarshal_ProductDetailsResponse
                (cacheKeyForDetails (locale c) productNumber) w) as [_ Hsub].
    destruct (cacheLookup c _ _ w) as [hit w0]. cbn [snd] in Hsub.
    destruct hit; [discriminate|].
    specialize (Hdo _ {| rq_method := "GET";
                         rq_path := searchBasePath +:+ "/"
                                    +:+ url_PathEscape productNumber
                                    +:+ "/productdetails";
                         rq_body := None |}
                  (Some json_Unmarshal_ProductDetailsResponse) w0).
    destruct (do c env _ _ w0) as [[[err v] w1] evs1].
    destruct err; [|discriminate]. intros [= _ <- _].
    cbn in Hdo. rewrite Hdo. exact Hsub.
  - intros req e w' evs. unfold KeywordSearch.
    destruct req as [req|]; [|intros [= _ <- _]; exact Hsame].
    destruct (String.eqb (Keywords req) ""); [intros [= _ <- _]; exact Hsame|].
    destruct (cacheLookup_shrinks c json_Unmarshal_SearchResponse
                (cacheKeyForSearch (locale c) (clampLimit req)) w) as [_ Hsub].
    destruct (cacheLookup c _ _ w) as [hit w0]. cbn [snd] in Hsub.
    destruct hit; [discriminate|].
    specialize (Hdo _ {| rq_method := "POST";
                         rq_path := searchBasePath +:+ "/keyword";
                         rq_body :=
                           Some (json_Marshal_SearchRequest (clampLimit req)) |}
                  (Some json_Unmarshal_SearchResponse) w0).
    destruct (do c env _ _ w0) as [[[err v] w1] evs1].
    destruct err; [|discriminate]. intros [= _ <- _].
    cbn in Hdo. rewrite Hdo. exact Hsub.
Qed.

(** X21. The limiter and the credential manager are asked before the
    request is built. A request whose body cannot be encoded, or that
    [http.NewRequestWithContext] rejects, therefore ends the call at its
    first attempt without being sent and without a retry, but it has used
    one grant of the limiter and whatever token exchange the credential
    needed. *)
Theorem X21_unbuildable_request_costs_a_grant `{!Externals} (c : Client)
  (env : Env) {R : Type} (req : Request)
  (result : option (string -> option R)) (w w1 : World)
  (rl : RateLimiter) (token : string) :
  0 <= MaxRetries (retryConfig c) < int_max ->
  rq_body req = Some None
  \/ http_NewRequest_ok (rq_method req) (baseURL c +:+ rq_path req) = false ->
  Allow (rateLimiter w) (clock w) = (None, rl) ->
  getToken env (set_rateLimiter (tick_allowCalls w) rl) = (inl token, w1) ->
  exists msg cause,
    do c env req result w
    = (Some (EWrap msg cause), None, w1,
       [Attempt 0 0 false (Some (EWrap msg cause))])
    /\ sends w1 = sends w
    /\ rateLimiter w1 = rl
    /\ allowCalls w1 = S (allowCalls w).
Proof.
  intros Hmax Hbad Hallow Htok.
  assert (Hn : exists n, Z.to_nat (maxAttempts c) = S n).
  { unfold maxAttempts, int_add.
    rewrite wrap_small by (unfold int_min, int_max in *; lia).
    exists (Z.to_nat (MaxRetries (retryConfig c))). lia. }
  destruct Hn as [n Hn].
  destruct (getToken_frame env _ _ _ Htok) as (Hrl & _ & Hac & Hse & _).
  cbn in Hrl, Hac, Hse.
  assert (Hdo : exists msg cause,
            doOnce c env req result w
            = (mkOutcome 0 false (Some (EWrap msg cause)) None, w1)).
  { unfold doOnce. rewrite Hallow, Htok.
    destruct (rq_body req) as [[body|]|] eqn:Hb.
    - destruct Hbad as [?|Hbad]; [discriminate|]. rewrite Hbad. cbn.
      eauto.
    - eauto.
    - destruct Hbad as [?|Hbad]; [discriminate|]. rewrite Hbad. cbn.
      eauto. }
  destruct Hdo as (msg & cause & Hdo). exists msg, cause.
  split; [|auto].
  unfold do, doWithRetry. rewrite Hn. cbn [retryLoop].
  unfold backoffSleep. cbn [Z.ltb Z.compare]. rewrite Hdo. reflexivity.
Qed.

(** ** Concurrent callers of [getToken]: the lock *)

Lemma count_insert {A : Type} (f : A -> bool) (l : list A) :
  forall (i : nat) (p p' : A),
    l !! i = Some p ->
    (length (List.filter f (<[i := p']> l)) + (if f p then 1 else 0)
     = length (List.filter f l) + (if f p' then 1 else 0))%nat.
Proof.
  induction l as [|x l IH]; intros i p p' Hi; [discriminate|].
  destruct i as [|i].
  - cbn in Hi |- *. injection Hi as ->. destruct (f p), (f p'); cbn; lia.
  - change (<[S i := p']> (x :: l)) with (x :: <[i := p']> l).
    cbn in Hi. specialize (IH i p p' Hi).
    cbn [List.filter]. destruct (f x); cbn [length]; lia.
Qed.

Lemma count_le_length {A : Type} (f : A -> bool) (l : list A) :
  (length (List.filter f l) <= length l)%nat.
Proof. induction l as [|x l IH]; cbn; [lia|]. destruct (f x); cbn; lia. Qed.

Section LockFacts.
Context `{!Externals}.
Variable env : Env.

(** The lock stays exclusive, and no exchange is made outside it. *)
Lemma step_lock (a : action) (s s' : Sys) :
  step env a s = Some s' ->
  lockDiscipline s ->
  (sys_exchanges s <= length (List.filter pastLock (sys_threads s)))%nat ->
  lockDiscipline s'
  /\ (sys_exchanges s' <= length (List.filter pastLock (sys_threads s')))%nat.
Proof.
  intros Hstep Hlock Hcount. destruct a as [i|d]; cbn in Hstep.
  2:{ destruct (d <? 0); [discriminate|]. injection Hstep as <-.
      split; [exact Hlock|exact Hcount]. }
  unfold step_thread, set_thread in Hstep.
  destruct (sys_threads s !! i) as [p|] eqn:Hi; [|discriminate].
  pose proof (fun p' => count_insert pastLock (sys_threads s) i p p' Hi)
    as Hins.
  destruct p as [|token expiry| | |k|res]; try discriminate.
  - destruct (sys_locked s) eqn:Hl; [discriminate|]. injection Hstep as <-.
    split.
    + pose proof (lockDiscipline_keep s i PStart
                    (PSnapshot (accessToken (sys_tm s)) (tokenExpiry (sys_tm s)))
                    (sys_exchanges s) Hlock Hi eq_refl) as Hkeep.
      rewrite Hl in Hkeep. exact Hkeep.
    + cbn. specialize (Hins (PSnapshot (accessToken (sys_tm s))
                                (tokenExpiry (sys_tm s)))). cbn in Hins. lia.
  - destruct (tokenFresh token expiry (sys_clock s)); injection Hstep as <-.
    + split; [eapply lockDiscipline_keep; eauto|].
      cbn. specialize (Hins (PDone (inl token))). cbn in Hins. lia.
    + split; [eapply lockDiscipline_keep; eauto|].
      cbn. specialize (Hins PWaitLock). cbn in Hins. lia.
  - destruct (sys_locked s) eqn:Hl; [discriminate|]. injection Hstep as <-.
    split; [apply lockDiscipline_acquire; assumption|].
    cbn. specialize (Hins PLocked). cbn in Hins. lia.
  - destruct (tokenFresh _ _ _).
    { injection Hstep as <-.
      split; [eapply lockDiscipline_release; eauto|].
      cbn. specialize (Hins (PDone (inl (accessToken (sys_tm s))))).
      cbn in Hins. lia. }
    destruct (negb _).
    { injection Hstep as <-.
      split; [eapply lockDiscipline_release; eauto|].
      cbn.
      specialize (Hins (PDone (inr (EWrap
                                      "digikey: failed to create token request"
                                      ENewRequest)))).
      cbn in Hins. lia. }
    injection Hstep as <-.
    split.
    + assert (Hlk : sys_locked s = true)
        by (eapply holder_locked; eauto).
      pose proof (lockDiscipline_keep s i PLocked
                    (PExchanging (sys_exchanges s)) (S (sys_exchanges s))
                    Hlock Hi eq_refl) as Hkeep.
      rewrite Hlk in Hkeep. exact Hkeep.
    + cbn. specialize (Hins (PExchanging (sys_exchanges s))).
      cbn in Hins. lia.
  - destruct (refreshToken_finish _ _ _) as [res tm']. injection Hstep as <-.
    split; [eapply lockDiscipline_release; eauto|].
    cbn. specialize (Hins (PDone res)). cbn in Hins. lia.
Qed.

Lemma run_lock (acts : list action) :
  forall s s',
    run env acts s = Some s' ->
    lockDiscipline s ->
    (sys_exchanges s <= length (List.filter pastLock (sys_threads s)))%nat ->
    lockDiscipline s'
    /\ (sys_exchanges s' <= length (List.filter pastLock (sys_threads s')))%nat.
Proof.
  induction acts as [|a acts IH]; intros s s' Hrun Hlock Hcount; cbn in Hrun.
  - injection Hrun as <-. auto.
  - destruct (step env a s) as [s1|] eqn:Hs; [|discriminate].
    destruct (step_lock a s s1 Hs Hlock Hcount) as [Hlock1 Hcount1].
    eapply IH; eauto.
Qed.

End LockFacts.

(** X22. Whatever the schedule and whatever the token endpoint answers,
    token exchanges are serialized by the lock of the credential manager:
    at no point are two callers inside [refreshToken], so at most one
    exchange is in flight, and [n] callers cause at most [n] exchanges, one
    per caller that went through the lock. *)
Theorem X22_token_exchanges_serialized `{!Externals} (env : Env) (n : nat)
  (tm : tokenManager) (now : Time) (acts : list action) (s : Sys) :
  run env acts (initSys n tm now) = Some s ->
  (forall i j p q,
      sys_threads s !! i = Some p -> sys_threads s !! j = Some q ->
      holder p = true -> holder q = true -> i = j)
  /\ (forall i j k1 k2,
        sys_threads s !! i = Some (PExchanging k1) ->
        sys_threads s !! j = Some (PExchanging k2) -> i = j)
  /\ (sys_exchanges s <= length (List.filter pastLock (sys_threads s)))%nat
  /\ (sys_exchanges s <= n)%nat.
Proof.
  intros Hrun.
  assert (Hinit : lockDiscipline (initSys n tm now)).
  { split; cbn.
    - intros _ i p Hi. apply lookup_replicate in Hi as [-> _]. reflexivity.
    - intros i j p q Hi _ Hp. apply lookup_replicate in Hi as [-> _].
      discriminate. }
  destruct (run_lock env acts _ _ Hrun Hinit) as [[_ Huniq] Hcount].
  { cbn. lia. }
  split; [exact Huniq|]. split.
  - intros i j k1 k2 Hi Hj. eapply Huniq; eauto.
  - split; [exact Hcount|].
    pose proof (count_le_length pastLock (sys_threads s)) as Hle.
    rewrite (run_threads_length env acts _ _ Hrun) in Hle.
    cbn in Hle. rewrite length_replicate in Hle. lia.
Qed.

(** ** Building a client *)

Lemma lastOption_snoc {A : Type} (pick : ClientOption -> option A)
  (opts : list ClientOption) (opt : ClientOption) (d : A) :
  lastOption pick (opts ++ [opt]) d
  = default (lastOption pick opts d) (pick opt).
Proof. unfold lastOption. rewrite fold_left_app. reflexivity. Qed.

(** Going through the options a second time changes nothing that the last
    option of a kind decides. *)
Lemma lastOption_twice {A : Type} (pick : ClientOption -> option A)
  (opts : list ClientOption) :
  forall d, lastOption pick opts (lastOption pick opts d)
            = lastOption pick opts d.
Proof.
  induction opts as [|opt opts IH] using rev_ind; intros d; [reflexivity|].
  rewrite !lastOption_snoc.
  destruct (pick opt) as [a|] eqn:Hp; cbn [default]; [reflexivity|].
  apply IH.
Qed.

Section NewClientFacts.
Variable DefaultCacheConfig : CacheConfig.
Variable DefaultRetryConfig : RetryConfig.
Variable NoRetry : RetryConfig.

Lemma applyOption_fields (c : ClientStruct) (opt : ClientOption) :
  cs_httpClient (applyOption NoRetry c opt)
  = default (cs_httpClient c) (pickHTTPClient opt)
  /\ cs_baseURL (applyOption NoRetry c opt)
     = default (cs_baseURL c) (pickBaseURL opt)
  /\ cs_clientID (applyOption NoRetry c opt) = cs_clientID c
  /\ cs_rateLimiter (applyOption NoRetry c opt)
     = default (cs_rateLimiter c) (pickRateLimiter opt)
  /\ cs_retryConfig (applyOption NoRetry c opt)
     = default (cs_retryConfig c) (pickRetryConfig NoRetry opt)
  /\ cs_cache (applyOption NoRetry c opt)
     = default (cs_cache c) (pickCache opt)
  /\ cs_locale (applyOption NoRetry c opt)
     = default (cs_locale c) (pickLocale opt)
  /\ cs_cacheConfig (applyOption NoRetry c opt)
     = cacheConfigStep (cs_cacheConfig c) opt
  /\ cs_tokenManager (applyOption NoRetry c opt)
     = match cs_tokenManager c with
       | Some (h, tm) =>
           Some (h, mkTokenManager (tm_clientID tm) (tm_clientSecret tm)
                      (default (tokenURL tm) (pickTokenURL opt))
                      (accessToken tm) (tokenExpiry tm))
       | None => None
       end.
Proof.
  destruct opt; cbn; repeat apply conj; try reflexivity;
    destruct (cs_tokenManager c) as [[hc [? ? ? ? ?]]|] eqn:Htm; cbn;
    rewrite ?Htm; reflexivity.
Qed.

Lemma applyOptions_fields (opts : list ClientOption) :
  forall c,
    cs_httpClient (applyOptions NoRetry c opts)
    = lastOption pickHTTPClient opts (cs_httpClient c)
    /\ cs_baseURL (applyOptions NoRetry c opts)
       = lastOption pickBaseURL opts (cs_baseURL c)
    /\ cs_clientID (applyOptions NoRetry c opts) = cs_clientID c
    /\ cs_rateLimiter (applyOptions NoRetry c opts)
       = lastOption pickRateLimiter opts (cs_rateLimiter c)
    /\ cs_retryConfig (applyOptions NoRetry c opts)
       = lastOption (pickRetryConfig NoRetry) opts (cs_retryConfig c)
    /\ cs_cache (applyOptions NoRetry c opts)
       = lastOption pickCache opts (cs_cache c)
    /\ cs_locale (applyOptions NoRetry c opts)
       = lastOption pickLocale opts (cs_locale c)
    /\ cs_cacheConfig (applyOptions NoRetry c opts)
       = cacheConfigAfter opts (cs_cacheConfig c)
    /\ cs_tokenManager (applyOptions NoRetry c opts)
       = match cs_tokenManager c with
         | Some (h, tm) =>
             Some (h, mkTokenManager (tm_clientID tm) (tm_clientSecret tm)
                        (lastOption pickTokenURL opts (tokenURL tm))
                        (accessToken tm) (tokenExpiry tm))
         | None => None
         end.
Proof.
  unfold applyOptions, lastOption, cacheConfigAfter.
  induction opts as [|opt opts IH]; intros c.
  { cbn. repeat apply conj; try reflexivity.
    destruct (cs_tokenManager c) as [[hc [? ? ? ? ?]]|]; reflexivity. }
  cbn [fold_left].
  destruct (IH (applyOption NoRetry c opt))
    as (H1 & H2 & H3 & H4 & H5 & H6 & H7 & H8 & H9).
  destruct (applyOption_fields c opt)
    as (G1 & G2 & G3 & G4 & G5 & G6 & G7 & G8 & G9).
  rewrite H1, H2, H3, H4, H5, H6, H7, H8, H9.
  rewrite G1, G2, G3, G4, G5, G6, G7, G8, G9.
  repeat apply conj; try reflexivity.
  destruct (cs_tokenManager c) as [[hc tm0]|]; reflexivity.
Qed.

Lemma cacheConfig_disabled_start (opts : list ClientOption) :
  forall cfg,
    cacheConfigStep
      (cacheConfigAfter opts
         (mkCacheConfig false (SearchTTL cfg) (DetailsTTL cfg))) WithoutCache
    = cacheConfigStep (cacheConfigAfter opts cfg) WithoutCache.
Proof.
  unfold cacheConfigAfter.
  induction opts as [|opt opts IH] using rev_ind; intros cfg; [reflexivity|].
  rewrite !fold_left_app. cbn [fold_left].
  destruct opt; try apply IH; reflexivity.
Qed.

(** Going through the options a second time leaves the cache configuration
    as the first pass left it. *)
Lemma cacheConfig_twice (opts : list ClientOption) :
  forall cfg,
    cacheConfigAfter opts (cacheConfigAfter opts cfg)
    = cacheConfigAfter opts cfg.
Proof.
  induction opts as [|opt opts IH] using rev_ind; intros cfg; [reflexivity|].
  unfold cacheConfigAfter in *. rewrite !fold_left_app. cbn [fold_left].
  destruct opt; cbn [cacheConfigStep]; try apply IH; try reflexivity.
  pose proof (cacheConfig_disabled_start opts
                (fold_left cacheConfigStep opts cfg)) as Hd.
  unfold cacheConfigAfter in Hd. cbn [cacheConfigStep] in Hd.
  rewrite IH in Hd. exact Hd.
Qed.

End NewClientFacts.

(** X23. [NewClient] creates the token manager between its two passes over
    the options. The manager gets the HTTP client that the options chose
    (the last [WithHTTPClient], else the default client with the 30 s
    timeout), the client's credentials, and the URL of the last
    [WithTokenURL], which only the second pass can apply, else the default
    URL. It holds no token, so the first [getToken] goes to the token
    endpoint. *)
Theorem X23_NewClient_token_manager (DefaultCacheConfig : CacheConfig)
  (DefaultRetryConfig NoRetry : RetryConfig) (clientID clientSecret : string)
  (opts : list ClientOption) (now : Time) :
  let c :=
    NewClient DefaultCacheConfig DefaultRetryConfig NoRetry clientID
      clientSecret opts now in
  let h :=
    lastOption pickHTTPClient opts (Some (MadeHTTPClient defaultTimeout)) in
  cs_httpClient c = h
  /\ cs_clientID c = clientID
  /\ exists tm,
       cs_tokenManager c = Some (h, tm)
       /\ tm_clientID tm = clientID /\ tm_clientSecret tm = clientSecret
       /\ tokenURL tm = lastOption pickTokenURL opts defaultTokenURL
       /\ (forall t, tokenFresh (accessToken tm) (tokenExpiry tm) t = false)
       /\ cs_tokenManager
            (applyOptions NoRetry
               (clientDefaults DefaultCacheConfig DefaultRetryConfig clientID
                  now) opts) = None.
Proof.
  intros c h. subst c h. unfold NewClient.
  set (c0 := clientDefaults DefaultCacheConfig DefaultRetryConfig clientID now).
  destruct (applyOptions_fields NoRetry opts c0)
    as (F1 & F2 & F3 & F4 & F5 & F6 & F7 & F8 & F9).
  set (c1 := applyOptions NoRetry c0 opts) in *.
  set (c2 := mkClientStruct (cs_httpClient c1) (cs_baseURL c1) (cs_clientID c1)
               (Some (cs_httpClient c1, newTokenManager clientID clientSecret ""))
               (cs_rateLimiter c1) (cs_retryConfig c1) (cs_cache c1)
               (cs_cacheConfig c1) (cs_locale c1)).
  set (c3 := match cs_cache c2 with
             | Some _ => c2
             | None =>
                 if Enabled (cs_cacheConfig c2)
                 then mkClientStruct (cs_httpClient c2) (cs_baseURL c2)
                        (cs_clientID c2) (cs_tokenManager c2)
                        (cs_rateLimiter c2) (cs_retryConfig c2)
                        (Some (MadeMemoryCache (DetailsTTL (cs_cacheConfig c2))))
                        (cs_cacheConfig c2) (cs_locale c2)
                 else c2
             end).
  assert (H3 : cs_httpClient c3 = cs_httpClient c1
               /\ cs_clientID c3 = cs_clientID c1
               /\ cs_tokenManager c3
                  = Some (cs_httpClient c1,
                          newTokenManager clientID clientSecret "")).
  { subst c3. destruct (cs_cache c2); [cbn; auto|].
    destruct (Enabled (cs_cacheConfig c2)); cbn; auto. }
  destruct H3 as (Hh & Hid & Htm).
  destruct (applyOptions_fields NoRetry opts c3)
    as (G1 & G2 & G3 & G4 & G5 & G6 & G7 & G8 & G9).
  rewrite G1, G3, G9, Hh, Hid, Htm, F1, F3. cbn [cs_httpClient cs_clientID c0
    clientDefaults].
  rewrite lastOption_twice.
  split; [reflexivity|]. split; [reflexivity|].
  eexists. split; [reflexivity|]. cbn.
  repeat apply conj; try reflexivity.
  exact F9.
Qed.

(** X24. The second pass of [NewClient] over the options changes nothing
    else: every other field is what the last option of its kind says, or
    the default. The default memory cache is made when, after the first
    pass, caching is enabled and no cache was given, with the details TTL as
    its default TTL; a cache given by [WithCache] replaces it, and so does a
    nil one, which leaves the client without a cache. *)
Theorem X24_NewClient_single_pass (DefaultCacheConfig : CacheConfig)
  (DefaultRetryConfig NoRetry : RetryConfig) (clientID clientSecret : string)
  (opts : list ClientOption) (now : Time) :
  let c :=
    NewClient DefaultCacheConfig DefaultRetryConfig NoRetry clientID
      clientSecret opts now in
  let config := cacheConfigAfter opts DefaultCacheConfig in
  cs_baseURL c = lastOption pickBaseURL opts defaultBaseURL
  /\ cs_locale c = lastOption pickLocale opts DefaultLocale
  /\ cs_rateLimiter c
     = lastOption pickRateLimiter opts (Some (NewRateLimiter now))
  /\ cs_retryConfig c
     = lastOption (pickRetryConfig NoRetry) opts DefaultRetryConfig
  /\ cs_cacheConfig c = config
  /\ cs_cache c
     = lastOption pickCache opts
         (if Enabled config
          then Some (MadeMemoryCache (DetailsTTL config))
          else None).
Proof.
  intros c config. subst c config. unfold NewClient.
  set (c0 := clientDefaults DefaultCacheConfig DefaultRetryConfig clientID now).
  destruct (applyOptions_fields NoRetry opts c0)
    as (F1 & F2 & F3 & F4 & F5 & F6 & F7 & F8 & F9).
  set (c1 := applyOptions NoRetry c0 opts) in *.
  set (c2 := mkClientStruct (cs_httpClient c1) (cs_baseURL c1) (cs_clientID c1)
               (Some (cs_httpClient c1, newTokenManager clientID clientSecret ""))
               (cs_rateLimiter c1) (cs_retryConfig c1) (cs_cache c1)
               (cs_cacheConfig c1) (cs_locale c1)).
  set (c3 := match cs_cache c2 with
             | Some _ => c2
             | None =>
                 if Enabled (cs_cacheConfig c2)
                 then mkClientStruct (cs_httpClient c2) (cs_baseURL c2)
                        (cs_clientID c2) (cs_tokenManager c2)
                        (cs_rateLimiter c2) (cs_retryConfig c2)
                        (Some (MadeMemoryCache (DetailsTTL (cs_cacheConfig c2))))
                        (cs_cacheConfig c2) (cs_locale c2)
                 else c2
             end).
  assert (H3 : cs_baseURL c3 = cs_baseURL c1 /\ cs_locale c3 = cs_locale c1
               /\ cs_rateLimiter c3 = cs_rateLimiter c1
               /\ cs_retryConfig c3 = cs_retryConfig c1
               /\ cs_cacheConfig c3 = cs_cacheConfig c1
               /\ cs_cache c3
                  = match cs_cache c1 with
                    | Some x => Some x
                    | None =>
                        if Enabled (cs_cacheConfig c1)
                        then Some (MadeMemoryCache
                                     (DetailsTTL (cs_cacheConfig c1)))
                        else None
                    end).
  { subst c3. cbn [cs_cache c2 cs_cacheConfig].
    destruct (cs_cache c1); [cbn; auto 10|].
    destruct (Enabled (cs_cacheConfig c1)); cbn; auto 10. }
  destruct H3 as (Hb & Hl & Hr & Hrc & Hcc & Hc).
  destruct (applyOptions_fields NoRetry opts c3)
    as (G1 & G2 & G3 & G4 & G5 & G6 & G7 & G8 & G9).
  rewrite G2, G4, G5, G6, G7, G8, Hb, Hl, Hr, Hrc, Hcc, Hc.
  rewrite F2, F4, F5, F6, F7, F8.
  cbn [cs_baseURL cs_locale cs_rateLimiter cs_retryConfig cs_cacheConfig
       cs_cache c0 clientDefaults].
  rewrite !lastOption_twice, cacheConfig_twice.
  repeat apply conj; try reflexivity.
  (* the cache: the last [WithCache], if any, decides in both passes *)
  generalize (if Enabled (cacheConfigAfter opts DefaultCacheConfig)
              then Some (MadeMemoryCache
                           (DetailsTTL (cacheConfigAfter opts DefaultCacheConfig)))
              else None).
  intros made. clear.
  induction opts as [|opt opts IH] using rev_ind; [reflexivity|].
  rewrite !lastOption_snoc.
  destruct (pickCache opt) as [x|] eqn:Hp; cbn [default].
  - destruct x; reflexivity.
  - exact IH.
Qed.

(** ** The pipeline: a request answered at once *)

(** X25. When the limiter grants the first attempt, a credential is at hand
    and the request can be built, [do] sends one request: the method and
    URL asked for, the encoded body, the bearer token just obtained, the
    client id and the locale. A readable 2xx answer ends the call with no
    error after that single attempt: with the decoded value when there is a
    result to decode into and the body is not empty, and with nothing
    decoded, the body not even looked at, when [result] is nil or the body
    is empty. *)
Theorem X25_do_answered_at_once `{!Externals} (c : Client) (env : Env)
  {R : Type} (req : Request) (result : option (string -> option R))
  (w w1 : World) (rl : RateLimiter) (token : string) (resp : Response)
  (latency : Duration) :
  0 <= MaxRetries (retryConfig c) < int_max ->
  Allow (rateLimiter w) (clock w) = (None, rl) ->
  getToken env (set_rateLimiter (tick_allowCalls w) rl) = (inl token, w1) ->
  rq_body req <> Some None ->
  http_NewRequest_ok (rq_method req) (baseURL c +:+ rq_path req) = true ->
  apiEndpoint env (sends w1)
    {| hr_method := rq_method req;
       hr_url := baseURL c +:+ rq_path req;
       hr_body := default "" (default None (rq_body req));
       hr_Authorization := "Bearer " +:+ token;
       hr_ClientId := clientID c;
       hr_Locale := locale c |}
  = (DoResponse resp, latency) ->
  resp_ReadFails resp = false ->
  200 <= resp_StatusCode resp < 300 ->
  let w2 := set_clock (tick_sends w1) (time_Add (clock w1) latency) in
  let ev := Attempt 0 (resp_StatusCode resp) false None in
  (forall unmarshal v,
      result = Some unmarshal -> resp_Body resp <> "" ->
      unmarshal (resp_Body resp) = Some v ->
      do c env req result w = (None, Some v, w2, [ev]))
  /\ (result = None \/ resp_Body resp = "" ->
      do c env req result w = (None, None, w2, [ev])).
Proof.
  intros Hmax Hallow Htok Hbody Hurl Hep Hread Hst w2 ev.
  assert (Hn : exists n, Z.to_nat (maxAttempts c) = S n).
  { unfold maxAttempts, int_add.
    rewrite wrap_small by (unfold int_min, int_max in *; lia).
    exists (Z.to_nat (MaxRetries (retryConfig c))). lia. }
  destruct Hn as [n Hn].
  assert (Hdo : doOnce c env req result w = classify result resp w2).
  { unfold doOnce. rewrite Hallow, Htok.
    destruct (rq_body req) as [[body|]|] eqn:Hb; [|contradiction|];
      rewrite Hurl; cbn [negb]; cbn zeta; rewrite Hep; reflexivity. }
  assert (Hcls : classify result resp w2
                 = (match result with
                    | Some unmarshal =>
                        if 0 <? Z.of_nat (String.length (resp_Body resp)) then
                          match unmarshal (resp_Body resp) with
                          | None =>
                              mkOutcome (resp_StatusCode resp) false
                                (Some (EWrap "digikey: failed to parse response"
                                         EJSON)) None
                          | Some v =>
                              mkOutcome (resp_StatusCode resp) false None (Some v)
                          end
                        else mkOutcome (resp_StatusCode resp) false None None
                    | None => mkOutcome (resp_StatusCode resp) false None None
                    end, w2)).
  { unfold classify. rewrite Hread.
    destruct (Z.eqb_spec (resp_StatusCode resp) 429); [lia|].
    destruct (Z.eqb_spec (resp_StatusCode resp) 401); [lia|].
    destruct (Z.ltb_spec (resp_StatusCode resp) 200); [lia|].
    destruct (Z.leb_spec 300 (resp_StatusCode resp)); [lia|].
    cbn [orb]. repeat case_match; reflexivity. }
  assert (Hloop : forall o,
            classify result resp w2 = (o, w2) -> out_err o = None ->
            out_statusCode o = resp_StatusCode resp ->
            out_shouldRetry o = false ->
            do c env req result w = (None, out_value o, w2, [ev])).
  { intros o Ho Herr Hcode Hretry. unfold do, doWithRetry. rewrite Hn.
    cbn [retryLoop]. unfold backoffSleep. cbn [Z.ltb Z.compare].
    rewrite Hdo, Ho, Herr. subst ev. rewrite Hcode, Hretry. reflexivity. }
  split.
  - intros unmarshal v -> Hne Hdec.
    rewrite Hdec in Hcls.
    destruct (resp_Body resp) as [|a body] eqn:Hb; [contradiction|].
    cbn [String.length] in Hcls.
    destruct (Z.ltb_spec 0 (Z.of_nat (S (String.length body)))); [|lia].
    apply (Hloop _ Hcls); reflexivity.
  - intros [-> | Hempty].
    + apply (Hloop _ Hcls); reflexivity.
    + rewrite Hempty in Hcls. cbn in Hcls.
      destruct result; apply (Hloop _ Hcls); reflexivity.
Qed.

(** ** The search builder: filters *)

Lemma filterStep_fields (r : FilteredRequest) (call : filterCall) :
  let r' := filterStep r call in
  CategoryIDs (filtersOrEmpty r')
  = CategoryIDs (filtersOrEmpty r) ++ categoryArgs call
  /\ ManufacturerIDs (filtersOrEmpty r')
     = ManufacturerIDs (filtersOrEmpty r) ++ manufacturerArgs call
  /\ StatusIDs (filtersOrEmpty r')
     = StatusIDs (filtersOrEmpty r) ++ statusArgs call
  /\ PackageTypeIDs (filtersOrEmpty r')
     = PackageTypeIDs (filtersOrEmpty r) ++ packageTypeArgs call
  /\ ParametricFilters (filtersOrEmpty r')
     = ParametricFilters (filtersOrEmpty r) ++ parametricArgs call
  /\ fr_SearchOptions r' = fr_SearchOptions r ++ searchOptionArgs call
  /\ fr_Sort r' = default (fr_Sort r) (Some <$> sortArg call)
  /\ fr_RequestedQuantity r'
     = default (fr_RequestedQuantity r) (quantityArg call)
  /\ (fr_Filters r' = None
      <-> fr_Filters r = None /\ touchesFilters call = false).
Proof.
  destruct call; cbn; rewrite ?app_nil_r;
    repeat apply conj; try reflexivity;
    try (intros H; discriminate H);
    try (intros [_ H]; discriminate H);
    try (intros H; split; [exact H|reflexivity]);
    try (intros [H _]; exact H).
Qed.

(** X26. The filter methods of the builder accumulate. Whatever chain of
    calls follows [NewSearch], each list of the filters holds the arguments
    of all the calls of its method, in call order, one parametric filter
    per [AddParametricFilter]; [WithSearchOptions] accumulates likewise,
    while [SortBy] and [WithQuantity] keep the last call only. [Filters]
    stays nil exactly as long as no filter method is called, even with no
    ids. *)
Theorem X26_filter_builder_accumulates (calls : list filterCall) :
  let r := filterChain calls in
  let f := filtersOrEmpty r in
  CategoryIDs f = flat_map categoryArgs calls
  /\ ManufacturerIDs f = flat_map manufacturerArgs calls
  /\ StatusIDs f = flat_map statusArgs calls
  /\ PackageTypeIDs f = flat_map packageTypeArgs calls
  /\ ParametricFilters f = flat_map parametricArgs calls
  /\ fr_SearchOptions r = flat_map searchOptionArgs calls
  /\ fr_Sort r = last (omap sortArg calls)
  /\ fr_RequestedQuantity r = default 0 (last (omap quantityArg calls))
  /\ (fr_Filters r = None
      <-> Forall (fun call => touchesFilters call = false) calls).
Proof.
  intros r f. subst r f. unfold filterChain.
  assert (Hgen : forall r0,
    let r := fold_left filterStep calls r0 in
    CategoryIDs (filtersOrEmpty r)
    = CategoryIDs (filtersOrEmpty r0) ++ flat_map categoryArgs calls
    /\ ManufacturerIDs (filtersOrEmpty r)
       = ManufacturerIDs (filtersOrEmpty r0) ++ flat_map manufacturerArgs calls
    /\ StatusIDs (filtersOrEmpty r)
       = StatusIDs (filtersOrEmpty r0) ++ flat_map statusArgs calls
    /\ PackageTypeIDs (filtersOrEmpty r)
       = PackageTypeIDs (filtersOrEmpty r0) ++ flat_map packageTypeArgs calls
    /\ ParametricFilters (filtersOrEmpty r)
       = ParametricFilters (filtersOrEmpty r0) ++ flat_map parametricArgs calls
    /\ fr_SearchOptions r
       = fr_SearchOptions r0 ++ flat_map searchOptionArgs calls
    /\ fr_Sort r = default (fr_Sort r0) (Some <$> last (omap sortArg calls))
    /\ fr_RequestedQuantity r
       = default (fr_RequestedQuantity r0) (last (omap quantityArg calls))
    /\ (fr_Filters r = None
        <-> fr_Filters r0 = None
            /\ Forall (fun call => touchesFilters call = false) calls)).
  { induction calls as [|call calls IH]; intros r0 r.
    { subst r. cbn. rewrite !app_nil_r. repeat apply conj; try reflexivity.
      - intros Hx. split; [exact Hx|constructor].
      - intros [Hx _]. exact Hx. }
    subst r. cbn [fold_left flat_map].
    destruct (IH (filterStep r0 call))
      as (H1 & H2 & H3 & H4 & H5 & H6 & H7 & H8 & H9).
    destruct (filterStep_fields r0 call)
      as (G1 & G2 & G3 & G4 & G5 & G6 & G7 & G8 & G9).
    cbn zeta in *.
    rewrite H1, H2, H3, H4, H5, H6, H7, H8, G1, G2, G3, G4, G5, G6, G7, G8.
    rewrite <- !app_assoc.
    repeat apply conj; try reflexivity.
    - change (omap sortArg (call :: calls))
        with (match sortArg call with
              | Some y => y :: omap sortArg calls
              | None => omap sortArg calls
              end).
      destruct (sortArg call) as [s|]; cbn [fmap option_fmap
        option_map default]; [|reflexivity].
      destruct (omap sortArg calls) as [|s' l] eqn:Hl; [reflexivity|].
      change (last (s :: s' :: l)) with (last (s' :: l)).
      destruct (last (s' :: l)) eqn:Hlast; [reflexivity|].
      apply last_None in Hlast. discriminate.
    - change (omap quantityArg (call :: calls))
        with (match quantityArg call with
              | Some y => y :: omap quantityArg calls
              | None => omap quantityArg calls
              end).
      destruct (quantityArg call) as [q|]; cbn [default];
        [|reflexivity].
      destruct (omap quantityArg calls) as [|q' l] eqn:Hl; [reflexivity|].
      change (last (q :: q' :: l)) with (last (q' :: l)).
      destruct (last (q' :: l)) eqn:Hlast; [reflexivity|].
      apply last_None in Hlast. discriminate.
    - intros Hx. apply H9 in Hx as [Hx Hall]. apply G9 in Hx as [Hx Ht].
      split; [exact Hx|constructor; assumption].
    - intros [Hx Hall]. apply Forall_cons in Hall as [Ht Hall].
      apply H9. split; [apply G9; auto|exact Hall]. }
  destruct (Hgen unfiltered) as (H1 & H2 & H3 & H4 & H5 & H6 & H7 & H8 & H9).
  cbn zeta in *. rewrite H1, H2, H3, H4, H5, H6, H7, H8.
  cbn [unfiltered filtersOrEmpty fr_Filters fr_Sort fr_RequestedQuantity
       fr_SearchOptions default CategoryIDs ManufacturerIDs StatusIDs
       PackageTypeIDs ParametricFilters app].
  repeat apply conj; try reflexivity.
  - destruct (last (omap sortArg calls)); reflexivity.
  - intros Hx. apply H9 in Hx as [_ Hall]. exact Hall.
  - intros Hall. apply H9. split; [reflexivity|exact Hall].
Qed.

(** ** The locale changed while a search is in flight *)

(** X27. [KeywordSearch] reads the locale once for the key of its cache
    look-up and again for the key of its store, the request in between. If
    [SetLocale] changes it meanwhile, the response obtained under the old
    locale is stored under the key of the new one, and the client, now in
    the new locale, answers the same search from the cache with it, without
    the limiter or the network. When the two reads agree the operation is
    [KeywordSearch] as modelled above. *)
Theorem X27_locale_change_poisons_cache `{!Externals} (c : Client)
  (env : Env) (newLocale : Locale) :
  (forall req w,
      KeywordSearch_racing c env (locale c) req w = KeywordSearch c env req w)
  /\ forall req w resp w' evs data,
       Enabled (cacheConfig c) = true ->
       KeywordSearch_racing c env newLocale (Some req) w = (inl resp, w', evs) ->
       fst (cacheLookup c json_Unmarshal_SearchResponse
              (cacheKeyForSearch (locale c) (clampLimit req)) w) = None ->
       cache w <> None ->
       json_Marshal_SearchResponse resp = Some data ->
       let key := cacheKeyForSearch newLocale (clampLimit req) in
       let expiry := time_Add (clock w') (SearchTTL (cacheConfig c)) in
       exists m',
         cache w' = Some m'
         /\ m' !! key = Some {| ce_value := data; ce_expiresAt := expiry |}
         /\ forall resp' w2,
              json_Unmarshal_SearchResponse data = Some resp' ->
              cache w2 = Some m' -> clock w2 < expiry ->
              KeywordSearch (SetLocale c newLocale) env (Some req) w2
              = (inl resp', w2, []).
Proof.
  split; [intros req w; reflexivity|].
  intros req w resp w' evs data Hen Hcall Hmiss Hcache Hdata key expiry.
  unfold KeywordSearch_racing in Hcall.
  destruct (String.eqb_spec (Keywords req) "") as [|Hk]; [discriminate|].
  destruct (cacheLookup_shrinks c json_Unmarshal_SearchResponse
              (cacheKeyForSearch (locale c) (clampLimit req)) w) as [_ Hsub].
  destruct (cacheLookup c _ _ w) as [hit w0]. cbn [fst snd] in Hmiss, Hsub.
  subst hit.
  destruct (cache w) as [m|] eqn:Hc; [|contradiction].
  destruct (cache w0) as [m0|] eqn:Hc0; [|contradiction].
  pose proof (doWithRetry_advances c env
                {| rq_method := "POST";
                   rq_path := searchBasePath +:+ "/keyword";
                   rq_body := Some (json_Marshal_SearchRequest (clampLimit req)) |}
                (Some json_Unmarshal_SearchResponse) false w0)
    as [Hadv _].
  fold (do c env
          {| rq_method := "POST";
             rq_path := searchBasePath +:+ "/keyword";
             rq_body := Some (json_Marshal_SearchRequest (clampLimit req)) |}
          (Some json_Unmarshal_SearchResponse) w0) in Hadv.
  destruct (do c env _ _ w0) as [[[err v] w1] evs1].
  destruct Hadv as (_ & _ & _ & Hcache1 & _). cbn in Hcache1.
  destruct err; [discriminate|].
  injection Hcall as Hresp Hw Hevs. rewrite Hresp in Hw.
  unfold cacheStore in Hw. rewrite Hcache1, Hc0, Hen, Hdata in Hw.
  subst w'. subst expiry. cbn [cache set_cache clock] in *.
  exists (cache_Set m0 key data (SearchTTL (cacheConfig c)) (clock w1)).
  unfold cache_Set. split; [reflexivity|].
  split; [apply lookup_insert_eq|].
  intros resp' w2 Hdec Hc2 Hexp. unfold KeywordSearch.
  apply String.eqb_neq in Hk. rewrite Hk.
  change (locale (SetLocale c newLocale)) with newLocale. fold key.
  rewrite (cacheLookup_hit (SetLocale c newLocale) _ key w2 _ _ resp' Hen Hc2
             (lookup_insert_eq _ _ _) Hexp Hdec).
  reflexivity.
Qed.

(** ** Concurrent callers of [getToken]: progress *)

Section ProgressFacts.
Context `{!Externals}.
Variable env : Env.

Lemma insert_holder (l : list pc) (i : nat) (p p' : pc) :
  l !! i = Some p -> holder p' = true ->
  exists j q, <[i := p']> l !! j = Some q /\ holder q = true.
Proof.
  intros Hi Hp'. exists i, p'. split; [|exact Hp'].
  apply list_lookup_insert_eq. eapply lookup_lt_Some; eauto.
Qed.

Lemma insert_keeps_holder (l : list pc) (i : nat) (p p' : pc) :
  l !! i = Some p -> holder p = false ->
  (exists j q, l !! j = Some q /\ holder q = true) ->
  exists j q, <[i := p']> l !! j = Some q /\ holder q = true.
Proof.
  intros Hi Hp (j & q & Hj & Hq). exists j, q. split; [|exact Hq].
  rewrite list_lookup_insert_ne; [exact Hj|].
  intros ->. rewrite Hi in Hj. injection Hj as ->. congruence.
Qed.

Lemma step_lockHasHolder (a : action) (s s' : Sys) :
  step env a s = Some s' -> lockHasHolder s -> lockHasHolder s'.
Proof.
  intros Hstep Hheld. destruct a as [i|d]; cbn in Hstep.
  2:{ destruct (d <? 0); [discriminate|]. injection Hstep as <-.
      exact Hheld. }
  unfold step_thread, set_thread in Hstep.
  destruct (sys_threads s !! i) as [p|] eqn:Hi; [|discriminate].
  destruct p as [|token expiry| | |k|res]; try discriminate.
  - destruct (sys_locked s) eqn:Hl; [discriminate|]. injection Hstep as <-.
    intros Hx. cbn in Hx. congruence.
  - destruct (tokenFresh token expiry (sys_clock s)); injection Hstep as <-;
      intros Hx; cbn in Hx |- *;
      (eapply insert_keeps_holder; [exact Hi|reflexivity|auto]).
  - destruct (sys_locked s) eqn:Hl; [discriminate|]. injection Hstep as <-.
    intros _. cbn. eapply insert_holder; [exact Hi|reflexivity].
  - destruct (tokenFresh _ _ _);
      [injection Hstep as <-; intros Hx; cbn in Hx; discriminate Hx|].
    destruct (negb _);
      [injection Hstep as <-; intros Hx; cbn in Hx; discriminate Hx|].
    injection Hstep as <-. intros _. cbn.
    eapply insert_holder; [exact Hi|reflexivity].
  - destruct (refreshToken_finish _ _ _) as [res tm']. injection Hstep as <-.
    intros Hx. discriminate Hx.
Qed.

Lemma run_lockHasHolder (acts : list action) :
  forall s s', run env acts s = Some s' -> lockHasHolder s -> lockHasHolder s'.
Proof.
  induction acts as [|a acts IH]; intros s s' Hrun Hheld; cbn in Hrun.
  - injection Hrun as <-. exact Hheld.
  - destruct (step env a s) as [s1|] eqn:Hs; [|discriminate].
    eapply IH; [exact Hrun|]. eapply step_lockHasHolder; eauto.
Qed.

End ProgressFacts.

(** X28. Concurrent callers of [getToken] never deadlock: in every state a
    schedule can reach, whatever the token endpoint answered, if some caller
    has not returned then some caller can take its next step. The lock is
    released on every path out of [refreshToken], so whoever waits for it is
    waiting for a caller that can move. *)
Theorem X28_getToken_never_deadlocks `{!Externals} (env : Env) (n : nat)
  (tm : tokenManager) (now : Time) (acts : list action) (s : Sys) :
  run env acts (initSys n tm now) = Some s ->
  (exists i p, sys_threads s !! i = Some p /\ isDone p = false) ->
  exists j s', step env (Run j) s = Some s'.
Proof.
  intros Hrun (i & p & Hi & Hp).
  assert (Hheld : lockHasHolder s).
  { eapply run_lockHasHolder; [exact Hrun|]. intros Hx. discriminate Hx. }
  destruct (sys_locked s) eqn:Hl.
  - destruct (Hheld Hl) as (j & q & Hj & Hq).
    exists j. cbn. unfold step_thread. rewrite Hj.
    destruct q; try discriminate.
    + repeat case_match; eauto.
    + destruct (refreshToken_finish _ _ _). eauto.
  - exists i. cbn. unfold step_thread. rewrite Hi, ?Hl.
    destruct p; try discriminate; rewrite ?Hl; repeat case_match; eauto.
Qed.

(** ** An attempt made without a stored credential *)

(** X29. With no token stored, as at the first call of a client and after
    the [invalidate] that follows a 401, an attempt sends its request only
    after a token exchange of its own that the token endpoint answered with
    a decodable 200; the token of that answer is the one stored when the
    attempt ends. A rejected token is never presented again without a new
    exchange. *)
Theorem X29_no_request_without_exchange `{!Externals} (c : Client)
  (env : Env) {R : Type} (req : Request)
  (result : option (string -> option R)) (w w' : World) (o : Outcome R) :
  accessToken (tokenMgr w) = "" ->
  doOnce c env req result w = (o, w') ->
  sends w' = S (sends w) ->
  exchanges w' = S (exchanges w)
  /\ exists resp latency tokenResp,
       tokenEndpoint env (exchanges w) = (DoResponse resp, latency)
       /\ resp_ReadFails resp = false /\ resp_StatusCode resp = 200
       /\ json_Unmarshal_tokenResponse (resp_Body resp) = Some tokenResp
       /\ accessToken (tokenMgr w') = AccessToken tokenResp.
Proof.
  intros Hempty Hd Hsends. unfold doOnce in Hd.
  destruct (Allow (rateLimiter w) (clock w)) as [allowErr rl].
  destruct allowErr; [simplify_eq; cbn in Hsends; lia|].
  destruct (getToken env _) as [tok w1] eqn:Hg.
  pose proof (getToken_frame env _ _ _ Hg) as (_ & _ & _ & Hse & _).
  cbn in Hse.
  destruct tok as [token|err]; [|simplify_eq; cbn in Hsends; lia].
  assert (Htoken :
    exchanges w1 = S (exchanges w)
    /\ exists resp latency tokenResp,
         tokenEndpoint env (exchanges w) = (DoResponse resp, latency)
         /\ resp_ReadFails resp = false /\ resp_StatusCode resp = 200
         /\ json_Unmarshal_tokenResponse (resp_Body resp) = Some tokenResp
         /\ accessToken (tokenMgr w1) = AccessToken tokenResp).
  { clear Hd Hsends Hse. revert Hg. unfold getToken, refreshToken. cbn.
    rewrite Hempty. cbn.
    destruct (negb (http_NewRequest_ok _ _)); [intros Hx; discriminate Hx|].
    destruct (tokenEndpoint env (exchanges w)) as [reply latency] eqn:Hep.
    cbn.
    destruct (refreshToken_finish _ _ _) as [res tm'] eqn:Hfin.
    intros Hx. injection Hx as -> <-. cbn.
    split; [reflexivity|].
    unfold refreshToken_finish in Hfin.
    destruct reply as [e|resp]; [discriminate Hfin|].
    destruct (resp_ReadFails resp) eqn:Hread; [discriminate Hfin|].
    destruct (Z.eqb_spec (resp_StatusCode resp) 200) as [Hst|Hst];
      cbn [negb] in Hfin.
    2:{ repeat case_match; discriminate Hfin. }
    destruct (json_Unmarshal_tokenResponse (resp_Body resp)) as [tokenResp|]
      eqn:Hjson; [|discriminate Hfin].
    injection Hfin as <- <-.
    exists resp, latency, tokenResp. auto. }
  destruct Htoken as (Hex & resp & latency & tokenResp & Hep & Hread & Hst
                      & Hjson & Hacc).
  assert (Hkeep : exchanges w' = exchanges w1 /\ tokenMgr w' = tokenMgr w1).
  { unfold classify in Hd.
    repeat case_match; simplify_eq; cbn; auto. }
  destruct Hkeep as [Hex' Htm'].
  rewrite Hex', Htm'. split; [exact Hex|].
  exists resp, latency, tokenResp. auto.
Qed.

(** ** The further properties on concrete runs *)

Lemma X1_witness :
  exists r e,
    allowMany (H:=exampleExternals) (NewRateLimiterWithLimits 10 3 0)
      [1; 2; 3] = (replicate 3 None, r)
    /\ fst (Allow (H:=exampleExternals) r (2 * Minute)) = Some e
    /\ Type_ e = "day".
Proof.
  destruct (X1_Allow_day_limit (H:=exampleExternals) 10 3 0 [1; 2; 3])
    as (r & Hr & Hday).
  - lia.
  - lia.
  - unfold int_max. lia.
  - reflexivity.
  - repeat constructor; vm_compute; discriminate.
  - destruct (Hday (2 * Minute)) as (e & He & Ht & _).
    + vm_compute. discriminate.
    + exists r, e. auto.
Defined.

Lemma X2_witness :
  let r := UpdateFromResponse (NewRateLimiterWithLimits 10 100 0) 30 1000 in
  fst (Allow (H:=exampleExternals) r (1001 + 30 * Second)) = None
  /\ minuteCount (snd (Allow (H:=exampleExternals) r (1001 + 30 * Second))) = 1.
Proof.
  intros r.
  destruct (X2_Allow_window_reset (H:=exampleExternals)
              (NewRateLimiterWithLimits 10 100 0) (1001 + 30 * Second))
    as [_ Hupd].
  - cbn. lia.
  - vm_compute. reflexivity.
  - destruct (Hupd 30 1000) as (Hg & Hc & _).
    + lia.
    + vm_compute. reflexivity.
    + split; [exact Hg|exact Hc].
Defined.

Lemma X3_witness :
  let r :=
    limiterRun (H:=exampleExternals) (NewRateLimiterWithLimits 2 5 0)
      [CallAllow 1; CallAllow 2; CallAllow 3; CallUpdateFromResponse 30 4;
       CallStats 5; CallAllow (2 * Minute)] in
  0 <= minuteCount r <= 2 /\ 0 <= dayCount r <= 5.
Proof.
  intros r.
  destruct (X3_limiter_counts_within_limits (H:=exampleExternals) 2 5 0
              [CallAllow 1; CallAllow 2; CallAllow 3;
               CallUpdateFromResponse 30 4; CallStats 5;
               CallAllow (2 * Minute)])
    as (Hm & Hd & _).
  - unfold int_max. lia.
  - unfold int_max. lia.
  - split; [exact Hm|exact Hd].
Defined.

Lemma X4_witness :
  let r := mkRateLimiter 10 (1 * Minute) 10 (24 * Hour) 10 100 in
  MinuteRemaining (fst (Stats r 5)) = 0
  /\ fst (Allow (H:=exampleExternals) r 5) <> None.
Proof.
  intros r.
  destruct (X4_Stats_predicts_Allow (H:=exampleExternals) r 5)
    as (Hm & _ & _ & _ & Hiff).
  - unfold withinLimits, int_max. cbn. lia.
  - split; [reflexivity|].
    intros Hg. apply Hiff in Hg. vm_compute in Hg. destruct Hg as [Hg _].
    discriminate.
Defined.

Lemma X6_witness :
  fst (allowMany (H:=exampleExternals) (NewRateLimiterWithLimits 2 10 0)
         [Minute; Minute; Minute + 1; Minute + 1])
  = [None; None; None; None].
Proof.
  apply (X6_Allow_burst_at_window_edge (H:=exampleExternals) 2 10 0).
  - lia.
  - lia.
  - unfold int_max. lia.
Defined.

Lemma X7_witness :
  let r := refreshToken (H:=exampleExternals) credentialsRefused (freshWorld 0) in
  tokenMgr (snd r) = tokenMgr (freshWorld 0)
  /\ fst r = inr (EAuth (mkAuthError "invalid_client" "Invalid credentials"))
  /\ errors_Is (EAuth (mkAuthError "invalid_client" "Invalid credentials"))
       ErrUnauthorized = true.
Proof.
  intros r.
  destruct (X7_refreshToken_failure (H:=exampleExternals) credentialsRefused
              (freshWorld 0) (snd r)
              (EAuth (mkAuthError "invalid_client" "Invalid credentials")))
    as [Htm Hcls].
  - reflexivity.
  - split; [exact Htm|]. split; [reflexivity|].
    destruct (Hcls (mkResponse 401 "{invalid_client}" "" "" false) 10000000)
      as (_ & _ & Hiff); [reflexivity| reflexivity | reflexivity | discriminate |].
    apply Hiff. right. reflexivity.
Defined.

Lemma X8_witness :
  let env :=
    {| ctx_done := None;
       tokenEndpoint := fun _ =>
         (DoResponse (mkResponse 200 "{" "" "" false), 10000000);
       apiEndpoint := fun _ _ => (DoError EIO, 0) |} in
  let w' := snd (getToken (H:=exampleExternals) env (freshWorld 0)) in
  fst (getToken (H:=exampleExternals) env (freshWorld 0)) = inl ""
  /\ exchanges (snd (getToken (H:=exampleExternals) env w')) = 2%nat.
Proof.
  intros env w'.
  destruct (X8_short_lived_token_never_reused (H:=exampleExternals) env
              (freshWorld 0) (mkResponse 200 "{" "" "" false) 10000000
              (mkTokenResponse "" "Bearer" 3600))
    as (Hres & _ & Hnext).
  - reflexivity.
  - reflexivity.
  - reflexivity.
  - reflexivity.
  - reflexivity.
  - reflexivity.
  - left. reflexivity.
  - split; [exact Hres|]. apply (Hnext w'); [reflexivity|apply Z.le_refl].
Defined.

Lemma X11_witness :
  exists e,
    res_err (do (H:=exampleExternals) exampleClient (serverAnswering 200 "{}" "")
               exampleRequest (Some decodesAsObject) blockedWorld)
    = Some (ERateLimit e)
    /\ Type_ e = "minute".
Proof.
  pose (a := Allow (H:=exampleExternals) (rateLimiter blockedWorld)
               (clock blockedWorld)).
  destruct (X11_do_refused_by_limiter (H:=exampleExternals) exampleClient
              (serverAnswering 200 "{}" "") exampleRequest
              (Some decodesAsObject) blockedWorld
              (mkRateLimitError 0 0
                 (@time_Format_RFC3339 exampleExternals (time_Add 0 Minute))
                 "minute")
              (snd a)) as [Hdo _].
  - cbn. unfold int_max. lia.
  - reflexivity.
  - eexists. rewrite Hdo. split; reflexivity.
Defined.

Lemma X12_witness :
  do (H:=exampleExternals) clientWithoutAttempts (serverAnswering 503 "" "")
    exampleRequest (Some decodesAsObject) (freshWorld 0)
  = (None, None, freshWorld 0, []).
Proof.
  apply (X12_do_without_attempts (H:=exampleExternals) clientWithoutAttempts
           (serverAnswering 503 "" "") exampleRequest (Some decodesAsObject)
           (freshWorld 0)).
  cbn. unfold int_min. lia.
Defined.

Lemma X13_witness :
  let ow :=
    doOnce (H:=exampleExternals) exampleClient (serverAnswering 404 "" "")
      exampleRequest (Some decodesAsObject) (freshWorld 0) in
  exists e,
    out_err (fst ow) = Some (EAPI e)
    /\ errors_Is (EAPI e) ErrNotFound = true
    /\ errors_Is (EAPI e) ErrServerError = false.
Proof.
  intros ow.
  destruct (X13_api_error_matches_status (H:=exampleExternals) exampleClient
              (serverAnswering 404 "" "") exampleRequest
              (Some decodesAsObject) (freshWorld 0) (snd ow) (fst ow)
              (mkResponse 404 "" "" "req-1" false))
    as (e & He & _ & _ & _ & _ & _ & Hnf & _ & _ & Hse).
  - subst ow. destruct (doOnce _ _ _ _ _). reflexivity.
  - vm_compute. reflexivity.
  - intros hr. reflexivity.
  - reflexivity.
  - right. cbn. lia.
  - exists e. split; [exact He|]. split; [apply Hnf; reflexivity|].
    apply not_true_is_false. intros Hx. apply Hse in Hx. cbn in Hx. lia.
Defined.

Lemma X14_witness :
  let r :=
    do (H:=exampleExternals) exampleClient (serverUnreadable 503)
      exampleRequest (Some decodesAsObject) (freshWorld 0) in
  res_err r = Some (EWrap "digikey: failed to read response" EIO)
  /\ length (res_events r) = 1%nat.
Proof.
  intros r.
  pose (ow := doOnce (H:=exampleExternals) exampleClient
                (serverUnreadable 503) exampleRequest
                (Some decodesAsObject) (freshWorld 0)).
  destruct (X14_unreadable_response_is_terminal (H:=exampleExternals)
              exampleClient (serverUnreadable 503) exampleRequest
              (Some decodesAsObject) false
              (doWithRetry (H:=exampleExternals) exampleClient
                 (serverUnreadable 503) exampleRequest
                 (Some decodesAsObject) true)
              3 0 None (freshWorld 0) (freshWorld 0) (snd ow) (fst ow)
              (mkResponse 503 "" "30" "req-1" true)) as (_ & Hterm & _).
  - reflexivity.
  - subst ow. destruct (doOnce _ _ _ _ _). reflexivity.
  - vm_compute. reflexivity.
  - intros hr. reflexivity.
  - reflexivity.
  - subst r. unfold do. rewrite doWithRetry_unfold.
    change (Z.to_nat (maxAttempts exampleClient)) with 4%nat.
    rewrite Hterm by (left; cbn; lia).
    split; reflexivity.
Defined.

Lemma X19_witness :
  let env := serverAnswering 200 "{part}" "" in
  let w' :=
    (ProductDetailsNoCache (H:=exampleExternals) exampleClient env
       "497-15360-ND" (freshWorld 0)).1.2 in
  ProductDetails (H:=exampleExternals) exampleClient env "497-15360-ND" w'
  = (inl "{part}", w', []).
Proof.
  intros env w'.
  pose (r := ProductDetailsNoCache (H:=exampleExternals) exampleClient env
               "497-15360-ND" (freshWorld 0)).
  destruct (X19_ProductDetailsNoCache_refreshes_cache (H:=exampleExternals)
              exampleClient env "497-15360-ND" (freshWorld 0) r.1.2 ∅
              "{part}" r.2 "{part}")
    as (m' & Hc & _ & _ & Hhit).
  - reflexivity.
  - reflexivity.
  - vm_compute. reflexivity.
  - reflexivity.
  - apply (Hhit "{part}" w'); [reflexivity|exact Hc|].
    vm_compute. reflexivity.
Defined.

Lemma X21_witness :
  let r :=
    do (H:=exampleExternals) exampleClient (serverAnswering 200 "{}" "")
      unencodableRequest (Some decodesAsObject) (freshWorld 0) in
  sends (res_world r) = 0%nat /\ allowCalls (res_world r) = 1%nat
  /\ minuteCount (rateLimiter (res_world r)) = 1
  /\ exchanges (res_world r) = 1%nat.
Proof.
  intros r.
  pose (a := Allow (H:=exampleExternals) (rateLimiter (freshWorld 0))
               (clock (freshWorld 0))).
  pose (g := getToken (H:=exampleExternals) (serverAnswering 200 "{}" "")
               (set_rateLimiter (tick_allowCalls (freshWorld 0)) (snd a))).
  destruct (X21_unbuildable_request_costs_a_grant (H:=exampleExternals)
              exampleClient (serverAnswering 200 "{}" "") unencodableRequest
              (Some decodesAsObject) (freshWorld 0) (snd g) (snd a)
              "test-token")
    as (msg & cause & Hdo & Hs & Hrl & Hac).
  - cbn. unfold int_max. lia.
  - left. reflexivity.
  - reflexivity.
  - reflexivity.
  - subst r. rewrite Hdo. cbn [res_world fst snd].
    rewrite Hs, Hrl, Hac. vm_compute. auto.
Defined.

Lemma X22_witness :
  exists s,
    run (H:=exampleExternals) credentialsRefused twoCallers
      (initSys 2 (newTokenManager "test-id" "test-secret" "") 0) = Some s
    /\ (sys_exchanges s <= 2)%nat.
Proof.
  eexists. split; [vm_compute; reflexivity|].
  eapply (X22_token_exchanges_serialized (H:=exampleExternals) credentialsRefused
            2 (newTokenManager "test-id" "test-secret" "") 0 twoCallers).
  vm_compute. reflexivity.
Defined.

Lemma X25_witness :
  let r :=
    do (H:=exampleExternals) exampleClient (serverAnswering 200 "{part}" "")
      exampleRequest (Some decodesAsObject) (freshWorld 0) in
  res_err r = None /\ res_value r = Some "{part}"
  /\ res_events r = [Attempt 0 200 false None]
  /\ sends (res_world r) = 1%nat.
Proof.
  intros r.
  pose (a := Allow (H:=exampleExternals) (rateLimiter (freshWorld 0))
               (clock (freshWorld 0))).
  pose (g := getToken (H:=exampleExternals) (serverAnswering 200 "{part}" "")
               (set_rateLimiter (tick_allowCalls (freshWorld 0)) (snd a))).
  destruct (X25_do_answered_at_once (H:=exampleExternals) exampleClient
              (serverAnswering 200 "{part}" "") exampleRequest
              (Some decodesAsObject) (freshWorld 0) (snd g) (snd a)
              "test-token" (mkResponse 200 "{part}" "" "req-1" false) 20000000)
    as [Hok _].
  - cbn. unfold int_max. lia.
  - reflexivity.
  - reflexivity.
  - discriminate.
  - reflexivity.
  - reflexivity.
  - reflexivity.
  - cbn. lia.
  - subst r. rewrite (Hok decodesAsObject "{part}"); try reflexivity;
      [|discriminate].
    cbn [res_err res_value res_events res_world fst snd].
    repeat apply conj; reflexivity.
Defined.

Lemma X5_witness :
  WaitTime exhaustedLimiter 5 = Minute - 5
  /\ (exists e, fst (Allow (H:=exampleExternals) exhaustedLimiter Minute)
                = Some e)
  /\ fst (Allow (H:=exampleExternals) exhaustedLimiter (Minute + 1)) = None.
Proof.
  destruct (X5_WaitTime_bounds_Allow (H:=exampleExternals) exhaustedLimiter 5)
    as (_ & _ & Hat & Hafter).
  split; [reflexivity|]. split.
  - destruct Hat as [e He]; [vm_compute; reflexivity|].
    exists e. exact He.
  - apply Hafter.
    + cbn. lia.
    + cbn. lia.
    + vm_compute. reflexivity.
    + vm_compute. reflexivity.
Defined.

Lemma X27_witness :
  let env := serverAnswering 200 "{found}" "" in
  let w' :=
    (KeywordSearch_racing (H:=exampleExternals) exampleClient env germanLocale
       (Some exampleSearch) (freshWorld 0)).1.2 in
  KeywordSearch (H:=exampleExternals) (SetLocale exampleClient germanLocale)
    env (Some exampleSearch) w'
  = (inl "{found}", w', []).
Proof.
  intros env w'.
  pose (r := KeywordSearch_racing (H:=exampleExternals) exampleClient env
               germanLocale (Some exampleSearch) (freshWorld 0)).
  destruct (X27_locale_change_poisons_cache (H:=exampleExternals)
              exampleClient env germanLocale) as [_ Hrace].
  destruct (Hrace exampleSearch (freshWorld 0) "{found}" r.1.2 r.2 "{found}")
    as (m' & Hc & _ & Hhit).
  - reflexivity.
  - vm_compute. reflexivity.
  - reflexivity.
  - discriminate.
  - reflexivity.
  - apply (Hhit "{found}" w'); [reflexivity|exact Hc|].
    vm_compute. reflexivity.
Defined.

Lemma X28_witness :
  exists s,
    run (H:=exampleExternals) credentialsRefused (take 5 twoCallers)
      (initSys 2 (newTokenManager "test-id" "test-secret" "") 0) = Some s
    /\ sys_locked s = true
    /\ exists j s', step (H:=exampleExternals) credentialsRefused (Run j) s
                    = Some s'.
Proof.
  eexists. split; [vm_compute; reflexivity|]. split; [reflexivity|].
  apply (X28_getToken_never_deadlocks (H:=exampleExternals)
           credentialsRefused 2 (newTokenManager "test-id" "test-secret" "")
           0 (take 5 twoCallers)).
  - vm_compute. reflexivity.
  - exists 1%nat, PWaitLock. split; reflexivity.
Defined.

Lemma X29_witness :
  let r :=
    doOnce (H:=exampleExternals) exampleClient
      (serverAnswering 200 "{part}" "") exampleRequest
      (None : option (string -> option unit)) (freshWorld 0) in
  sends r.2 = 1%nat /\ exchanges r.2 = 1%nat.
Proof.
  intros r.
  destruct (X29_no_request_without_exchange (H:=exampleExternals)
              exampleClient (serverAnswering 200 "{part}" "") exampleRequest
              (None : option (string -> option unit)) (freshWorld 0)
              r.2 r.1) as [Hex _].
  - reflexivity.
  - apply surjective_pairing.
  - vm_compute. reflexivity.
  - split; [vm_compute; reflexivity|exact Hex].
Defined.
